(** * Modelamiento de celdas 5G: topology, traffic and scoring pipeline

    A shallow embedding of [nr_multi_cell_optimized.cc] (the ns-3 scenario
    driver of the repository) and the properties of its deterministic
    parts: cell layout, traffic-class split, per-UE rate allocation,
    telemetry callbacks and the post-run scoring pass.

    Conventions of the embedding.
    - A C++ [double] is a primitive binary64 [float]; arithmetic and
      comparisons are the IEEE-754 operations of the kernel, related to
      [SpecFloat] by [FloatAxioms].
    - [uint32_t] and [uint64_t] values are [Z] with the wrap-around
      written out ([wrap]).
    - [std::unordered_map] and [std::map] are [gmap]s; [operator[]] reads
      the default-constructed value when the key is absent.
    - Functions of libm ([log10], [cos], [sin]) and of ns-3
      ([Time::GetSeconds], the subtraction of [Time]s) are section
      variables: they are not part of the sources.

    The first part of the file holds the model, module by module in the
    order of the source; the second part holds the proofs. *)

From Stdlib Require Import ZArith Lia List Bool Floats.
From Stdlib Require Uint63.
From stdpp Require Import gmap list sorting.

Set Warnings "-inexact-float".
#[local] Open Scope Z_scope.

(* ===================================================================== *)
(** * Part I: the model *)
(* ===================================================================== *)

(** ** C++ numeric primitives *)

Module Double.

Implicit Types (a b x y : float) (z : Z).

(** [std::max(a, b)] is [(a < b) ? b : a]. *)
Definition std_max a b : float := if (a <? b)%float then b else a.

(** [std::min(a, b)] is [(b < a) ? b : a]. *)
Definition std_min a b : float := if (b <? a)%float then b else a.

(** Conversion of an integer to [double], rounding to nearest even. *)
Definition Z_to_double z : float :=
  SF2Prim (binary_normalize prec emax z 0 false).

(** Unsigned wrap-around at [bits] bits. *)
Definition wrap (bits : Z) z : Z := z mod 2 ^ bits.

(** Truncation toward zero of a finite value; [None] on NaN and infinities. *)
Definition SFtrunc (s : spec_float) : option Z :=
  match s with
  | S754_zero _ => Some 0
  | S754_finite sg m e => Some (cond_Zopp sg (Z.shiftl (Zpos m) e))
  | S754_infinity _ | S754_nan => None
  end.

(** Rounding toward minus infinity of a finite value. *)
Definition SFfloor (s : spec_float) : option Z :=
  match s with
  | S754_zero _ => Some 0
  | S754_finite sg m e => Some (Z.shiftl (cond_Zopp sg (Zpos m)) e)
  | S754_infinity _ | S754_nan => None
  end.

Definition double_floor x : option Z := SFfloor (Prim2SF x).

(** [static_cast<uintN_t>(x)]: the value truncated toward zero; the
    behaviour is undefined ([None]) when the truncated value does not fit. *)
Definition double_to_uint (bits : Z) x : option Z :=
  match SFtrunc (Prim2SF x) with
  | Some z => if (0 <=? z) && (z <? 2 ^ bits) then Some z else None
  | None => None
  end.

(** The sign carried by a value ([True] on NaN, which has none). *)
Definition sign_is (sg : bool) (s : spec_float) : Prop :=
  match s with
  | S754_zero sg' | S754_infinity sg' | S754_finite sg' _ _ => sg' = sg
  | S754_nan => True
  end.

(** Not a finite negative number. *)
Definition not_negative (s : spec_float) : Prop :=
  match s with
  | S754_finite true _ _ => False
  | _ => True
  end.

(** A finite strictly positive number. *)
Definition finite_positive (x : float) : bool :=
  (0 <? x)%float && (x <? infinity)%float.

End Double.

(** ** Telemetry callbacks (lines 33-114) *)

Module Telemetry.
Import Double.

Record ChannelMetrics := mkChannelMetrics {
  sumSinrDb : float;
  sumRsrpDbm : float;
  sumRsrqDb : float;
  samples : Z;            (* uint32_t *)
  maxSinr : float;
  minSinr : float
}.

(** The default member initialisers of the struct. *)
Definition ChannelMetrics_init : ChannelMetrics :=
  {| sumSinrDb := 0; sumRsrpDbm := 0; sumRsrqDb := 0; samples := 0;
     maxSinr := (-1000)%float; minSinr := 1000%float |}.

(** The file-scope variables the callbacks write. *)
Record Globals := mkGlobals {
  g_channelMetrics : gmap Z ChannelMetrics;
  g_sinrHistory : gmap Z (list float);
  g_handoverAttempts : Z; (* uint32_t *)
  g_handoverSuccess : Z;  (* uint32_t *)
  g_handoverFailures : Z  (* uint32_t *)
}.

(** Static initialisation: empty maps, zero counters. *)
Definition Globals_init : Globals :=
  {| g_channelMetrics := ∅; g_sinrHistory := ∅;
     g_handoverAttempts := 0; g_handoverSuccess := 0; g_handoverFailures := 0 |}.

(** [g_channelMetrics[imsi]] and [g_sinrHistory[imsi]] as values. *)
Definition metricsOf (g : Globals) (imsi : Z) : ChannelMetrics :=
  default ChannelMetrics_init (g_channelMetrics g !! imsi).

Definition historyOf (g : Globals) (imsi : Z) : list float :=
  default [] (g_sinrHistory g !! imsi).

(** The capacity test and the [erase(begin())] of lines 80-82. *)
Definition evictOldest (history : list float) : list float :=
  if (1000 <? length history)%nat then tail history else history.

(** The last [n] elements of a list. *)
Definition lastn {A} (n : nat) (l : list A) : list A :=
  drop (length l - n) l.

Inductive Event :=
  | SinrSample (imsi : Z) (m_sinr : float)
  | RsrpSample (imsi cellId : Z) (rsrp : float)
  | RsrqSample (imsi cellId : Z) (rsrq : float)
  | HandoverStart (imsi sourceCellId targetCellId : Z)
  | HandoverSuccess (imsi sourceCellId targetCellId : Z)
  | HandoverFailure (imsi sourceCellId targetCellId : Z).

Section Callbacks.

(** [std::log10] of libm. *)
Variable log10 : float -> float.

Definition EnhancedSinrCallback (imsi : Z) (m_sinr : float) (g : Globals)
  : Globals :=
  if (0 <? m_sinr)%float then
    let sinrDb := (10 * log10 m_sinr)%float in
    let metrics := metricsOf g imsi in
    let metrics' :=
      {| sumSinrDb := (sumSinrDb metrics + sinrDb)%float;
         sumRsrpDbm := sumRsrpDbm metrics;
         sumRsrqDb := sumRsrqDb metrics;
         samples := wrap 32 (samples metrics + 1);
         maxSinr := std_max (maxSinr metrics) sinrDb;
         minSinr := std_min (minSinr metrics) sinrDb |} in
    let history' := evictOldest (historyOf g imsi ++ [sinrDb]) in
    {| g_channelMetrics := <[imsi := metrics']> (g_channelMetrics g);
       g_sinrHistory := <[imsi := history']> (g_sinrHistory g);
       g_handoverAttempts := g_handoverAttempts g;
       g_handoverSuccess := g_handoverSuccess g;
       g_handoverFailures := g_handoverFailures g |}
  else g.

Definition RsrpCallback (imsi cellId : Z) (rsrp : float) (g : Globals)
  : Globals :=
  let metrics := metricsOf g imsi in
  let metrics' :=
    {| sumSinrDb := sumSinrDb metrics;
       sumRsrpDbm := (sumRsrpDbm metrics + rsrp)%float;
       sumRsrqDb := sumRsrqDb metrics;
       samples := samples metrics;
       maxSinr := maxSinr metrics;
       minSinr := minSinr metrics |} in
  {| g_channelMetrics := <[imsi := metrics']> (g_channelMetrics g);
     g_sinrHistory := g_sinrHistory g;
     g_handoverAttempts := g_handoverAttempts g;
     g_handoverSuccess := g_handoverSuccess g;
     g_handoverFailures := g_handoverFailures g |}.

Definition RsrqCallback (imsi cellId : Z) (rsrq : float) (g : Globals)
  : Globals :=
  let metrics := metricsOf g imsi in
  let metrics' :=
    {| sumSinrDb := sumSinrDb metrics;
       sumRsrpDbm := sumRsrpDbm metrics;
       sumRsrqDb := (sumRsrqDb metrics + rsrq)%float;
       samples := samples metrics;
       maxSinr := maxSinr metrics;
       minSinr := minSinr metrics |} in
  {| g_channelMetrics := <[imsi := metrics']> (g_channelMetrics g);
     g_sinrHistory := g_sinrHistory g;
     g_handoverAttempts := g_handoverAttempts g;
     g_handoverSuccess := g_handoverSuccess g;
     g_handoverFailures := g_handoverFailures g |}.

Definition HandoverStartCallback (imsi sourceCellId targetCellId : Z)
  (g : Globals) : Globals :=
  {| g_channelMetrics := g_channelMetrics g;
     g_sinrHistory := g_sinrHistory g;
     g_handoverAttempts := wrap 32 (g_handoverAttempts g + 1);
     g_handoverSuccess := g_handoverSuccess g;
     g_handoverFailures := g_handoverFailures g |}.

Definition HandoverSuccessCallback (imsi sourceCellId targetCellId : Z)
  (g : Globals) : Globals :=
  {| g_channelMetrics := g_channelMetrics g;
     g_sinrHistory := g_sinrHistory g;
     g_handoverAttempts := g_handoverAttempts g;
     g_handoverSuccess := wrap 32 (g_handoverSuccess g + 1);
     g_handoverFailures := g_handoverFailures g |}.

Definition HandoverFailureCallback (imsi sourceCellId targetCellId : Z)
  (g : Globals) : Globals :=
  {| g_channelMetrics := g_channelMetrics g;
     g_sinrHistory := g_sinrHistory g;
     g_handoverAttempts := g_handoverAttempts g;
     g_handoverSuccess := g_handoverSuccess g;
     g_handoverFailures := wrap 32 (g_handoverFailures g + 1) |}.

(** The engine fires one callback per event, in event order. *)
Definition dispatch (g : Globals) (ev : Event) : Globals :=
  match ev with
  | SinrSample imsi m_sinr => EnhancedSinrCallback imsi m_sinr g
  | RsrpSample imsi cellId rsrp => RsrpCallback imsi cellId rsrp g
  | RsrqSample imsi cellId rsrq => RsrqCallback imsi cellId rsrq g
  | HandoverStart imsi s t => HandoverStartCallback imsi s t g
  | HandoverSuccess imsi s t => HandoverSuccessCallback imsi s t g
  | HandoverFailure imsi s t => HandoverFailureCallback imsi s t g
  end.

Definition run (evs : list Event) (g : Globals) : Globals :=
  fold_left dispatch evs g.

(** The dB value an event contributes to the history of [imsi], if any. *)
Definition sampleDb (imsi : Z) (ev : Event) : option float :=
  match ev with
  | SinrSample i m_sinr =>
      if decide (i = imsi) then
        if (0 <? m_sinr)%float then Some (10 * log10 m_sinr)%float else None
      else None
  | _ => None
  end.

(** The accepted SINR samples of [imsi] in dB, oldest first. *)
Definition dbSamples (imsi : Z) (evs : list Event) : list float :=
  omap (sampleDb imsi) evs.

End Callbacks.

End Telemetry.

(** ** Cell layout (lines 117-180) *)

Module Layout.
Import Double.

Inductive ScenarioType := DENSE_URBAN | SPARSE_SUBURBAN.

(** [ns3::Vector]. *)
Record Vector := mkVector { vx : float; vy : float; vz : float }.

(** [M_PI] of <cmath>. *)
Definition M_PI : float := 0x1.921fb54442d18p+1%float.

Section CellLayout.

(** [cos] and [sin] of libm. *)
Variables cos sin : float -> float.

(** The body of the two [for] loops: [count] points on a circle of radius
    [r], one every [M_PI / divisor] radians starting at angle 0. *)
Definition ringPositions (count : Z) (r divisor baseHeight : float)
  : list Vector :=
  (fun i : Z =>
     let angle := (Z_to_double i * M_PI / divisor)%float in
     mkVector (r * cos angle) (r * sin angle) baseHeight) <$> seqZ 0 count.

(** The positions added to the allocator, in order. *)
Definition CreateOptimizedCellLayout (numCells : Z) (ISD baseHeight : float)
  (scenario : ScenarioType) : list Vector :=
  let effectiveISD :=
    match scenario with
    | DENSE_URBAN => (ISD * 0.7)%float
    | SPARSE_SUBURBAN => (ISD * 1.3)%float
    end in
  match numCells with
  | 1 => [mkVector 0 0 baseHeight]
  | 3 =>
      let r := (effectiveISD * 0.577)%float in
      [mkVector 0 r baseHeight;
       mkVector (- r * 0.866) (- r * 0.5) baseHeight;
       mkVector (r * 0.866) (- r * 0.5) baseHeight]
  | 5 =>
      let offset := (effectiveISD * 0.7)%float in
      [mkVector 0 0 baseHeight;
       mkVector offset 0 baseHeight;
       mkVector (- offset) 0 baseHeight;
       mkVector 0 offset baseHeight;
       mkVector 0 (- offset) baseHeight]
  | 7 =>
      let r := (effectiveISD * 0.6)%float in
      mkVector 0 0 baseHeight :: ringPositions 6 r 3 baseHeight
  | _ =>
      (* case 9 and default *)
      let r := (effectiveISD * 0.65)%float in
      mkVector 0 0 baseHeight :: ringPositions 8 r 4 baseHeight
  end.

End CellLayout.

End Layout.

(** ** Traffic classes and the per-UE eMBB rate ([main], lines 388-413) *)

Module Traffic.
Import Double.

Inductive TrafficClass := eMBB | URLLC.

(** [uint32_t numEmbbUEs = static_cast<uint32_t>(embbRatio * numUEs);] *)
Definition numEmbbUEs (embbRatio : float) (numUEs : Z) : option Z :=
  double_to_uint 32 (embbRatio * Z_to_double numUEs)%float.

(** The classification loop of lines 393-401 over the creation indices:
    index [i] is appended to [embbUEs] when [i < numEmbbUEs] and to
    [urllcUEs] otherwise. *)
Fixpoint classifyLoop (numEmbb : Z) (indices embbUEs urllcUEs : list Z)
  : list Z * list Z :=
  match indices with
  | [] => (embbUEs, urllcUEs)
  | i :: rest =>
      if i <? numEmbb
      then classifyLoop numEmbb rest (embbUEs ++ [i]) urllcUEs
      else classifyLoop numEmbb rest embbUEs (urllcUEs ++ [i])
  end.

Definition classifyUEs (numEmbb numUEs : Z) : list Z * list Z :=
  classifyLoop numEmbb (seqZ 0 numUEs) [] [].

(** [double embbBudgetBps = denseScenario ? 3e8 : 2e8;] *)
Definition embbBudgetBps (denseScenario : bool) : float :=
  if denseScenario then 3e8%float else 2e8%float.

(** The clamped fair share, the [double] that the source keeps in
    [fairShare] after line 409. *)
Definition clampedFairShare (budget : float) (nEmbb : Z) : float :=
  let fairShare := (budget / Z_to_double nEmbb)%float in
  std_max 5e6 (std_min fairShare 20e6).

(** Lines 403-413: [perUeRateBps] as a function of the budget in scope
    and of [nEmbb = embbUEs.GetN()]. *)
Definition allocateEmbbRate (budget : float) (nEmbb : Z) : option Z :=
  if 0 <? nEmbb then
    double_to_uint 64 (clampedFairShare budget nEmbb)
  else
    double_to_uint 64 10e6.

Definition perUeRateBps (denseScenario : bool) (nEmbb : Z) : option Z :=
  allocateEmbbRate (embbBudgetBps denseScenario) nEmbb.

End Traffic.

(** ** Per-flow statistics and scores ([main], lines 591-665) *)

Module Scoring.
Import Double Telemetry.

Section Flows.

(** [ns3::Time] with its subtraction and [GetSeconds()]. *)
Variable Time : Type.
Variable Time_sub : Time -> Time -> Time.
Variable GetSeconds : Time -> float.

(** Width in bits of the unsigned type in which
    [fs.txPackets - fs.rxPackets] is evaluated: the declared type of the
    packet counters of [FlowMonitor::FlowStats].  The declaration belongs
    to ns-3's [flow-monitor.h], not to the sources; ns-3 declares the
    counters [uint32_t].  The difference is then stored, zero-extended,
    in a [uint64_t]. *)
Variable counter_bits : Z.

(** The fields of [FlowMonitor::FlowStats] that the pass reads. *)
Record FlowStats := mkFlowStats {
  txPackets : Z;
  rxPackets : Z;
  rxBytes : Z;             (* uint64_t *)
  delaySum : Time;
  jitterSum : Time;
  timeFirstTxPacket : Time;
  timeLastRxPacket : Time
}.

(** Lines 593-594. *)
Definition avgSinr (chanMetrics : ChannelMetrics) : float :=
  if 0 <? samples chanMetrics
  then (sumSinrDb chanMetrics / Z_to_double (samples chanMetrics))%float
  else 0%float.

(** Lines 597-606. *)
Definition sinrStdDev (history : list float) (avgSinr : float) : float :=
  if (1 <? length history)%nat then
    let mean := avgSinr in
    let variance :=
      fold_left (fun variance sinr =>
                   (variance + (sinr - mean) * (sinr - mean))%float)
                history 0%float in
    let variance :=
      (variance / Z_to_double (Z.of_nat (length history) - 1))%float in
    PrimFloat.sqrt variance
  else 0%float.

(** Line 610. *)
Definition lostPackets (fs : FlowStats) : Z :=
  wrap counter_bits (txPackets fs - rxPackets fs).

(** Lines 611-612. *)
Definition packetLossRatio (fs : FlowStats) : float :=
  if 0 <? txPackets fs
  then (100 * Z_to_double (lostPackets fs) / Z_to_double (txPackets fs))%float
  else 0%float.

Definition flowDuration (fs : FlowStats) : float :=
  GetSeconds (Time_sub (timeLastRxPacket fs) (timeFirstTxPacket fs)).

(** Lines 614-628; the three values start at 0.0 and are assigned under
    the guards. *)
Definition throughput (fs : FlowStats) : float :=
  if 0 <? rxPackets fs then
    if (0 <? flowDuration fs)%float
    then (Z_to_double (rxBytes fs) * 8 / (flowDuration fs * 1e6))%float
    else 0%float
  else 0%float.

Definition meanDelay (fs : FlowStats) : float :=
  if 0 <? rxPackets fs
  then (GetSeconds (delaySum fs) / Z_to_double (rxPackets fs) * 1000)%float
  else 0%float.

(** [fs.rxPackets - 1] cannot wrap under the guard [fs.rxPackets > 1]. *)
Definition meanJitter (fs : FlowStats) : float :=
  if 0 <? rxPackets fs then
    if 1 <? rxPackets fs
    then (GetSeconds (jitterSum fs) / Z_to_double (rxPackets fs - 1) * 1000)%float
    else 0%float
  else 0%float.

(** Lines 640-652. *)
Definition qoeScore (isEmbb : bool)
  (throughput meanDelay packetLossRatio meanJitter : float) : float :=
  let qoeScore := 100%float in
  let qoeScore :=
    if isEmbb then
      let qoeScore :=
        if (throughput <? 25)%float
        then (qoeScore * (throughput / 25))%float else qoeScore in
      let qoeScore :=
        if (20 <? meanDelay)%float
        then (qoeScore * (20 / meanDelay))%float else qoeScore in
      if (1 <? packetLossRatio)%float
      then (qoeScore * (1 / packetLossRatio))%float else qoeScore
    else
      let qoeScore :=
        if (5 <? meanDelay)%float
        then (qoeScore * (5 / meanDelay))%float else qoeScore in
      let qoeScore :=
        if (0.1 <? packetLossRatio)%float
        then (qoeScore * (0.1 / packetLossRatio))%float else qoeScore in
      if (2 <? meanJitter)%float
      then (qoeScore * (2 / meanJitter))%float else qoeScore in
  std_max 0 (std_min 100 qoeScore).

(** Lines 655-665. *)
Definition reliabilityScore (chanMetrics : ChannelMetrics) (avgSinr : float)
  : float :=
  let reliabilityScore := 100%float in
  let reliabilityScore :=
    if 0 <? samples chanMetrics then
      let sinrRange := (maxSinr chanMetrics - minSinr chanMetrics)%float in
      let reliabilityScore :=
        if (20 <? sinrRange)%float
        then (reliabilityScore * (20 / sinrRange))%float
        else reliabilityScore in
      if (avgSinr <? 10)%float
      then (reliabilityScore * (avgSinr / 10))%float
      else reliabilityScore
    else reliabilityScore in
  std_max 0 (std_min 100 reliabilityScore).

(** The scores of one flow, from its counters and the UE's metrics. *)
Definition flowQoE (isEmbb : bool) (fs : FlowStats) : float :=
  qoeScore isEmbb (throughput fs) (meanDelay fs) (packetLossRatio fs)
           (meanJitter fs).

Definition flowReliability (chanMetrics : ChannelMetrics) : float :=
  reliabilityScore chanMetrics (avgSinr chanMetrics).

End Flows.

(** *** The scores as the specification words them *)

(** One penalty: the score is multiplied by [factor] when the threshold
    is violated and kept otherwise. *)
Definition spec_penalise (violated : bool) (factor score : float) : float :=
  if violated then (score * factor)%float else score.

(** Start at 100, apply the penalties in sequence, clamp to [0, 100]. *)
Definition spec_score (penalties : list (bool * float)) : float :=
  std_max 0
    (std_min 100
       (fold_left (fun score p => spec_penalise p.1 p.2 score) penalties 100%float)).

Definition spec_qoePenalties (class : Traffic.TrafficClass)
  (throughput meanDelay lossRatio meanJitter : float) : list (bool * float) :=
  match class with
  | Traffic.eMBB =>
      [((throughput <? 25)%float, (throughput / 25)%float);
       ((20 <? meanDelay)%float, (20 / meanDelay)%float);
       ((1 <? lossRatio)%float, (1 / lossRatio)%float)]
  | Traffic.URLLC =>
      [((5 <? meanDelay)%float, (5 / meanDelay)%float);
       ((0.1 <? lossRatio)%float, (0.1 / lossRatio)%float);
       ((2 <? meanJitter)%float, (2 / meanJitter)%float)]
  end.

(** The reliability recipe without any condition on the sample count. *)
Definition spec_reliabilityPenalties (minSinr maxSinr avgSinr : float)
  : list (bool * float) :=
  let range := (maxSinr - minSinr)%float in
  [((20 <? range)%float, (20 / range)%float);
   ((avgSinr <? 10)%float, (avgSinr / 10)%float)].

Definition isEmbbOf (class : Traffic.TrafficClass) : bool :=
  match class with Traffic.eMBB => true | Traffic.URLLC => false end.

End Scoring.

(** ** Per-cell statistics ([main], lines 557-565 and 714-748) *)

Module CellStats.
Import Double.

(** [struct QoEMetrics]. *)
Record QoEMetrics := mkQoEMetrics {
  totalDelay : float;
  totalJitter : float;
  totalPackets : Z;        (* uint64_t *)
  sumThroughput : float;
  flows : Z                (* uint32_t *)
}.

(** [struct CellSummary], local to [main]. *)
Record CellSummary := mkCellSummary {
  totalThroughput : float;
  totalTx : Z;             (* uint64_t *)
  totalRx : Z;             (* uint64_t *)
  totalLost : Z;           (* uint64_t *)
  totalSinr : float;
  sinrSamples : Z;         (* uint32_t *)
  qoe : QoEMetrics
}.

Definition QoEMetrics_init : QoEMetrics :=
  {| totalDelay := 0; totalJitter := 0; totalPackets := 0;
     sumThroughput := 0; flows := 0 |}.

Definition CellSummary_init : CellSummary :=
  {| totalThroughput := 0; totalTx := 0; totalRx := 0; totalLost := 0;
     totalSinr := 0; sinrSamples := 0; qoe := QoEMetrics_init |}.

(** A [std::map] is traversed in ascending key order. *)
Definition key_le (a b : Z * CellSummary) : Prop := a.1 <= b.1.

#[global] Instance key_le_dec : RelDecision key_le.
Proof. intros a b. unfold key_le. apply _. Defined.

Definition entries (cellSummaries : gmap Z CellSummary)
  : list (Z * CellSummary) :=
  merge_sort key_le (map_to_list cellSummaries).

(** Lines 714-717. *)
Definition maxCellThroughput (cellSummaries : gmap Z CellSummary) : float :=
  fold_left
    (fun maxCellThroughput cellStat =>
       std_max maxCellThroughput (totalThroughput cellStat.2))
    (entries cellSummaries) 0%float.

(** Lines 720 and 747-748, for the row of [cellId]. *)
Definition loadBalance (cellSummaries : gmap Z CellSummary) (cellId : Z)
  : float :=
  let summary := default CellSummary_init (cellSummaries !! cellId) in
  let maxCellThroughput := maxCellThroughput cellSummaries in
  if (0 <? maxCellThroughput)%float
  then (totalThroughput summary / maxCellThroughput * 100)%float
  else 0%float.

End CellStats.

(** ** Sample inputs *)

Module Samples.
Import Double Telemetry CellStats.

(** A [Time] counted in nanoseconds, with the conversion to seconds in
    double arithmetic. *)
Definition nsSeconds (t : Z) : float := (Z_to_double t / 1e9)%float.

(** A state in which UE 7 has a full history. *)
Definition fullHistory : Globals :=
  {| g_channelMetrics := ∅;
     g_sinrHistory := {[ 7 := replicate 1000 1%float ]};
     g_handoverAttempts := 0; g_handoverSuccess := 0; g_handoverFailures := 0 |}.

(** Two cells carrying 30 and 60 Mbps. *)
Definition twoCells : gmap Z CellSummary :=
  {[ 0 := mkCellSummary 30 0 0 0 0 0 QoEMetrics_init;
     1 := mkCellSummary 60 0 0 0 0 0 QoEMetrics_init ]}.

End Samples.

(** ** User placement ([DistributeUsersOptimized], lines 182-249) *)

Module Placement.
Import Double Layout.

(** [uesPerCell[i] *= 1.5;] on a [uint32_t] element: the count is
    converted to [double], multiplied, and converted back on assignment. *)
Definition scaleCount (count : Z) : option Z :=
  double_to_uint 32 (Z_to_double count * 1.5)%float.

(** The body of the loop of lines 197-207 for cell [i]. *)
Definition uesPerCellAt (scenario : ScenarioType) (numUEs numCells i : Z)
  : option Z :=
  let baseUesPerCell := numUEs / numCells in
  let remainder := numUEs mod numCells in
  let count := wrap 32 (baseUesPerCell + (if i <? remainder then 1 else 0)) in
  match scenario with
  | DENSE_URBAN =>
      if (i =? 0) || (i =? numCells / 2) then scaleCount count else Some count
  | SPARSE_SUBURBAN => Some count
  end.

(** Lines 193-207.  With no cell the integer division of line 194 is by
    zero, which is undefined ([None]), as is a scaled count that does not
    fit. *)
Definition uesPerCell (scenario : ScenarioType) (numUEs numCells : Z)
  : option (list Z) :=
  if numCells =? 0 then None
  else mapM (uesPerCellAt scenario numUEs numCells) (seqZ 0 numCells).

(** Lines 214-215. *)
Definition maxRadius (scenario : ScenarioType) (ISD : float) : float :=
  match scenario with
  | DENSE_URBAN => (ISD * 0.4)%float
  | SPARSE_SUBURBAN => (ISD * 0.8)%float
  end.

Definition minRadius (scenario : ScenarioType) : float :=
  match scenario with
  | DENSE_URBAN => 10%float
  | SPARSE_SUBURBAN => 50%float
  end.

(** The state of the placement loops: the next UE to place, the number
    of values drawn so far from each random stream, and the
    [SetPosition] calls made, oldest first. *)
Record Loop := mkLoop {
  ueIndex : Z;                      (* uint32_t *)
  expCalls : nat;
  uniformCalls : nat;
  placed : list (Z * Vector)
}.

Definition Loop_init : Loop :=
  {| ueIndex := 0; expCalls := 0; uniformCalls := 0; placed := [] |}.

Section Distribute.

(** [cos] and [sin] of libm. *)
Variables cos sin : float -> float.

(** The two random streams of ns-3: the value returned by the [k]-th call
    of [expRv->GetValue()], and by the [k]-th call of
    [uniformRv->GetValue(min, max)]. *)
Variable expRv : nat -> float.
Variable uniformRv : nat -> float -> float -> float.

Variable scenario : ScenarioType.
Variables ISD userHeight : float.
Variable numUEs : Z.

(** The body of the inner loop, lines 218-237. *)
Definition placeNear (cellPos : Vector) (st : Loop) : Loop :=
  let maxRadius := maxRadius scenario ISD in
  let minRadius := minRadius scenario in
  let '(radius, expCalls', uniformCalls') :=
    match scenario with
    | DENSE_URBAN =>
        let radius :=
          (minRadius + expRv (expCalls st) * (maxRadius - minRadius) * 0.3)%float in
        (std_min radius maxRadius, S (expCalls st), uniformCalls st)
    | SPARSE_SUBURBAN =>
        (uniformRv (uniformCalls st) minRadius maxRadius,
         expCalls st, S (uniformCalls st))
    end in
  let angle := uniformRv uniformCalls' 0 (2 * M_PI)%float in
  let x := (vx cellPos + radius * cos angle)%float in
  let y := (vy cellPos + radius * sin angle)%float in
  {| ueIndex := wrap 32 (ueIndex st + 1);
     expCalls := expCalls';
     uniformCalls := S uniformCalls';
     placed := placed st ++ [(ueIndex st, mkVector x y userHeight)] |}.

(** The inner loop of line 217: at most [count] iterations, each under
    the test [ueIndex < numUEs]. *)
Fixpoint placeAround (count : nat) (cellPos : Vector) (st : Loop) : Loop :=
  match count with
  | O => st
  | S count' =>
      if ueIndex st <? numUEs
      then placeAround count' cellPos (placeNear cellPos st)
      else st
  end.

(** The outer loop of line 210 over the cells, each with its position
    and its entry of [uesPerCell]. *)
Fixpoint cellLoop (cells : list (Vector * Z)) (st : Loop) : Loop :=
  match cells with
  | [] => st
  | (cellPos, count) :: rest =>
      if ueIndex st <? numUEs
      then cellLoop rest (placeAround (Z.to_nat count) cellPos st)
      else st
  end.

(** The body of the last loop, lines 244-247. *)
Definition placeAnywhere (st : Loop) : Loop :=
  let areaSize := (ISD * 1.5)%float in
  let x := uniformRv (uniformCalls st) (- areaSize) areaSize in
  let y := uniformRv (S (uniformCalls st)) (- areaSize) areaSize in
  {| ueIndex := wrap 32 (ueIndex st + 1);
     expCalls := expCalls st;
     uniformCalls := S (S (uniformCalls st));
     placed := placed st ++ [(ueIndex st, mkVector x y userHeight)] |}.

(** The loop of line 243; [fuel] bounds the iterations. *)
Fixpoint remainingLoop (fuel : nat) (st : Loop) : Loop :=
  match fuel with
  | O => st
  | S fuel' =>
      if ueIndex st <? numUEs
      then remainingLoop fuel' (placeAnywhere st)
      else st
  end.

(** What holds of the loop state between two placements: the UEs below
    [ueIndex] have been placed once each, in index order and at
    [userHeight], and each placement has drawn its random values. *)
Definition consistent (st : Loop) : Prop :=
  0 <= ueIndex st <= numUEs /\
  (placed st).*1 = seqZ 0 (ueIndex st) /\
  Forall (fun p => vz p.2 = userHeight) (placed st) /\
  expCalls st
  = match scenario with
    | DENSE_URBAN => Z.to_nat (ueIndex st)
    | SPARSE_SUBURBAN => O
    end /\
  uniformCalls st
  = match scenario with
    | DENSE_URBAN => Z.to_nat (ueIndex st)
    | SPARSE_SUBURBAN => (2 * Z.to_nat (ueIndex st))%nat
    end.

(** The whole function, for [numUEs = ueNodes.GetN()] and the positions
    of the [gnbNodes] in order; the fuel of the last loop is the number
    of UEs still to place. *)
Definition DistributeUsersOptimized (gnbPositions : list Vector)
  : option Loop :=
  let numCells := Z.of_nat (length gnbPositions) in
  match uesPerCell scenario numUEs numCells with
  | None => None
  | Some counts =>
      let st := cellLoop (zip gnbPositions counts) Loop_init in
      Some (remainingLoop (Z.to_nat (numUEs - ueIndex st)) st)
  end.

End Distribute.

End Placement.

(** ** Traffic sources and sinks ([main], lines 414-466) *)

Module Apps.
Import Double.

Definition embbPort : Z := 7000.
Definition urllcPort : Z := 7001.

(** One iteration of an application loop: the UE node on which the sink
    is installed, the index passed to [ueIpIfaces.GetAddress] for the
    destination of the source, the port, and the device whose bearer is
    activated. *)
Record App := mkApp {
  sinkNode : Z;
  destIndex : Z;
  appPort : Z;
  bearerDevice : Z
}.

(** Lines 420-440: [embbUEs] and [embbDevices] hold the same creation
    indices. *)
Definition embbApps (embbUEs : list Z) : list App :=
  imap (fun i ue => mkApp ue (Z.of_nat i) embbPort ue) embbUEs.

(** Lines 444-466, with [uint32_t ueIdx = i + numEmbbUEs]. *)
Definition urllcApps (numEmbbUEs : Z) (urllcUEs : list Z) : list App :=
  imap (fun i ue =>
          let ueIdx := wrap 32 (Z.of_nat i + numEmbbUEs) in
          mkApp ue ueIdx urllcPort ue) urllcUEs.

(** The applications of a run, from the classification of lines 389-401. *)
Definition installApps (numEmbbUEs numUEs : Z) : list App :=
  let '(embbUEs, urllcUEs) := Traffic.classifyUEs numEmbbUEs numUEs in
  embbApps embbUEs ++ urllcApps numEmbbUEs urllcUEs.

End Apps.

(** ** UE-cell association ([main], lines 490-510) *)

Module Association.
Import Double Layout.

(** [std::numeric_limits<double>::max()]. *)
Definition DBL_MAX : float := 0x1.fffffffffffffp+1023%float.

(** The three file-scope maps the loop writes. *)
Record AssocMaps := mkAssocMaps {
  g_imsiToCell : gmap Z Z;
  g_imsiDistance : gmap Z float;
  g_cellUeCount : gmap Z Z          (* uint32_t values *)
}.

Definition AssocMaps_init : AssocMaps :=
  {| g_imsiToCell := ∅; g_imsiDistance := ∅; g_cellUeCount := ∅ |}.

(** [g_cellUeCount[cellId]] as a value. *)
Definition cellUeCount (maps : AssocMaps) (cellId : Z) : Z :=
  default 0 (g_cellUeCount maps !! cellId).

(** The two locals of the search. *)
Record Closest := mkClosest { minDistance : float; closestCell : Z }.

Definition Closest_init : Closest :=
  {| minDistance := DBL_MAX; closestCell := 0 |}.

Section Associate.

(** [ns3::CalculateDistance]. *)
Variable CalculateDistance : Vector -> Vector -> float.

(** The inner loop of lines 496-504 from cell [j] on. *)
Fixpoint closestLoop (uePos : Vector) (gnbPositions : list Vector) (j : Z)
  (acc : Closest) : Closest :=
  match gnbPositions with
  | [] => acc
  | gnbPos :: rest =>
      let distance := CalculateDistance uePos gnbPos in
      closestLoop uePos rest (j + 1)
        (if (distance <? minDistance acc)%float
         then {| minDistance := distance; closestCell := j |}
         else acc)
  end.

Definition findClosest (uePos : Vector) (gnbPositions : list Vector)
  : Closest :=
  closestLoop uePos gnbPositions 0 Closest_init.

(** Lines 506-509 for one UE, given its position and its IMSI. *)
Definition associateUe (gnbPositions : list Vector) (maps : AssocMaps)
  (ue : Vector * Z) : AssocMaps :=
  let '(uePos, imsi) := ue in
  let c := findClosest uePos gnbPositions in
  {| g_imsiToCell := <[imsi := closestCell c]> (g_imsiToCell maps);
     g_imsiDistance := <[imsi := minDistance c]> (g_imsiDistance maps);
     g_cellUeCount :=
       <[closestCell c := wrap 32 (cellUeCount maps (closestCell c) + 1)]>
         (g_cellUeCount maps) |}.

(** The outer loop over the UEs in creation order. *)
Definition associate (gnbPositions : list Vector) (ues : list (Vector * Z))
  (maps : AssocMaps) : AssocMaps :=
  fold_left (associateUe gnbPositions) ues maps.

End Associate.

End Association.

(** ** The per-flow pass ([main], lines 566-701) *)

Module FlowPass.
Import Double Telemetry Scoring CellStats Association.

(** The values written to one line of the flow file. *)
Record FlowRow := mkFlowRow {
  r_flowId : Z;
  r_isEmbb : bool;
  r_imsi : Z;
  r_cellId : Z;
  r_distance : float;
  r_dstAddr : Z;
  r_avgSinr : float;
  r_minSinr : float;
  r_maxSinr : float;
  r_sinrStdDev : float;
  r_txPackets : Z;
  r_rxPackets : Z;
  r_lostPackets : Z;
  r_packetLossRatio : float;
  r_throughput : float;
  r_meanDelay : float;
  r_meanJitter : float;
  r_qoeScore : float;
  r_reliabilityScore : float
}.

(** The accumulators of the pass. *)
Record Totals := mkTotals {
  cellSummaries : gmap Z CellSummary;
  totalSystemThroughput : float;
  totalUrllcDelay : float;
  totalEmbbDelay : float;
  urllcFlows : Z;                   (* uint32_t *)
  embbFlows : Z;                    (* uint32_t *)
  flowRows : list FlowRow
}.

Definition Totals_init : Totals :=
  {| cellSummaries := ∅; totalSystemThroughput := 0;
     totalUrllcDelay := 0; totalEmbbDelay := 0;
     urllcFlows := 0; embbFlows := 0; flowRows := [] |}.

(** [cellSummaries[cellId]] as a value. *)
Definition summaryOf (t : Totals) (cellId : Z) : CellSummary :=
  default CellSummary_init (cellSummaries t !! cellId).

(** Lines 581-587: the IMSI of the first UE whose address is the
    destination, 0 when there is none.  A UE is given by its address
    ([ueIpIfaces.GetAddress(i)]) and its IMSI. *)
Fixpoint findImsi (ues : list (Z * Z)) (destinationAddress : Z) : Z :=
  match ues with
  | [] => 0
  | (address, imsi) :: rest =>
      if address =? destinationAddress then imsi
      else findImsi rest destinationAddress
  end.

Section Pass.

Variable Time : Type.
Variable Time_sub : Time -> Time -> Time.
Variable GetSeconds : Time -> float.
Variable counter_bits : Z.

(** One entry of the flow monitor with the five-tuple the classifier
    returns for it; addresses are 32-bit numbers. *)
Record Flow := mkFlow {
  flowId : Z;
  destinationAddress : Z;
  destinationPort : Z;
  flowStats : FlowStats Time
}.

(** What the pass reads: the UE table, the telemetry and the
    association maps. *)
Variable ues : list (Z * Z).
Variable g : Globals.
Variable maps : AssocMaps.

(** Whether the body of the loop runs to its end for the flow (lines
    576-589). *)
Definition processed (flow : Flow) : bool :=
  let isEmbb := destinationPort flow =? Apps.embbPort in
  let isUrllc := destinationPort flow =? Apps.urllcPort in
  if negb isEmbb && negb isUrllc then false
  else negb (findImsi ues (destinationAddress flow) =? 0).

(** The body of the loop of line 572. *)
Definition processFlow (t : Totals) (flow : Flow) : Totals :=
  let isEmbb := destinationPort flow =? Apps.embbPort in
  let isUrllc := destinationPort flow =? Apps.urllcPort in
  if negb isEmbb && negb isUrllc then t else
  let imsi := findImsi ues (destinationAddress flow) in
  if imsi =? 0 then t else
  let chanMetrics := metricsOf g imsi in
  let avgSinr := avgSinr chanMetrics in
  let sinrStdDev := sinrStdDev (historyOf g imsi) avgSinr in
  let fs := flowStats flow in
  let lostPackets := lostPackets Time counter_bits fs in
  let packetLossRatio := packetLossRatio Time counter_bits fs in
  let throughput := throughput Time Time_sub GetSeconds fs in
  let meanDelay := meanDelay Time GetSeconds fs in
  let meanJitter := meanJitter Time GetSeconds fs in
  let qoeScore :=
    qoeScore isEmbb throughput meanDelay packetLossRatio meanJitter in
  let reliabilityScore := reliabilityScore chanMetrics avgSinr in
  let cellId := default 0 (g_imsiToCell maps !! imsi) in
  let distance := default 0%float (g_imsiDistance maps !! imsi) in
  let row :=
    {| r_flowId := flowId flow; r_isEmbb := isEmbb; r_imsi := imsi;
       r_cellId := cellId; r_distance := distance;
       r_dstAddr := destinationAddress flow;
       r_avgSinr := avgSinr; r_minSinr := minSinr chanMetrics;
       r_maxSinr := maxSinr chanMetrics; r_sinrStdDev := sinrStdDev;
       r_txPackets := txPackets Time fs; r_rxPackets := rxPackets Time fs;
       r_lostPackets := lostPackets; r_packetLossRatio := packetLossRatio;
       r_throughput := throughput; r_meanDelay := meanDelay;
       r_meanJitter := meanJitter; r_qoeScore := qoeScore;
       r_reliabilityScore := reliabilityScore |} in
  let summary := summaryOf t cellId in
  let summary' :=
    {| totalThroughput := (totalThroughput summary + throughput)%float;
       totalTx := wrap 64 (totalTx summary + txPackets Time fs);
       totalRx := wrap 64 (totalRx summary + rxPackets Time fs);
       totalLost := wrap 64 (totalLost summary + lostPackets);
       totalSinr := (totalSinr summary + avgSinr)%float;
       sinrSamples := wrap 32 (sinrSamples summary + 1);
       qoe :=
         {| totalDelay := (totalDelay (qoe summary) + meanDelay)%float;
            totalJitter := (totalJitter (qoe summary) + meanJitter)%float;
            totalPackets :=
              wrap 64 (totalPackets (qoe summary) + rxPackets Time fs);
            sumThroughput := (sumThroughput (qoe summary) + throughput)%float;
            flows := wrap 32 (flows (qoe summary) + 1) |} |} in
  {| cellSummaries := <[cellId := summary']> (cellSummaries t);
     totalSystemThroughput := (totalSystemThroughput t + throughput)%float;
     totalUrllcDelay :=
       if isUrllc then (totalUrllcDelay t + meanDelay)%float
       else totalUrllcDelay t;
     totalEmbbDelay :=
       if isUrllc then totalEmbbDelay t
       else (totalEmbbDelay t + meanDelay)%float;
     urllcFlows := if isUrllc then wrap 32 (urllcFlows t + 1) else urllcFlows t;
     embbFlows := if isUrllc then embbFlows t else wrap 32 (embbFlows t + 1);
     flowRows := flowRows t ++ [row] |}.

(** The loop over the flows in ascending flow id. *)
Definition flowPass (stats : list Flow) : Totals :=
  fold_left processFlow stats Totals_init.

End Pass.

End FlowPass.

(** ** The per-cell report ([main], lines 714-760) *)

Module CellReport.
Import Double CellStats.

(** Lines 722-723. *)
Definition packetLossRatio (summary : CellSummary) : float :=
  if 0 <? totalTx summary
  then (100 * Z_to_double (totalLost summary) / Z_to_double (totalTx summary))%float
  else 0%float.

(** Lines 724-725. *)
Definition avgSinr (summary : CellSummary) : float :=
  if 0 <? sinrSamples summary
  then (totalSinr summary / Z_to_double (sinrSamples summary))%float
  else 0%float.

(** Lines 726-729. *)
Definition avgDelay (summary : CellSummary) : float :=
  if 0 <? flows (qoe summary)
  then (totalDelay (qoe summary) / Z_to_double (flows (qoe summary)))%float
  else 0%float.

Definition avgJitter (summary : CellSummary) : float :=
  if 0 <? flows (qoe summary)
  then (totalJitter (qoe summary) / Z_to_double (flows (qoe summary)))%float
  else 0%float.

(** Line 732. *)
Definition spectralEfficiency (summary : CellSummary) : float :=
  (totalThroughput summary * 1e6 / 100e6)%float.

(** Lines 735-739. *)
Definition cellQoE (avgDelay packetLossRatio avgSinr : float) : float :=
  let cellQoE := 100%float in
  let cellQoE :=
    if (10 <? avgDelay)%float
    then (cellQoE * (10 / avgDelay))%float else cellQoE in
  let cellQoE :=
    if (1 <? packetLossRatio)%float
    then (cellQoE * (1 / packetLossRatio))%float else cellQoE in
  let cellQoE :=
    if (avgSinr <? 15)%float
    then (cellQoE * (avgSinr / 15))%float else cellQoE in
  std_max 0 (std_min 100 cellQoE).

(** Lines 742-744. *)
Definition reliability (packetLossRatio avgSinr : float) : float :=
  let reliability := (100 - packetLossRatio * 10)%float in
  let reliability :=
    if (avgSinr <? 10)%float
    then (reliability * (avgSinr / 10))%float else reliability in
  std_max 0 (std_min 100 reliability).

(** The values written to one line of the cell file. *)
Record CellRow := mkCellRow {
  c_cellId : Z;
  c_numUEs : Z;
  c_totalThroughput : float;
  c_spectralEfficiency : float;
  c_totalTx : Z;
  c_totalRx : Z;
  c_totalLost : Z;
  c_packetLossRatio : float;
  c_avgSinr : float;
  c_avgDelay : float;
  c_avgJitter : float;
  c_cellQoE : float;
  c_reliability : float;
  c_loadBalance : float
}.

(** The body of the loop of line 719; [maxCellThroughput] was computed
    before the loop, from the map of the per-flow pass. *)
Definition cellRow (cellSummaries : gmap Z CellSummary)
  (maps : Association.AssocMaps) (cellId : Z) : CellRow :=
  let summary := default CellSummary_init (cellSummaries !! cellId) in
  {| c_cellId := cellId;
     c_numUEs := Association.cellUeCount maps cellId;
     c_totalThroughput := totalThroughput summary;
     c_spectralEfficiency := spectralEfficiency summary;
     c_totalTx := totalTx summary;
     c_totalRx := totalRx summary;
     c_totalLost := totalLost summary;
     c_packetLossRatio := packetLossRatio summary;
     c_avgSinr := avgSinr summary;
     c_avgDelay := avgDelay summary;
     c_avgJitter := avgJitter summary;
     c_cellQoE :=
       cellQoE (avgDelay summary) (packetLossRatio summary) (avgSinr summary);
     c_reliability := reliability (packetLossRatio summary) (avgSinr summary);
     c_loadBalance := loadBalance cellSummaries cellId |}.

(** The rows of the file, one per cell id below [numCells]. *)
Definition cellRows (cellSummaries : gmap Z CellSummary)
  (maps : Association.AssocMaps) (numCells : Z) : list CellRow :=
  cellRow cellSummaries maps <$> seqZ 0 numCells.

End CellReport.

(** ** The system report ([main], lines 764-792) *)

Module SystemReport.
Import Double Telemetry.

(** Lines 775-776. *)
Definition avgUrllcDelay (t : FlowPass.Totals) : float :=
  if 0 <? FlowPass.urllcFlows t
  then (FlowPass.totalUrllcDelay t / Z_to_double (FlowPass.urllcFlows t))%float
  else 0%float.

Definition avgEmbbDelay (t : FlowPass.Totals) : float :=
  if 0 <? FlowPass.embbFlows t
  then (FlowPass.totalEmbbDelay t / Z_to_double (FlowPass.embbFlows t))%float
  else 0%float.

(** Lines 784-785. *)
Definition handoverSuccessRate (g : Globals) : float :=
  if 0 <? g_handoverAttempts g
  then (100 * Z_to_double (g_handoverSuccess g)
        / Z_to_double (g_handoverAttempts g))%float
  else 0%float.

(** Lines 771-772 and 790; the divisions are not guarded. *)
Definition avgThroughputPerCell (t : FlowPass.Totals) (numCells : Z) : float :=
  (FlowPass.totalSystemThroughput t / Z_to_double numCells)%float.

Definition avgThroughputPerUE (t : FlowPass.Totals) (numUEs : Z) : float :=
  (FlowPass.totalSystemThroughput t / Z_to_double numUEs)%float.

Definition systemSpectralEff (t : FlowPass.Totals) (numCells : Z) : float :=
  (FlowPass.totalSystemThroughput t * 1e6 / (100e6 * Z_to_double numCells))%float.

End SystemReport.

(** ** The sequential runner (shell script) *)

Module Runner.
Import stdpp.strings.
#[local] Open Scope Z_scope.

(** Shell arithmetic [$(( ))] is on signed 64-bit integers; division
    truncates toward zero and fails on a zero divisor. *)
Definition sh_wrap (z : Z) : Z := (z + 2 ^ 63) mod 2 ^ 64 - 2 ^ 63.

Definition sh_add (a b : Z) : Z := sh_wrap (a + b).
Definition sh_sub (a b : Z) : Z := sh_wrap (a - b).
Definition sh_mul (a b : Z) : Z := sh_wrap (a * b).

Definition sh_div (a b : Z) : option Z :=
  if b =? 0 then None else Some (sh_wrap (Z.quot a b)).

Definition sh_mod (a b : Z) : option Z :=
  if b =? 0 then None else Some (Z.rem a b).

(** Division and remainder by a literal that is not zero. *)
Definition sh_div_lit (a b : Z) : Z := sh_wrap (Z.quot a b).
Definition sh_mod_lit (a b : Z) : Z := Z.rem a b.

(** The configuration at the top of the script. *)
Definition NUM_UES : Z := 30.
Definition ESTIMATED_TIME_PER_SIM : Z := 180.
Definition CELL_NUMBERS : list Z := [1; 3; 5; 7; 9].
Definition SCENARIOS : list string := ["false"; "true"].
Definition SCENARIO_NAMES : list string :=
  ["sparse"; "dense"].
Definition SEEDS : list Z := [1].

(** [hours] and [minutes] as the script derives them from a number of
    seconds, and the [seconds] of the final summary. *)
Definition hours (t : Z) : Z := sh_div_lit t 3600.
Definition minutes (t : Z) : Z := sh_div_lit (sh_mod_lit t 3600) 60.
Definition seconds (t : Z) : Z := sh_mod_lit t 60.

(** [total_sims] of [estimate_total_time] and of [main]. *)
Definition total_sims (cell_numbers : list Z)
  (scenarios : list string) (seeds : list Z) : Z :=
  sh_mul (sh_mul (Z.of_nat (length cell_numbers)) (Z.of_nat (length scenarios)))
         (Z.of_nat (length seeds)).

(** [estimate_total_time]: the hours, the minutes and the minutes per
    simulation that it prints. *)
Definition estimate_total_time (total_sims : Z) : Z * Z * Z :=
  let estimated_seconds := sh_mul total_sims ESTIMATED_TIME_PER_SIM in
  (hours estimated_seconds, minutes estimated_seconds,
   sh_div_lit ESTIMATED_TIME_PER_SIM 60).

(** [ues_for_scenario] of [run_single_simulation]. *)
Definition ues_for_scenario (dense_flag : string) : Z :=
  if String.eqb dense_flag "true"
  then sh_div_lit (sh_mul NUM_UES 3) 2
  else NUM_UES.

(** The remaining time [run_single_simulation] announces. *)
Definition remaining_time (total_sims sim_number : Z) : Z :=
  let remaining_sims := sh_add (sh_sub total_sims sim_number) 1 in
  sh_mul remaining_sims ESTIMATED_TIME_PER_SIM.

(** What [show_progress_summary] prints: the successes, the progress in
    percent, and the remaining hours and minutes when simulations are
    left.  [None] when the division fails. *)
Definition show_progress_summary (completed total failed : Z)
  : option (Z * Z * option (Z * Z)) :=
  match sh_div (sh_mul completed 100) total with
  | None => None
  | Some percent =>
      let remaining :=
        if completed <? total then
          let remaining := sh_sub total completed in
          let remaining_time := sh_mul remaining ESTIMATED_TIME_PER_SIM in
          Some (hours remaining_time, minutes remaining_time)
        else None in
      Some (sh_sub completed failed, percent, remaining)
  end.

(** The success rate [generate_quick_report] writes. *)
Definition generate_quick_report (completed_sims failed_sims : Z) : option Z :=
  sh_div (sh_mul (sh_sub completed_sims failed_sims) 100) completed_sims.

(** One simulation of the plan. *)
Record Config := mkConfig {
  num_cells : Z;
  dense_flag : string;
  scenario_name : string;
  seed : Z
}.

(** The three nested loops of [main]: cell numbers, then the indices of
    [SCENARIOS], then seeds.  A missing name expands to the empty
    string. *)
Definition plan (cell_numbers : list Z)
  (scenarios scenario_names : list string) (seeds : list Z)
  : list Config :=
  cells ← cell_numbers;
  '(scenario_idx, dense) ← imap (fun i s => (i, s)) scenarios;
  seed ← seeds;
  [mkConfig cells dense
            (default EmptyString (scenario_names !! scenario_idx)) seed].

(** What the main loop does, in order. *)
Inductive Action :=
  | RunSimulation (config : Config) (sim_number total_sims : Z)
  | ShowProgress (completed total failed : Z)
  | QuickReport (completed_sims failed_sims : Z)
  | Pause.

Record MainState := mkMainState {
  successful_sims : Z;
  failed_sims : Z;
  sim_number : Z;
  actions : list Action
}.

Definition MainState_init : MainState :=
  {| successful_sims := 0; failed_sims := 0; sim_number := 1; actions := [] |}.

Section Main.

(** The exit status of [run_single_simulation]: whether the simulation
    succeeded. *)
Variable run_single_simulation : Config -> Z -> Z -> bool.

Variable total_sims : Z.

(** The body of the innermost loop of [main]. *)
Definition mainStep (st : MainState) (config : Config) : MainState :=
  let ok := run_single_simulation config (sim_number st) total_sims in
  let successful_sims :=
    if ok then sh_add (successful_sims st) 1 else successful_sims st in
  let failed_sims :=
    if ok then failed_sims st else sh_add (failed_sims st) 1 in
  let report :=
    if (sh_mod_lit (sim_number st) 5 =? 0) || (sim_number st =? total_sims)
    then [QuickReport (sim_number st) failed_sims] else [] in
  let sim_number' := sh_add (sim_number st) 1 in
  let pause := if sim_number' <=? total_sims then [Pause] else [] in
  {| successful_sims := successful_sims;
     failed_sims := failed_sims;
     sim_number := sim_number';
     actions :=
       actions st
       ++ [RunSimulation config (sim_number st) total_sims;
           ShowProgress (sim_number st) total_sims failed_sims]
       ++ report ++ pause |}.

Definition mainLoop (configs : list Config) : MainState :=
  fold_left mainStep configs MainState_init.

End Main.

(** The success rate of the final statistics of [main]. *)
Definition final_success_rate (successful_sims total_sims : Z) : option Z :=
  sh_div (sh_mul successful_sims 100) total_sims.

(** Views of the actions of a run of the main loop. *)
Definition runOf (a : Action) : option (Config * Z) :=
  match a with RunSimulation config k _ => Some (config, k) | _ => None end.

Definition reportOf (a : Action) : option Z :=
  match a with QuickReport k _ => Some k | _ => None end.

Definition isPause (a : Action) : bool :=
  match a with Pause => true | _ => false end.

(** The divisions an action performs succeed and give a percentage. *)
Definition percentagesDefined (a : Action) : Prop :=
  match a with
  | ShowProgress completed total failed =>
      exists successes percent remaining,
        show_progress_summary completed total failed
        = Some (successes, percent, remaining) /\
        0 <= successes /\ 0 <= percent <= 100
  | QuickReport completed_sims failed_sims =>
      exists rate,
        generate_quick_report completed_sims failed_sims = Some rate /\
        0 <= rate <= 100
  | _ => True
  end.

End Runner.

(** ** The run directories and the consolidation script

    [run_single_simulation] names the directory of a run after its
    parameters; the Python script that [main] writes at the end
    ([consolidate_results.py]) reads the parameters back from the name
    of the directory that holds a [system_stats_optimized_*cell.csv]
    file.  Shell variables and Python strings are character strings. *)

Module Consolidate.
Import Stdlib.Strings.Ascii stdpp.strings.

(** The directory of one run below [BASE_OUTPUT_DIR]:
    [${num_cells}cell_${scenario_name}_seed${seed}]. *)
Definition output_dir_name (num_cells scenario_name seed : string) : string :=
  num_cells +:+ "cell_" +:+ scenario_name +:+ "_seed" +:+ seed.

(** Python's [str.replace(old, new)]: the occurrences of [old] are
    found from the left and do not overlap; [skip] counts the
    characters of a found occurrence that are still to be passed.  With
    an empty [old], [new] is put before every character and at the
    end. *)
Fixpoint replace_from (old new : string) (skip : nat) (s : string) : string :=
  match s with
  | EmptyString => EmptyString
  | String c rest =>
      match skip with
      | S k => replace_from old new k rest
      | O =>
          if String.prefix old s
          then new +:+ replace_from old new (String.length old - 1) rest
          else String c (replace_from old new 0 rest)
      end
  end.

Fixpoint interleave (new s : string) : string :=
  match s with
  | EmptyString => EmptyString
  | String c rest => String c (new +:+ interleave new rest)
  end.

Definition replace (old new s : string) : string :=
  match old with
  | EmptyString => new +:+ interleave new s
  | _ => replace_from old new 0 s
  end.

(** Python's [str.split(sep)]: [cur] is the piece being read; an empty
    separator raises [ValueError] ([None]). *)
Fixpoint split_from (sep : string) (skip : nat) (cur s : string) : list string :=
  match s with
  | EmptyString => [cur]
  | String c rest =>
      match skip with
      | S k => split_from sep k cur rest
      | O =>
          if String.prefix sep s
          then cur :: split_from sep (String.length sep - 1) EmptyString rest
          else split_from sep 0 (cur +:+ String c EmptyString) rest
      end
  end.

Definition split (sep s : string) : option (list string) :=
  match sep with
  | EmptyString => None
  | _ => Some (split_from sep 0 EmptyString s)
  end.

(** What [consolidate_system_stats] takes from a directory name: the
    three columns it adds to the rows of the file, or nothing when the
    name has fewer than three parts. *)
Inductive DirInfo : Type :=
| Skipped
| Columns (cells scenario seed : string).

Definition dir_info (dir_name : string) : option DirInfo :=
  parts ← split "_" dir_name;
  Some match parts with
       | p0 :: p1 :: p2 :: _ =>
           Columns (replace "cell" "" p0) p1 (replace "seed" "" p2)
       | _ => Skipped
       end.

(** Character classes used below. *)
Fixpoint all_chars (P : Ascii.ascii -> bool) (s : string) : bool :=
  match s with
  | EmptyString => true
  | String c rest => P c && all_chars P rest
  end.

Definition is_digit (c : Ascii.ascii) : bool :=
  let n := Ascii.N_of_ascii c in ((48 <=? n) && (n <=? 57))%N.

Definition not_underscore (c : Ascii.ascii) : bool :=
  negb (Ascii.eqb c "_"%char).

End Consolidate.

(** ** Totals of integer lists *)

Module Tally.

Definition total (counts : list Z) : Z := foldr Z.add 0 counts.

End Tally.

(** ** Views of a callback trace *)

Module Traces.
Import Double Telemetry.

Definition isSinrSample (ev : Event) : bool :=
  match ev with SinrSample _ _ => true | _ => false end.

Definition isHandoverStart (ev : Event) : bool :=
  match ev with HandoverStart _ _ _ => true | _ => false end.

Definition isHandoverSuccess (ev : Event) : bool :=
  match ev with HandoverSuccess _ _ _ => true | _ => false end.

Definition isHandoverFailure (ev : Event) : bool :=
  match ev with HandoverFailure _ _ _ => true | _ => false end.

(** The RSRP and RSRQ values reported for [imsi], oldest first. *)
Definition rsrpOf (imsi : Z) (ev : Event) : option float :=
  match ev with
  | RsrpSample i _ rsrp => if decide (i = imsi) then Some rsrp else None
  | _ => None
  end.

Definition rsrqOf (imsi : Z) (ev : Event) : option float :=
  match ev with
  | RsrqSample i _ rsrq => if decide (i = imsi) then Some rsrq else None
  | _ => None
  end.

(** The number of events of a kind, as the [uint32_t] counter holds it. *)
Definition count32 (kind : Event -> bool) (evs : list Event) : Z :=
  wrap 32 (Z.of_nat (length (filter kind evs))).

(** A running sum in [double], in arrival order. *)
Definition sumFrom (start : float) (values : list float) : float :=
  fold_left (fun acc v => (acc + v)%float) values start.

End Traces.

(** ** More sample inputs *)

Module Scenarios.
Import Double Layout Telemetry CellStats.

(** Two sites 100 m apart. *)
Definition twoSites : list Vector :=
  [mkVector 0 0 25; mkVector 100 0 25].

(** The distance along the x axis, enough to order the sample sites. *)
Definition xDistance (a b : Vector) : float := abs (vx a - vx b).

(** Three sites on a line. *)
Definition threeSites : list Vector :=
  [mkVector 0 0 25; mkVector 100 0 25; mkVector 200 0 25].

(** Constant random streams, and a fixed direction along the x axis in
    place of [cos] and [sin]. *)
Definition expHalf (k : nat) : float := 0.5%float.
Definition uniformLow (k : nat) (min max : float) : float := min.
Definition alongX (angle : float) : float := 1%float.
Definition noY (angle : float) : float := 0%float.

(** Two UEs with their addresses (7.0.0.2 and 7.0.0.3) and IMSIs,
    served by cells 0 and 1. *)
Definition sampleUes : list (Z * Z) := [(117440514, 1); (117440515, 2)].

Definition sampleMaps : Association.AssocMaps :=
  {| Association.g_imsiToCell := {[ 1 := 0; 2 := 1 ]};
     Association.g_imsiDistance := {[ 1 := 10%float; 2 := 40%float ]};
     Association.g_cellUeCount := {[ 0 := 1; 1 := 1 ]} |}.

(** An eMBB flow to UE 1, a flow on another port, and a URLLC flow to
    UE 2; times in nanoseconds. *)
Definition sampleFlows : list (FlowPass.Flow Z) :=
  [FlowPass.mkFlow Z 1 117440514 7000
     (Scoring.mkFlowStats Z 1000 990 1386000 9900000000 990000000
        5000000000 15000000000);
   FlowPass.mkFlow Z 2 16777217 49153
     (Scoring.mkFlowStats Z 10 10 1000 1000000 0 5000000000 6000000000);
   FlowPass.mkFlow Z 3 117440515 7001
     (Scoring.mkFlowStats Z 500 500 50000 500000000 50000000
        5000000000 15000000000)].

(** A short trace of the callbacks for UEs 1 and 2. *)
Definition shortTrace : list Event :=
  [HandoverStart 1 0 1; SinrSample 1 100; RsrpSample 1 0 (-80);
   HandoverSuccess 1 0 1; SinrSample 2 10; RsrqSample 1 0 (-10);
   HandoverStart 2 1 0; HandoverFailure 2 1 0; SinrSample 1 0].

End Scenarios.

(* ===================================================================== *)
(** * Part II: proofs *)
(* ===================================================================== *)

(** ** Facts on binary64 values *)

Module DoubleFacts.
Import Double.

Lemma compare_cont_Z (p q : positive) :
  Pos.compare_cont Eq p q = (Zpos p ?= Zpos q).
Proof. reflexivity. Qed.

Ltac sf_red_in H := cbv beta iota delta [CompOpp] in H.
Ltac sf_red := cbv beta iota delta [CompOpp].

(** Case analysis on every comparison of exponents and mantissas in
    sight; mantissas are compared as integers. *)
Ltac sf_cmp :=
  repeat match goal with
  | H : context [Pos.compare_cont Eq _ _] |- _ => rewrite compare_cont_Z in H
  | |- context [Pos.compare_cont Eq _ _] => rewrite compare_cont_Z
  | H : context [Z.compare ?p ?q] |- _ =>
      destruct (Z.compare_spec p q); sf_red_in H
  | |- context [Z.compare ?p ?q] => destruct (Z.compare_spec p q); sf_red
  end; try congruence; try lia.

Ltac sf_destruct s := destruct s as [[|]|[|]| |[|] ? ?].

Lemma SFltb_irrefl s : SFltb s s = false.
Proof. unfold SFltb, SFcompare. sf_destruct s; simpl; try reflexivity; sf_cmp. Qed.

Lemma SFltb_asym s t : SFltb s t = true -> SFltb t s = false.
Proof.
  unfold SFltb, SFcompare.
  sf_destruct s; sf_destruct t; simpl; try congruence; sf_cmp.
Qed.

Lemma SFltb_trans s t u :
  SFltb s t = true -> SFltb t u = true -> SFltb s u = true.
Proof.
  unfold SFltb, SFcompare.
  sf_destruct s; sf_destruct t; simpl; try congruence;
    sf_destruct u; simpl; try congruence; sf_cmp.
Qed.

Lemma SFltb_leb s t : SFltb s t = true -> SFleb s t = true.
Proof. unfold SFltb, SFleb. destruct (SFcompare s t) as [[| |]|]; congruence. Qed.

Lemma SFleb_ltb_false s t : SFleb s t = true -> SFltb t s = false.
Proof.
  unfold SFltb, SFleb, SFcompare.
  sf_destruct s; sf_destruct t; simpl; try congruence; sf_cmp.
Qed.

Lemma SFleb_trans s t u :
  SFleb s t = true -> SFleb t u = true -> SFleb s u = true.
Proof.
  unfold SFleb, SFcompare.
  sf_destruct s; sf_destruct t; simpl; try congruence;
    sf_destruct u; simpl; try congruence; sf_cmp.
Qed.

Lemma SFleb_ltb_trans s t u :
  SFleb s t = true -> SFltb t u = true -> SFltb s u = true.
Proof.
  unfold SFleb, SFltb, SFcompare.
  sf_destruct s; sf_destruct t; simpl; try congruence;
    sf_destruct u; simpl; try congruence; sf_cmp.
Qed.

Lemma SFltb_leb_refl s t : SFltb s t = true -> SFleb t t = true.
Proof.
  unfold SFleb, SFltb, SFcompare.
  sf_destruct s; sf_destruct t; simpl; try congruence; sf_cmp.
Qed.

(** *** The same facts on primitive floats *)

Lemma ltb_irrefl (x : float) : (x <? x)%float = false.
Proof. rewrite ltb_spec. apply SFltb_irrefl. Qed.

Lemma ltb_asym (x y : float) : (x <? y)%float = true -> (y <? x)%float = false.
Proof. rewrite !ltb_spec. apply SFltb_asym. Qed.

Lemma ltb_trans (x y w : float) :
  (x <? y)%float = true -> (y <? w)%float = true -> (x <? w)%float = true.
Proof. rewrite !ltb_spec. apply SFltb_trans. Qed.

Lemma ltb_leb (x y : float) : (x <? y)%float = true -> (x <=? y)%float = true.
Proof. rewrite ltb_spec, leb_spec. apply SFltb_leb. Qed.

Lemma leb_ltb_false (x y : float) :
  (x <=? y)%float = true -> (y <? x)%float = false.
Proof. rewrite ltb_spec, leb_spec. apply SFleb_ltb_false. Qed.

Lemma leb_trans (x y w : float) :
  (x <=? y)%float = true -> (y <=? w)%float = true -> (x <=? w)%float = true.
Proof. rewrite !leb_spec. apply SFleb_trans. Qed.

Lemma leb_ltb_trans (x y w : float) :
  (x <=? y)%float = true -> (y <? w)%float = true -> (x <? w)%float = true.
Proof. rewrite leb_spec, !ltb_spec. apply SFleb_ltb_trans. Qed.

Lemma ltb_leb_refl (x y : float) :
  (x <? y)%float = true -> (y <=? y)%float = true.
Proof. rewrite leb_spec, ltb_spec. apply SFltb_leb_refl. Qed.

(** *** The clamp [std::max(0.0, std::min(100.0, x))] *)

(** It lands in [0, 100] for every input, NaN and the infinities
    included. *)
Lemma clamp_0_100_range (x : float) :
  (0 <=? std_max 0 (std_min 100 x))%float = true /\
  (std_max 0 (std_min 100 x) <=? 100)%float = true.
Proof.
  unfold std_max, std_min.
  destruct (x <? 100)%float eqn:Hhi.
  - destruct (0 <? x)%float eqn:Hlo.
    + split; now apply ltb_leb.
    + split; reflexivity.
  - change (0 <? 100)%float with true. split; reflexivity.
Qed.

(** A value strictly inside the interval is left alone. *)
Lemma clamp_0_100_inside (x : float) :
  (0 <? x)%float = true -> (x <? 100)%float = true ->
  std_max 0 (std_min 100 x) = x.
Proof. intros H0 H1. unfold std_max, std_min. now rewrite H1, H0. Qed.

(** *** Mantissa size of a normal number *)

Lemma digits2_pos_bounds (m : positive) :
  2 ^ (Zpos (digits2_pos m) - 1) <= Zpos m < 2 ^ Zpos (digits2_pos m).
Proof.
  induction m as [m IH|m IH|]; simpl digits2_pos.
  - rewrite Pos2Z.inj_succ.
    replace (Z.succ (Zpos (digits2_pos m)) - 1)
      with (Z.succ (Zpos (digits2_pos m) - 1)) by lia.
    rewrite !Z.pow_succ_r by lia. lia.
  - rewrite Pos2Z.inj_succ.
    replace (Z.succ (Zpos (digits2_pos m)) - 1)
      with (Z.succ (Zpos (digits2_pos m) - 1)) by lia.
    rewrite !Z.pow_succ_r by lia. lia.
  - simpl. lia.
Qed.

(** A valid finite binary64 value whose exponent is above the subnormal
    range carries a full 53-bit mantissa. *)
Lemma valid_normal_mantissa sg m e :
  valid_binary (S754_finite sg m e) = true -> -1074 < e ->
  2 ^ 52 <= Zpos m < 2 ^ 53.
Proof.
  unfold SpecFloat.valid_binary, bounded, canonical_mantissa, fexp, SpecFloat.emin.
  intros Hv He. apply andb_prop in Hv as [Hc _]. apply Z.eqb_eq in Hc.
  change (3 - emax - prec) with (-1074) in Hc. change prec with 53 in Hc.
  assert (Hd : Zpos (digits2_pos m) = 53) by lia.
  pose proof (digits2_pos_bounds m) as Hb. rewrite Hd in Hb. exact Hb.
Qed.

(** *** Integers as doubles *)

Lemma Prim2SF_Z_to_double (z : Z) :
  0 <= z < 2 ^ 63 ->
  Prim2SF (Z_to_double z) = binary_normalize prec emax z 0 false.
Proof.
  intros Hz. unfold Z_to_double.
  pose proof (of_uint63_spec (Uint63.of_Z z)) as E.
  rewrite Uint63.of_Z_spec in E.
  rewrite Z.mod_small in E by (change Uint63.wB with (2 ^ 63); lia).
  rewrite <- E at 1. rewrite SF2Prim_Prim2SF. exact E.
Qed.

(** *** Signs *)

Lemma binary_round_aux_sign sx mx ex lx :
  sign_is sx (binary_round_aux prec emax sx mx ex lx).
Proof.
  unfold binary_round_aux.
  destruct (shr_fexp prec emax mx ex lx) as [mrs' e'].
  destruct (shr_fexp prec emax _ e' loc_Exact) as [mrs'' e''].
  destruct (shr_m mrs''); [reflexivity | | exact I].
  destruct (e'' <=? emax - prec); reflexivity.
Qed.

Lemma binary_normalize_sign (z : Z) :
  0 <= z -> sign_is false (binary_normalize prec emax z 0 false).
Proof.
  intros Hz. destruct z as [|p|p]; [reflexivity | | lia].
  unfold binary_normalize, binary_round.
  destruct (shl_align p 0 _) as [mz ez]. apply binary_round_aux_sign.
Qed.

(** The product of a value that is not below zero with a value of
    positive sign is never a negative number. *)
Lemma SFmul_not_negative s t :
  SFleb (S754_zero false) s = true -> sign_is false t ->
  not_negative (SF64mul s t).
Proof.
  unfold SF64mul, SFmul, SFleb, SFcompare.
  destruct s as [sg|[|]| |[|] ms es]; try discriminate; intros _ Ht;
    destruct t as [sg'|sg'| |sg' mt et]; simpl in Ht; subst; try exact I.
  pose proof (binary_round_aux_sign (xorb false false) (Zpos (ms * mt)) (es + et) loc_Exact) as Hs.
  destruct (binary_round_aux prec emax (xorb false false) _ _ _) as [?|?| |[|] ? ?];
    try exact I. simpl in Hs. discriminate.
Qed.

Lemma SFfloor_trunc s : not_negative s -> SFfloor s = SFtrunc s.
Proof. destruct s as [?|?| |[|] m e]; simpl; intros H; [..|destruct H|]; reflexivity. Qed.

(** *** A finite positive value divided by itself *)

Lemma finite_positive_shape (x : float) :
  finite_positive x = true -> exists m e, Prim2SF x = S754_finite false m e.
Proof.
  unfold finite_positive. intros H. apply andb_prop in H as [H0 Hi].
  rewrite ltb_spec in H0, Hi.
  change (Prim2SF 0) with (S754_zero false) in H0.
  change (Prim2SF infinity) with (S754_infinity false) in Hi.
  destruct (Prim2SF x) as [sg|[|]| |[|] m e]; try discriminate.
  now exists m, e.
Qed.

Lemma Z_div_eucl_mul (a b : Z) : 0 < b -> Z.div_eucl (b * a) b = (a, 0).
Proof.
  intros Hb.
  assert (E : Z.div_eucl (b * a) b = ((b * a) / b, (b * a) mod b))
    by (unfold Z.div, Z.modulo; destruct (Z.div_eucl (b * a) b); reflexivity).
  rewrite E, (Z.mul_comm b a), Z.div_mul, Z.mod_mul by lia. reflexivity.
Qed.

Lemma SFdiv_self sg m e :
  SF64div (S754_finite sg m e) (S754_finite sg m e)
  = S754_finite false 4503599627370496 (-52).
Proof.
  unfold SF64div, SFdiv, SFdiv_core_binary.
  replace (Zdigits2 (Zpos m) + e - (Zdigits2 (Zpos m) + e)) with 0 by lia.
  replace (e - e) with 0 by lia.
  change (Z.min (fexp prec emax 0) 0) with (-53).
  change (0 - -53) with 53.
  cbv beta iota zeta.
  rewrite Z.shiftl_mul_pow2 by lia.
  rewrite (Z_div_eucl_mul (2 ^ 53) (Zpos m)) by lia.
  replace (new_location (Zpos m) 0) with loc_Exact
    by (unfold new_location, new_location_even, new_location_odd;
        destruct (Z.even (Zpos m)); reflexivity).
  replace (xorb sg sg) with false by (destruct sg; reflexivity).
  vm_compute. reflexivity.
Qed.

Lemma div_self (x : float) : finite_positive x = true -> (x / x)%float = 1%float.
Proof.
  intros H. destruct (finite_positive_shape x H) as (m & e & E).
  apply Prim2SF_inj. rewrite div_spec, E, SFdiv_self. reflexivity.
Qed.

(** *** Rounding of an exact mantissa *)

Lemma iter_pos_nat {A} (f : A -> A) (p : positive) :
  forall x, SpecFloat.iter_pos f p x = Nat.iter (Pos.to_nat p) f x.
Proof.
  induction p as [p IH|p IH|]; intros x; cbn [SpecFloat.iter_pos].
  - rewrite !IH, Pos2Nat.inj_xI. cbn [Nat.iter Nat.mul].
    rewrite Nat.add_0_r, <- Nat.iter_add, Nat.iter_succ_r. reflexivity.
  - rewrite !IH, Pos2Nat.inj_xO. cbn [Nat.mul].
    rewrite Nat.add_0_r, <- Nat.iter_add. reflexivity.
  - reflexivity.
Qed.

Lemma shr_1_spec (m : Z) (r s : bool) :
  0 <= m ->
  shr_1 (Build_shr_record m r s) = Build_shr_record (m / 2) (Z.odd m) (r || s).
Proof.
  intros Hm. destruct m as [|[p|p|]|p]; try lia; cbn [shr_1].
  - reflexivity.
  - f_equal. rewrite Pos2Z.inj_xI. apply (Z.div_unique _ _ _ 1); lia.
  - f_equal. rewrite Pos2Z.inj_xO. apply (Z.div_unique _ _ _ 0); lia.
  - reflexivity.
Qed.

Lemma mod_pow2_succ (m a : Z) :
  0 <= m -> 0 < a ->
  (m mod (2 * a) = 0 <-> Z.odd (m / a) = false /\ m mod a = 0).
Proof.
  intros Hm Ha.
  pose proof (Z.div_mod m a ltac:(lia)) as E.
  pose proof (Z.mod_pos_bound m a Ha) as Hr.
  set (q := m / a) in *. set (r0 := m mod a) in *.
  pose proof (Zdiv2_odd_eqn q) as Eq. 
  destruct (Z.odd q) eqn:Ho.
  - split; [|intros [? _]; discriminate].
    intros H. exfalso.
    assert (m mod (2 * a) = a + r0).
    { symmetry. apply (Z.mod_unique _ _ (Z.div2 q)); nia. }
    lia.
  - split.
    + intros H. split; [reflexivity|].
      assert (m mod (2 * a) = r0).
      { symmetry. apply (Z.mod_unique _ _ (Z.div2 q)); nia. }
      lia.
    + intros [_ H0]. symmetry. apply (Z.mod_unique _ _ (Z.div2 q)); nia.
Qed.

Lemma iter_shr_1 (k : nat) (m : Z) :
  0 <= m ->
  let mrs := Nat.iter k shr_1 (Build_shr_record m false false) in
  shr_m mrs = m / 2 ^ Z.of_nat k /\
  (shr_r mrs || shr_s mrs = false <-> m mod 2 ^ Z.of_nat k = 0).
Proof.
  intros Hm. induction k as [|k IH]; cbv zeta.
  - cbn [Nat.iter shr_m shr_r shr_s orb]. change (2 ^ Z.of_nat 0) with 1.
    rewrite Z.div_1_r, Z.mod_1_r. tauto.
  - rewrite Nat.iter_succ. cbv zeta in IH. destruct IH as [IHm IHl].
    destruct (Nat.iter k shr_1 _) as [mk rk sk]. cbn [shr_m shr_r shr_s] in *.
    assert (Hp : 0 < 2 ^ Z.of_nat k) by (apply Z.pow_pos_nonneg; lia).
    assert (Hmk : 0 <= mk) by (subst mk; apply Z.div_pos; lia).
    rewrite shr_1_spec by exact Hmk. cbn [shr_m shr_r shr_s].
    rewrite Nat2Z.inj_succ, Z.pow_succ_r by lia.
    split.
    + subst mk. rewrite Z.div_div by lia. f_equal. lia.
    + rewrite (mod_pow2_succ m (2 ^ Z.of_nat k)) by lia.
      rewrite <- IHm, <- IHl. rewrite orb_false_iff. tauto.
Qed.

Lemma loc_exact_iff (mrs : shr_record) :
  loc_of_shr_record mrs = loc_Exact <-> shr_r mrs || shr_s mrs = false.
Proof. destruct mrs as [m [|] [|]]; cbn; split; congruence. Qed.

Lemma shr_exact (m e n : Z) :
  0 <= m ->
  let res := shr (Build_shr_record m false false) e n in
  shr_m (fst res) = m / 2 ^ Z.max 0 n /\
  snd res = e + Z.max 0 n /\
  (loc_of_shr_record (fst res) = loc_Exact <-> m mod 2 ^ Z.max 0 n = 0).
Proof.
  intros Hm. cbv zeta. rewrite loc_exact_iff.
  destruct n as [|p|p]; cbn [shr fst snd].
  - change (Z.max 0 0) with 0. change (2 ^ 0) with 1.
    cbn [shr_m shr_r shr_s orb]. rewrite Z.div_1_r, Z.mod_1_r, Z.add_0_r. tauto.
  - replace (Z.max 0 (Zpos p)) with (Zpos p) by lia.
    rewrite iter_pos_nat.
    pose proof (iter_shr_1 (Pos.to_nat p) m Hm) as H. cbv zeta in H.
    rewrite positive_nat_Z in H. tauto.
  - replace (Z.max 0 (Zneg p)) with 0 by lia. change (2 ^ 0) with 1.
    cbn [shr_m shr_r shr_s orb]. rewrite Z.div_1_r, Z.mod_1_r, Z.add_0_r. tauto.
Qed.

Lemma round_nearest_even_cases (mx : Z) (lx : location) :
  round_nearest_even mx lx = mx \/
  (round_nearest_even mx lx = mx + 1 /\ lx <> loc_Exact).
Proof.
  destruct lx as [|[| |]]; cbn [round_nearest_even]; try (now left).
  - destruct (Z.even mx); [now left | right; split; [reflexivity | discriminate]].
  - right; split; [reflexivity | discriminate].
Qed.

(** The rounding of an exact positive integer mantissa: the mantissa is
    shifted right by [n] places, possibly incremented when bits were
    lost, and shifted again by [n'] places. *)
Lemma binary_round_aux_exact_shape (sx : bool) (mx ex : Z) :
  0 < mx ->
  exists n n' mr,
    n = Z.max 0 (fexp prec emax (Zdigits2 mx + ex) - ex) /\
    n' = Z.max 0 (fexp prec emax (Zdigits2 mr + (ex + n)) - (ex + n)) /\
    (mr = mx / 2 ^ n \/ (mr = mx / 2 ^ n + 1 /\ mx mod 2 ^ n <> 0)) /\
    binary_round_aux prec emax sx mx ex loc_Exact =
    match mr / 2 ^ n' with
    | 0 => S754_zero sx
    | Zpos m =>
        if ex + n + n' <=? emax - prec
        then S754_finite sx m (ex + n + n') else S754_infinity sx
    | Zneg _ => S754_nan
    end.
Proof.
  intros Hmx. unfold binary_round_aux, shr_fexp.
  change (shr_record_of_loc mx loc_Exact) with (Build_shr_record mx false false).
  set (n1 := fexp prec emax (Zdigits2 mx + ex) - ex).
  pose proof (shr_exact mx ex n1 ltac:(lia)) as (Hm1 & He1 & Hl1). cbv zeta in Hm1, He1, Hl1.
  destruct (shr (Build_shr_record mx false false) ex n1) as [mrs1 e1].
  cbn [fst snd] in Hm1, He1, Hl1.
  set (mr := round_nearest_even (shr_m mrs1) (loc_of_shr_record mrs1)).
  change (shr_record_of_loc mr loc_Exact) with (Build_shr_record mr false false).
  set (n2 := fexp prec emax (Zdigits2 mr + e1) - e1).
  assert (Hp : 0 < 2 ^ Z.max 0 n1) by (apply Z.pow_pos_nonneg; lia).
  assert (Hq : 0 <= mx / 2 ^ Z.max 0 n1) by (apply Z.div_pos; lia).
  assert (Hmr : mr = mx / 2 ^ Z.max 0 n1 \/
                (mr = mx / 2 ^ Z.max 0 n1 + 1 /\ mx mod 2 ^ Z.max 0 n1 <> 0)).
  { destruct (round_nearest_even_cases (shr_m mrs1) (loc_of_shr_record mrs1))
      as [E | [E Hne]]; fold mr in E; rewrite Hm1 in E; [now left | right].
    split; [exact E | tauto]. }
  pose proof (shr_exact mr e1 n2 ltac:(lia)) as (Hm2 & He2 & _). cbv zeta in Hm2, He2.
  destruct (shr (Build_shr_record mr false false) e1 n2) as [mrs2 e2].
  cbn [fst snd] in Hm2, He2.
  exists (Z.max 0 n1), (Z.max 0 n2), mr.
  split; [reflexivity | split; [subst n2 e1; reflexivity | split; [exact Hmr|]]].
  rewrite Hm2, He2, He1. reflexivity.
Qed.

Lemma digits2_pos_unique (m : positive) (d : Z) :
  2 ^ (d - 1) <= Zpos m < 2 ^ d -> Zpos (digits2_pos m) = d.
Proof.
  intros [Hlo Hhi]. pose proof (digits2_pos_bounds m) as [Blo Bhi].
  set (c := Zpos (digits2_pos m)) in *.
  assert (Hc : 0 < c) by (subst c; lia).
  assert (Hd : 0 < d).
  { destruct (Z.lt_ge_cases 0 d) as [?|Hn]; [assumption|].
    destruct (Z.eq_dec d 0) as [->|?]; [change (2 ^ 0) with 1 in Hhi; lia|].
    rewrite Z.pow_neg_r in Hhi by lia. lia. }
  destruct (Z.lt_trichotomy c d) as [Hlt | [Heq | Hgt]]; [|exact Heq|].
  - assert (2 ^ c <= 2 ^ (d - 1)) by (apply Z.pow_le_mono_r; lia). lia.
  - assert (2 ^ d <= 2 ^ (c - 1)) by (apply Z.pow_le_mono_r; lia). lia.
Qed.

Lemma fexp_binary64 (x : Z) : fexp prec emax x = Z.max (x - 53) (-1074).
Proof. reflexivity. Qed.

Lemma Zpos_iter_xO (m d : positive) :
  Zpos (Pos.iter xO m d) = Zpos m * 2 ^ Zpos d.
Proof.
  rewrite (Pos.iter_swap_gen _ _ Zpos xO (Z.mul 2)) by reflexivity.
  rewrite <- Z.shiftl_mul_pow2 by lia. reflexivity.
Qed.

(** A positive integer below 2^53 converts exactly: the mantissa is the
    integer shifted to 53 bits. *)
Lemma binary_normalize_exact (N : Z) :
  0 < N < 2 ^ 53 ->
  exists (m : positive) (s : Z),
    0 <= s <= 52 /\ Zpos m = N * 2 ^ s /\ 2 ^ 52 <= Zpos m < 2 ^ 53 /\
    binary_normalize prec emax N 0 false = S754_finite false m (- s).
Proof.
  intros [H0 H53]. destruct N as [|p|p]; try lia.
  pose proof (digits2_pos_bounds p) as [Blo Bhi].
  set (d := Zpos (digits2_pos p)) in *.
  assert (Hd : 1 <= d <= 53).
  { split; [subst d; lia|].
    destruct (Z.le_gt_cases d 53) as [?|Hgt]; [assumption|].
    assert (2 ^ 53 <= 2 ^ (d - 1)) by (apply Z.pow_le_mono_r; lia). lia. }
  cbn [binary_normalize]. unfold binary_round.
  fold d. rewrite Z.add_0_r, fexp_binary64.
  replace (Z.max (d - 53) (-1074)) with (d - 53) by lia.
  assert (Hmz : exists mz, shl_align p 0 (d - 53) = (mz, d - 53) /\
                           Zpos mz = Zpos p * 2 ^ (53 - d)).
  { unfold shl_align. rewrite Z.sub_0_r.
    destruct (d - 53) as [|q|q] eqn:Eq; try lia.
    - exists p. split; [reflexivity|]. replace (53 - d) with 0 by lia. lia.
    - exists (Pos.iter xO p q). split; [reflexivity|].
      rewrite Zpos_iter_xO. f_equal. f_equal. lia. }
  destruct Hmz as (mz & -> & Emz). cbv beta iota.
  assert (Hpow : 2 ^ (d - 1) * 2 ^ (53 - d) = 2 ^ 52 /\ 2 ^ d * 2 ^ (53 - d) = 2 ^ 53).
  { rewrite <- !Z.pow_add_r by lia. split; f_equal; lia. }
  assert (Hp : 0 < 2 ^ (53 - d)) by (apply Z.pow_pos_nonneg; lia).
  assert (Bmz : 2 ^ 52 <= Zpos mz < 2 ^ 53) by (rewrite Emz; nia).
  exists mz, (53 - d).
  split; [lia | split; [exact Emz | split; [exact Bmz|]]].
  replace (d - 53) with (- (53 - d)) by lia. set (s := 53 - d) in *.
  destruct (binary_round_aux_exact_shape false (Zpos mz) (- s) ltac:(lia))
    as (n & n' & mr & Hn & Hn' & Hmr & ->).
  assert (Dmz : Zdigits2 (Zpos mz) = 53)
    by (cbn [Zdigits2]; apply digits2_pos_unique; exact Bmz).
  rewrite Dmz, fexp_binary64 in Hn.
  assert (En : n = 0) by lia. clear Hn. subst n.
  change (2 ^ 0) with 1 in Hmr. rewrite Z.div_1_r, Z.mod_1_r in Hmr.
  destruct Hmr as [-> | [_ Hne]]; [|congruence].
  rewrite Dmz, fexp_binary64 in Hn'.
  assert (En' : n' = 0) by lia. clear Hn'. subst n'.
  change (2 ^ 0) with 1. rewrite Z.div_1_r, !Z.add_0_r.
  replace (- s <=? emax - prec) with true
    by (symmetry; apply Z.leb_le; change (emax - prec) with 971; lia).
  reflexivity.
Qed.

Lemma shiftl_sub (a p q : Z) :
  0 <= p -> 0 <= q -> Z.shiftl a (p - q) = a * 2 ^ p / 2 ^ q.
Proof.
  intros Hp Hq. destruct (Z.le_gt_cases q p) as [Hle|Hgt].
  - rewrite Z.shiftl_mul_pow2 by lia.
    replace p with ((p - q) + q) at 2 by lia. rewrite Z.pow_add_r by lia.
    rewrite Z.mul_assoc, Z.div_mul; [reflexivity | apply Z.pow_nonzero; lia].
  - rewrite Z.shiftl_div_pow2 by lia.
    replace q with (p + (q - p)) at 2 by lia. rewrite Z.pow_add_r by lia.
    rewrite (Z.mul_comm a), Z.div_mul_cancel_l by (apply Z.pow_nonzero; lia).
    f_equal. f_equal. lia.
Qed.

Lemma valid_mantissa_lt sg m e :
  valid_binary (S754_finite sg m e) = true -> Zpos m < 2 ^ 53.
Proof.
  unfold SpecFloat.valid_binary, bounded, canonical_mantissa.
  intros Hv. apply andb_prop in Hv as [Hc _]. apply Z.eqb_eq in Hc.
  rewrite fexp_binary64 in Hc.
  pose proof (digits2_pos_bounds m) as [_ Hb].
  assert (2 ^ Zpos (digits2_pos m) <= 2 ^ 53) by (apply Z.pow_le_mono_r; lia).
  lia.
Qed.

(** The double product of a ratio in [0, 1] and a count below 2^32
    truncates to an integer between 0 and the count. *)
Lemma SFmul_ratio_le (sr : spec_float) (N : Z) :
  valid_binary sr = true ->
  SFleb (S754_zero false) sr = true ->
  SFleb sr (S754_finite false 4503599627370496 (-52)) = true ->
  0 <= N < 2 ^ 32 ->
  exists k,
    SFtrunc (SF64mul sr (binary_normalize prec emax N 0 false)) = Some k /\
    0 <= k <= N.
Proof.
  intros Hv H0 H1 HN.
  assert (H32 : 2 ^ 32 < 2 ^ 53) by (apply Z.pow_lt_mono_r; lia).
  destruct (Z.eq_dec N 0) as [->|HN0].
  { cbn [binary_normalize].
    destruct sr as [sg|[|]| |[|] m e];
      cbv beta iota delta [SFleb SFcompare] in H0, H1; try discriminate;
      (exists 0; split; [reflexivity | lia]). }
  destruct (binary_normalize_exact N ltac:(lia)) as (mN & s & Hs & EmN & BmN & ->).
  destruct sr as [sg|[|]| |[|] m e];
    cbv beta iota delta [SFleb SFcompare] in H0, H1; try discriminate;
    [exists 0; split; [reflexivity | lia] |].
  clear H0.
  assert (He : e < -52 \/ (e = -52 /\ Zpos m <= 4503599627370496)) by sf_cmp.
  clear H1.
  pose proof (valid_mantissa_lt _ _ _ Hv) as Hm53.
  assert (HmE : Zpos m <= 2 ^ (- e)).
  { destruct He as [He | [-> Hm]]; [|exact Hm].
    assert (2 ^ 53 <= 2 ^ (- e)) by (apply Z.pow_le_mono_r; lia). lia. }
  unfold SF64mul, SFmul. cbn [xorb].
  destruct (binary_round_aux_exact_shape false (Zpos (m * mN)) (e + - s) ltac:(lia))
    as (n & n' & mr & Hn & Hn' & Hmr & ->).
  assert (Hn'0 : 0 <= n') by lia. clear Hn'.
  rewrite fexp_binary64 in Hn.
  set (mx := Zpos (m * mN)) in *.
  assert (Emx : mx = Zpos m * Zpos mN) by (subst mx; apply Pos2Z.inj_mul).
  assert (HpE : 0 < 2 ^ (- e)) by (apply Z.pow_pos_nonneg; lia).
  assert (Hmx : mx <= Zpos mN * 2 ^ (- e)) by (rewrite Emx; nia).
  assert (HD : Zdigits2 mx <= - e + 53).
  { subst mx. cbn [Zdigits2].
    pose proof (digits2_pos_bounds (m * mN)) as [Blo _].
    assert (Hlt : 2 ^ (Zpos (digits2_pos (m * mN)) - 1) < 2 ^ (53 - e)).
    { rewrite Z.pow_add_r with (b := 53) (c := - e) by lia. nia. }
    apply Z.pow_lt_mono_r_iff in Hlt; lia. }
  set (K := - (e + - s + n)).
  assert (HK : 0 <= s <= K /\ 0 <= n) by (subst K; lia).
  assert (Hj : 2 ^ n * (N * 2 ^ K) = Zpos mN * 2 ^ (- e)).
  { rewrite EmN. replace (- e) with ((K + n) - s) by (subst K; lia).
    rewrite (Z.mul_comm (2 ^ n)), <- !Z.mul_assoc, <- !Z.pow_add_r by lia.
    f_equal. f_equal. lia. }
  assert (Hpn : 0 < 2 ^ n) by (apply Z.pow_pos_nonneg; lia).
  assert (HpK : 0 < 2 ^ K) by (apply Z.pow_pos_nonneg; lia).
  assert (Hm1 : mx / 2 ^ n <= N * 2 ^ K)
    by (apply Z.div_le_upper_bound; lia).
  assert (Hm1_0 : 0 <= mx / 2 ^ n) by (apply Z.div_pos; lia).
  assert (Hmr_le : 0 <= mr <= N * 2 ^ K).
  { destruct Hmr as [-> | [-> Hne]]; [lia|].
    pose proof (Z.div_mod mx (2 ^ n) ltac:(lia)) as Edm.
    pose proof (Z.mod_pos_bound mx (2 ^ n) Hpn) as Hr.
    assert (2 ^ n * (mx / 2 ^ n) < 2 ^ n * (N * 2 ^ K)) by lia.
    assert (mx / 2 ^ n < N * 2 ^ K) by (apply (Z.mul_lt_mono_pos_l (2 ^ n)); lia).
    lia. }
  set (e2 := e + - s + n + n').
  assert (Hpn' : 0 < 2 ^ n') by (apply Z.pow_pos_nonneg; lia).
  pose proof (Z.mul_div_le mr (2 ^ n') Hpn') as Hm2.
  assert (Hm2_0 : 0 <= mr / 2 ^ n') by (apply Z.div_pos; lia).
  destruct (mr / 2 ^ n') as [|p|p] eqn:Em2; [exists 0; split; [reflexivity | lia] | | lia].
  assert (Hn'K : n' < 32 + K).
  { assert (Hlt : 2 ^ n' < 2 ^ (32 + K)).
    { rewrite Z.pow_add_r by lia. nia. }
    apply Z.pow_lt_mono_r_iff in Hlt; lia. }
  replace (e2 <=? emax - prec) with true
    by (symmetry; apply Z.leb_le; change (emax - prec) with 971; subst e2 K; lia).
  cbn [SFtrunc cond_Zopp].
  replace e2 with (n' - K) by (subst e2 K; lia).
  rewrite shiftl_sub by lia.
  exists (Zpos p * 2 ^ n' / 2 ^ K). split; [reflexivity|]. split.
  - apply Z.div_pos; lia.
  - apply Z.div_le_upper_bound; [lia|]. nia.
Qed.

(** *** Rounding of any mantissa *)

Lemma iter_shr_1_m (k : nat) (m : Z) (r s : bool) :
  0 <= m ->
  shr_m (Nat.iter k shr_1 (Build_shr_record m r s)) = m / 2 ^ Z.of_nat k.
Proof.
  intros Hm. induction k as [|k IH].
  - cbn [Nat.iter shr_m]. change (2 ^ Z.of_nat 0) with 1. now rewrite Z.div_1_r.
  - rewrite Nat.iter_succ.
    destruct (Nat.iter k shr_1 _) as [mk rk sk]. cbn [shr_m] in IH.
    assert (Hp : 0 < 2 ^ Z.of_nat k) by (apply Z.pow_pos_nonneg; lia).
    assert (Hmk : 0 <= mk) by (subst mk; apply Z.div_pos; lia).
    rewrite shr_1_spec by exact Hmk. cbn [shr_m].
    rewrite Nat2Z.inj_succ, Z.pow_succ_r by lia.
    subst mk. rewrite Z.div_div by lia. f_equal. lia.
Qed.

Lemma shr_m_div (m e n : Z) (l : location) :
  0 <= m ->
  let res := shr (shr_record_of_loc m l) e n in
  shr_m (fst res) = m / 2 ^ Z.max 0 n /\ snd res = e + Z.max 0 n.
Proof.
  intros Hm. cbv zeta.
  assert (Hl : exists r s, shr_record_of_loc m l = Build_shr_record m r s)
    by (destruct l as [|[| |]]; cbn; eauto).
  destruct Hl as (r & s & ->).
  destruct n as [|p|p]; cbn [shr fst snd].
  - change (Z.max 0 0) with 0. change (2 ^ 0) with 1.
    cbn [shr_m]. rewrite Z.div_1_r, Z.add_0_r. tauto.
  - replace (Z.max 0 (Zpos p)) with (Zpos p) by lia.
    rewrite iter_pos_nat, iter_shr_1_m, positive_nat_Z by exact Hm. tauto.
  - replace (Z.max 0 (Zneg p)) with 0 by lia. change (2 ^ 0) with 1.
    cbn [shr_m]. rewrite Z.div_1_r, Z.add_0_r. tauto.
Qed.

(** The rounding of a positive mantissa with any location: shifted right
    by [n] places, possibly incremented, shifted again by [n'] places. *)
Lemma binary_round_aux_shape (sx : bool) (mx ex : Z) (lx : location) :
  0 < mx ->
  exists n n' mr,
    n = Z.max 0 (fexp prec emax (Zdigits2 mx + ex) - ex) /\
    n' = Z.max 0 (fexp prec emax (Zdigits2 mr + (ex + n)) - (ex + n)) /\
    (mr = mx / 2 ^ n \/ mr = mx / 2 ^ n + 1) /\
    binary_round_aux prec emax sx mx ex lx =
    match mr / 2 ^ n' with
    | 0 => S754_zero sx
    | Zpos m =>
        if ex + n + n' <=? emax - prec
        then S754_finite sx m (ex + n + n') else S754_infinity sx
    | Zneg _ => S754_nan
    end.
Proof.
  intros Hmx. unfold binary_round_aux, shr_fexp.
  set (n1 := fexp prec emax (Zdigits2 mx + ex) - ex).
  pose proof (shr_m_div mx ex n1 lx ltac:(lia)) as (Hm1 & He1). cbv zeta in Hm1, He1.
  destruct (shr (shr_record_of_loc mx lx) ex n1) as [mrs1 e1].
  cbn [fst snd] in Hm1, He1.
  set (mr := round_nearest_even (shr_m mrs1) (loc_of_shr_record mrs1)).
  set (n2 := fexp prec emax (Zdigits2 mr + e1) - e1).
  assert (Hp : 0 < 2 ^ Z.max 0 n1) by (apply Z.pow_pos_nonneg; lia).
  assert (Hq : 0 <= mx / 2 ^ Z.max 0 n1) by (apply Z.div_pos; lia).
  assert (Hmr : mr = mx / 2 ^ Z.max 0 n1 \/ mr = mx / 2 ^ Z.max 0 n1 + 1).
  { destruct (round_nearest_even_cases (shr_m mrs1) (loc_of_shr_record mrs1))
      as [E | [E _]]; fold mr in E; rewrite Hm1 in E; [now left | now right]. }
  pose proof (shr_m_div mr e1 n2 loc_Exact ltac:(lia)) as (Hm2 & He2).
  cbv zeta in Hm2, He2.
  destruct (shr (shr_record_of_loc mr loc_Exact) e1 n2) as [mrs2 e2].
  cbn [fst snd] in Hm2, He2.
  exists (Z.max 0 n1), (Z.max 0 n2), mr.
  split; [reflexivity | split; [subst n2 e1; reflexivity | split; [exact Hmr|]]].
  rewrite Hm2, He2, He1. reflexivity.
Qed.

(** *** Exact products of integers *)

Lemma SFmul_exact_int (x y : Z) :
  0 < x -> 0 < y -> x * y < 2 ^ 53 ->
  SF64mul (binary_normalize prec emax x 0 false)
          (binary_normalize prec emax y 0 false)
  = binary_normalize prec emax (x * y) 0 false.
Proof.
  intros Hx Hy Hxy.
  assert (Hx53 : x < 2 ^ 53) by nia.
  assert (Hy53 : y < 2 ^ 53) by nia.
  destruct (binary_normalize_exact x ltac:(lia)) as (mx & sx & Hsx & Emx & Bmx & ->).
  destruct (binary_normalize_exact y ltac:(lia)) as (my & sy & Hsy & Emy & Bmy & ->).
  destruct (binary_normalize_exact (x * y) ltac:(lia)) as (mp & sp & Hsp & Emp & Bmp & ->).
  unfold SF64mul, SFmul. cbn [xorb].
  assert (Hpsx : 0 < 2 ^ sx) by (apply Z.pow_pos_nonneg; lia).
  assert (Hpsy : 0 < 2 ^ sy) by (apply Z.pow_pos_nonneg; lia).
  assert (Hpsp : 0 < 2 ^ sp) by (apply Z.pow_pos_nonneg; lia).
  assert (Eprod : Zpos (mx * my) * 2 ^ sp = Zpos mp * 2 ^ (sx + sy)).
  { rewrite Pos2Z.inj_mul, Emx, Emy, Emp, Z.pow_add_r by lia. ring. }
  assert (Ht : sp <= sx + sy).
  { destruct (Z.le_gt_cases sp (sx + sy)) as [?|Hgt]; [assumption | exfalso].
    assert (E : Zpos mp = Zpos (mx * my) * 2 ^ (sp - (sx + sy))).
    { apply (Z.mul_cancel_r _ _ (2 ^ (sx + sy)));
        [apply Z.pow_nonzero; lia|].
      rewrite <- Eprod, <- Z.mul_assoc, <- Z.pow_add_r by lia.
      f_equal. f_equal. lia. }
    assert (1 <= 2 ^ (sp - (sx + sy))) by (apply Z.lt_pred_le, Z.pow_pos_nonneg; lia).
    assert (2 ^ 52 * 2 ^ 52 <= Zpos (mx * my)) by (rewrite Pos2Z.inj_mul; nia).
    assert (2 ^ 53 < 2 ^ 52 * 2 ^ 52) by (rewrite <- Z.pow_add_r by lia; apply Z.pow_lt_mono_r; lia).
    nia. }
  set (t := sx + sy - sp).
  assert (Et : Zpos (mx * my) = Zpos mp * 2 ^ t).
  { apply (Z.mul_cancel_r _ _ (2 ^ sp)); [apply Z.pow_nonzero; lia|].
    rewrite Eprod, <- Z.mul_assoc, <- Z.pow_add_r by (subst t; lia).
    f_equal. f_equal. subst t. lia. }
  assert (Hpt : 0 < 2 ^ t) by (apply Z.pow_pos_nonneg; subst t; lia).
  assert (HD : Zdigits2 (Zpos (mx * my)) = 53 + t).
  { cbn [Zdigits2]. apply digits2_pos_unique. rewrite Et.
    replace (53 + t - 1) with (52 + t) by lia.
    rewrite !Z.pow_add_r by (subst t; lia). nia. }
  destruct (binary_round_aux_exact_shape false (Zpos (mx * my)) (- sx + - sy) ltac:(lia))
    as (n & n' & mr & Hn & Hn' & Hmr & ->).
  rewrite HD, fexp_binary64 in Hn.
  assert (En : n = t) by (subst t; lia). clear Hn. subst n.
  rewrite Et, Z.div_mul, Z.mod_mul in Hmr by lia.
  destruct Hmr as [-> | [_ Hne]]; [|congruence].
  assert (Dmp : Zdigits2 (Zpos mp) = 53)
    by (cbn [Zdigits2]; apply digits2_pos_unique; exact Bmp).
  rewrite Dmp, fexp_binary64 in Hn'.
  assert (En' : n' = 0) by (subst t; lia). clear Hn'. subst n'.
  change (2 ^ 0) with 1. rewrite Z.div_1_r, Z.add_0_r.
  replace (- sx + - sy + t) with (- sp) by (subst t; lia).
  replace (- sp <=? emax - prec) with true
    by (symmetry; apply Z.leb_le; change (emax - prec) with 971; lia).
  reflexivity.
Qed.


(** *** A quotient of integers above 100 *)

Lemma Zdigits2_bounds (q : Z) :
  0 < q -> 2 ^ (Zdigits2 q - 1) <= q < 2 ^ Zdigits2 q.
Proof.
  intros Hq. destruct q as [|p|p]; try lia. cbn [Zdigits2]. apply digits2_pos_bounds.
Qed.

(** With [100 * (T + 1) <= A] the double quotient [A / T] of two integers
    compares above 100. *)
Lemma SFdiv_int_above_100 (A T : Z) :
  0 < T < 2 ^ 32 -> 100 * (T + 1) <= A < 2 ^ 53 ->
  SFltb (S754_finite false 7036874417766400 (-46))
        (SF64div (binary_normalize prec emax A 0 false)
                 (binary_normalize prec emax T 0 false)) = true.
Proof.
  intros HT HA.
  assert (H32 : 2 ^ 32 < 2 ^ 53) by (apply Z.pow_lt_mono_r; lia).
  destruct (binary_normalize_exact A ltac:(lia)) as (mA & sA & HsA & EmA & BmA & ->).
  destruct (binary_normalize_exact T ltac:(lia)) as (mT & sT & HsT & EmT & BmT & ->).
  unfold SF64div, SFdiv, SFdiv_core_binary. cbn [xorb].
  assert (DA : Zdigits2 (Zpos mA) = 53)
    by (cbn [Zdigits2]; apply digits2_pos_unique; exact BmA).
  assert (DT : Zdigits2 (Zpos mT) = 53)
    by (cbn [Zdigits2]; apply digits2_pos_unique; exact BmT).
  rewrite DA, DT, fexp_binary64.
  replace (Z.min (Z.max (53 + - sA - (53 + - sT) - 53) (-1074)) (- sA - - sT))
    with (sT - sA - 53) by lia.
  replace (- sA - - sT - (sT - sA - 53)) with 53 by lia.
  cbv beta iota zeta.
  rewrite Z.shiftl_mul_pow2 by lia.
  assert (Ediv : Z.div_eucl (Zpos mA * 2 ^ 53) (Zpos mT)
                 = (Zpos mA * 2 ^ 53 / Zpos mT, (Zpos mA * 2 ^ 53) mod Zpos mT))
    by (unfold Z.div, Z.modulo; destruct (Z.div_eucl _ _); reflexivity).
  rewrite Ediv. clear Ediv.
  set (q := Zpos mA * 2 ^ 53 / Zpos mT).
  set (lz := new_location (Zpos mT) _).
  (* the integer quotient has 53 or 54 digits *)
  assert (P52 : 2 ^ 52 * 2 ^ 53 = 2 ^ 53 * 2 ^ 52) by ring.
  assert (P54 : 2 ^ 53 * 2 ^ 53 = 2 ^ 52 * 2 ^ 54)
    by (rewrite <- !Z.pow_add_r by lia; reflexivity).
  assert (Hp53 : 0 < 2 ^ 53) by (apply Z.pow_pos_nonneg; lia).
  assert (Hq : 2 ^ 52 <= q < 2 ^ 54).
  { subst q. split.
    - apply Z.div_le_lower_bound; [lia|]. nia.
    - apply Z.div_lt_upper_bound; [lia|]. nia. }
  assert (Hp52 : 0 < 2 ^ 52) by (apply Z.pow_pos_nonneg; lia).
  pose proof (Zdigits2_bounds q ltac:(lia)) as [Dlo Dhi].
  assert (Hdq : Zdigits2 q = 53 \/ Zdigits2 q = 54).
  { assert (H1 : 2 ^ (Zdigits2 q - 1) < 2 ^ 54) by lia.
    assert (H2 : 2 ^ 52 < 2 ^ Zdigits2 q) by lia.
    apply Z.pow_lt_mono_r_iff in H1; [|lia|lia].
    apply Z.pow_lt_mono_r_iff in H2; [lia|lia|].
    destruct (Z.le_gt_cases 0 (Zdigits2 q)) as [?|Hneg]; [assumption|].
    rewrite (Z.pow_neg_r 2 (Zdigits2 q)) in H2 by lia. lia. }
  destruct (binary_round_aux_shape false q (sT - sA - 53) lz ltac:(lia))
    as (n & n' & mr & Hn & Hn' & Hmr & ->).
  rewrite fexp_binary64 in Hn.
  assert (En : n = Zdigits2 q - 53) by lia. clear Hn.
  (* the shifted quotient has exactly 53 digits *)
  assert (Hpn : 0 < 2 ^ n) by (apply Z.pow_pos_nonneg; lia).
  assert (Hm1 : 2 ^ 52 <= q / 2 ^ n < 2 ^ 53).
  { destruct Hdq as [E | E]; rewrite E in *.
    - replace n with 0 by lia. change (2 ^ 0) with 1. rewrite Z.div_1_r.
      change (53 - 1) with 52 in Dlo. lia.
    - replace n with 1 by lia. change (2 ^ 1) with 2.
      change (54 - 1) with 53 in Dlo.
      assert (E53 : 2 ^ 53 = 2 * 2 ^ 52) by (rewrite <- Z.pow_succ_r by lia; reflexivity).
      assert (E54 : 2 ^ 54 = 2 * 2 ^ 53) by (rewrite <- Z.pow_succ_r by lia; reflexivity).
      split.
      + apply Z.div_le_lower_bound; lia.
      + apply Z.div_lt_upper_bound; lia. }
  set (m1 := q / 2 ^ n) in *.
  (* the shifted quotient as a quotient of the integers *)
  assert (Em1 : m1 = A * 2 ^ (sA + 53) / (T * 2 ^ (sT + n))).
  { subst m1 q. rewrite Z.div_div by lia. rewrite EmA, EmT.
    rewrite <- !Z.mul_assoc, <- !Z.pow_add_r by lia. reflexivity. }
  set (e1 := sT - sA - 53 + n) in *.
  assert (He1 : -46 <= e1 /\ (e1 = -46 -> 7036874417766400 < m1)).
  { assert (Hcancel : forall d, 0 <= d -> sA + 53 = d + (sT + n) ->
              m1 = A * 2 ^ d / T).
    { intros d Hd E. rewrite Em1, E, Z.pow_add_r, Z.mul_assoc by lia.
      apply Z.div_mul_cancel_r; [lia | apply Z.pow_nonzero; lia]. }
    split.
    - destruct (Z.le_gt_cases (-46) e1) as [?|Hlt]; [assumption | exfalso].
      assert (E : m1 = A * 2 ^ (- e1) / T) by (apply Hcancel; subst e1; lia).
      assert (H47 : 2 ^ 47 <= 2 ^ (- e1)) by (apply Z.pow_le_mono_r; lia).
      assert (Hlow : 100 * 2 ^ 47 <= m1).
      { rewrite E. apply Z.div_le_lower_bound; [lia|].
        assert (0 < 2 ^ 47) by (apply Z.pow_pos_nonneg; lia). nia. }
      assert (2 ^ 53 < 100 * 2 ^ 47).
      { replace (2 ^ 53) with (64 * 2 ^ 47)
          by (change 64 with (2 ^ 6); rewrite <- Z.pow_add_r by lia; reflexivity).
        assert (0 < 2 ^ 47) by (apply Z.pow_pos_nonneg; lia). lia. }
      lia.
    - intros E46.
      assert (E : m1 = A * 2 ^ 46 / T) by (apply Hcancel; subst e1; lia).
      assert (Hlow : 7036874417766400 + 1 <= m1).
      { rewrite E. apply Z.div_le_lower_bound; [lia|].
        change 7036874417766400 with (100 * 2 ^ 46).
        change (2 ^ 32) with 4294967296 in HT.
        change (2 ^ 46) with 70368744177664. lia. }
      lia. }
  (* the second shift is by at most one place *)
  assert (Hmr_b : 2 ^ 52 <= mr <= 2 ^ 53 /\ m1 <= mr) by (destruct Hmr; subst mr; lia).
  pose proof (Zdigits2_bounds mr ltac:(lia)) as [Mlo Mhi].
  assert (Hdm : Zdigits2 mr = 53 \/ (Zdigits2 mr = 54 /\ mr = 2 ^ 53)).
  { assert (H2 : 2 ^ 52 < 2 ^ Zdigits2 mr) by lia.
    assert (Hnn : 0 <= Zdigits2 mr).
    { destruct (Z.le_gt_cases 0 (Zdigits2 mr)) as [?|Hneg]; [assumption|].
      rewrite (Z.pow_neg_r 2 (Zdigits2 mr)) in H2 by lia. lia. }
    apply Z.pow_lt_mono_r_iff in H2; [|lia|lia].
    destruct (Z.eq_dec (Zdigits2 mr) 53) as [?|Hne]; [now left | right].
    assert (H53 : 2 ^ 53 <= 2 ^ (Zdigits2 mr - 1)) by (apply Z.pow_le_mono_r; lia).
    assert (mr = 2 ^ 53) by lia. split; [|assumption].
    assert (H1 : 2 ^ (Zdigits2 mr - 1) < 2 ^ 54).
    { replace (2 ^ 54) with (2 * 2 ^ 53)
        by (rewrite <- Z.pow_succ_r by lia; reflexivity). lia. }
    apply Z.pow_lt_mono_r_iff in H1; lia. }
  fold e1 in Hn'. rewrite fexp_binary64 in Hn'.
  replace (sT - sA - 53 + n + n') with (e1 + n') by (subst e1; lia).
  assert (He1_b : -1000 <= e1 <= 900) by (subst e1; clear - HsA HsT En Hdq; lia).
  assert (E53 : 2 ^ 53 = 2 ^ 52 * 2)
    by (rewrite Z.mul_comm, <- Z.pow_succ_r by lia; reflexivity).
  clearbody e1 m1. clear - He1 He1_b Hmr_b Hdm Hn' Hp52 E53.
  assert (Hres : exists m2 : positive,
             mr / 2 ^ n' = Zpos m2 /\
             (-46 < e1 + n' \/ (e1 + n' = -46 /\ 7036874417766400 < Zpos m2)) /\
             e1 + n' <= 971).
  { destruct Hdm as [E | [E Emr]]; rewrite E in Hn'.
    - assert (En' : n' = 0) by lia. clear Hn'. subst n'.
      change (2 ^ 0) with 1. rewrite Z.div_1_r.
      destruct mr as [|m2|m2]; try lia. exists m2.
      split; [reflexivity | split; [|lia]].
      destruct (Z.eq_dec e1 (-46)) as [E46|?]; [right | left; lia].
      split; [lia|]. apply (proj2 He1) in E46. lia.
    - assert (En' : n' = 1) by lia. clear Hn'. subst n'.
      change (2 ^ 1) with 2. rewrite Emr, E53, Z.div_mul by lia.
      destruct (2 ^ 52) as [|m2|m2] eqn:E52; try lia. exists m2.
      split; [reflexivity | split; [left; lia | lia]]. }
  destruct Hres as (m2 & -> & Hcmp & Hfin).
  replace (e1 + n' <=? emax - prec) with true
    by (symmetry; apply Z.leb_le; change (emax - prec) with 971; exact Hfin).
  set (e2 := e1 + n') in *. clearbody e2. clear - Hcmp.
  unfold SFltb, SFcompare. rewrite compare_cont_Z.
  destruct (Z.compare_spec (-46) e2) as [Eq46 | Hlt | Hgt]; [|reflexivity|lia].
  destruct Hcmp as [? | [_ Hm2]]; [lia|].
  destruct (Z.compare_spec 7036874417766400 (Zpos m2)); [lia | reflexivity | lia].
Qed.

End DoubleFacts.

(** ** Traffic classes and rate allocation *)

Module TrafficFacts.
Import Double DoubleFacts Traffic.

Lemma double_to_uint_Some bits (x : float) (z : Z) :
  double_to_uint bits x = Some z ->
  SFtrunc (Prim2SF x) = Some z /\ 0 <= z < 2 ^ bits.
Proof.
  unfold double_to_uint. destruct (SFtrunc (Prim2SF x)) as [t|]; [|discriminate].
  destruct (Z.leb_spec 0 t), (Z.ltb_spec t (2 ^ bits)); cbn [andb];
    intros [= <-]. split; [reflexivity | lia].
Qed.

(** *** Rate allocation *)

Lemma Prim2SF_5e6 : Prim2SF 5e6 = S754_finite false 5368709120000000 (-30).
Proof. reflexivity. Qed.

Lemma Prim2SF_20e6 : Prim2SF 20e6 = S754_finite false 5368709120000000 (-28).
Proof. reflexivity. Qed.

(** Every double strictly above 5e6 and not above 20e6 truncates to an
    integer of the same window. *)
Lemma cast_in_rate_window (x : float) :
  (5e6 <? x)%float = true -> (20e6 <? x)%float = false ->
  exists r, double_to_uint 64 x = Some r /\ 5000000 <= r <= 20000000.
Proof.
  rewrite !ltb_spec, Prim2SF_5e6, Prim2SF_20e6.
  unfold double_to_uint. pose proof (Prim2SF_valid x) as Hv.
  intros Hlo Hhi.
  destruct (Prim2SF x) as [sg|[|]| |[|] m e]; try discriminate.
  unfold SFltb, SFcompare in Hlo, Hhi.
  assert (He : e = -30 \/ e = -29 \/ e = -28) by sf_cmp.
  assert (Hm : 2 ^ 52 <= Zpos m < 2 ^ 53)
    by (apply (valid_normal_mantissa false m e Hv); lia).
  change (2 ^ 52) with 4503599627370496 in Hm.
  change (2 ^ 53) with 9007199254740992 in Hm.
  change (2 ^ 64) with 18446744073709551616.
  cbv beta iota delta [SFtrunc cond_Zopp].
  assert (Hr : 5000000 <= Z.shiftl (Zpos m) e <= 20000000).
  { destruct He as [-> | [-> | ->]].
    - change (Z.shiftl (Zpos m) (-30)) with (Z.shiftr (Zpos m) 30).
      rewrite Z.shiftr_div_pow2 by lia. change (2 ^ 30) with 1073741824.
      assert (5368709120000000 < Zpos m) by sf_cmp.
      Z.div_mod_to_equations. lia.
    - change (Z.shiftl (Zpos m) (-29)) with (Z.shiftr (Zpos m) 29).
      rewrite Z.shiftr_div_pow2 by lia. change (2 ^ 29) with 536870912.
      Z.div_mod_to_equations. lia.
    - change (Z.shiftl (Zpos m) (-28)) with (Z.shiftr (Zpos m) 28).
      rewrite Z.shiftr_div_pow2 by lia. change (2 ^ 28) with 268435456.
      assert (Zpos m <= 5368709120000000) by sf_cmp.
      Z.div_mod_to_equations. lia. }
  exists (Z.shiftl (Zpos m) e). split; [|exact Hr].
  replace (0 <=? Z.shiftl (Zpos m) e) with true by (symmetry; apply Z.leb_le; lia).
  replace (Z.shiftl (Zpos m) e <? 18446744073709551616) with true
    by (symmetry; apply Z.ltb_lt; lia).
  reflexivity.
Qed.

(** The cast of the clamped value is defined and in the window whatever
    the fair share is (NaN and the infinities included). *)
Lemma clamped_cast_in_window (fairShare : float) :
  exists r, double_to_uint 64 (std_max 5e6 (std_min fairShare 20e6)) = Some r
            /\ 5000000 <= r <= 20000000.
Proof.
  unfold std_max, std_min.
  destruct (20e6 <? fairShare)%float eqn:Hhi.
  - change (5e6 <? 20e6)%float with true.
    exists 20000000. split; [reflexivity | lia].
  - destruct (5e6 <? fairShare)%float eqn:Hlo.
    + now apply cast_in_rate_window.
    + exists 5000000. split; [reflexivity | lia].
Qed.

(** C3 (amended): with no eMBB UE the rate is exactly 10e6 bps;
    otherwise the rate is the fair share [budget / nEmbb] clamped to
    [5e6, 20e6] and then truncated toward zero to a whole number of bps
    (the cast to [uint64_t]), so it is an integer of [5e6, 20e6], for
    every budget.  For a budget of 2e8 bps and 50 UEs the fair share is
    4e6, clamped up to the floor 5e6. *)
Theorem allocateEmbbRate_clamped_truncated (budget : float) (nEmbb : Z) :
  allocateEmbbRate budget 0 = Some 10000000 /\
  (0 < nEmbb ->
   exists r, allocateEmbbRate budget nEmbb = Some r /\
             SFtrunc (Prim2SF (clampedFairShare budget nEmbb)) = Some r /\
             5000000 <= r <= 20000000) /\
  ((2e8 / Z_to_double 50)%float = 4e6%float /\
   clampedFairShare 2e8 50 = 5e6%float /\
   allocateEmbbRate 2e8 50 = Some 5000000).
Proof.
  split; [reflexivity | split].
  - intros Hn. unfold allocateEmbbRate.
    replace (0 <? nEmbb) with true by (symmetry; apply Z.ltb_lt; exact Hn).
    destruct (clamped_cast_in_window (budget / Z_to_double nEmbb)%float)
      as (r & Hr & Hrange).
    exists r. split; [exact Hr | split; [|exact Hrange]].
    now apply double_to_uint_Some in Hr as [Ht _].
  - repeat split; vm_compute; reflexivity.
Qed.

Lemma allocateEmbbRate_clamped_truncated_witness :
  0 < 18 /\
  exists r, allocateEmbbRate 2e8 18 = Some r /\
            SFtrunc (Prim2SF (clampedFairShare 2e8 18)) = Some r /\
            5000000 <= r <= 20000000.
Proof.
  split; [lia|].
  apply (proj1 (proj2 (allocateEmbbRate_clamped_truncated 2e8 18))). lia.
Defined.

(** C3 as stated fails: with the default 18 eMBB UEs of the sparse
    scenario the returned rate, 11111111 bps, is strictly below the
    clamped fair share 11111111.11... *)
Lemma allocateEmbbRate_not_the_clamped_share :
  allocateEmbbRate (embbBudgetBps false) 18 = Some 11111111 /\
  (Z_to_double 11111111 <? clampedFairShare (embbBudgetBps false) 18)%float = true.
Proof. split; vm_compute; reflexivity. Qed.

(** *** Traffic-class split *)

Lemma classifyLoop_seqZ (k : Z) (n : nat) :
  forall (a : Z) (E U : list Z),
    classifyLoop k (seqZ a (Z.of_nat n)) E U =
    let c := Z.max 0 (Z.min (k - a) (Z.of_nat n)) in
    (E ++ seqZ a c, U ++ seqZ (a + c) (Z.of_nat n - c)).
Proof.
  induction n as [|n IH]; intros a E U.
  - cbv zeta. rewrite !seqZ_nil, !app_nil_r by lia. reflexivity.
  - rewrite (seqZ_cons a) by lia. cbn [classifyLoop].
    replace (Z.pred (Z.of_nat (S n))) with (Z.of_nat n) by lia.
    destruct (Z.ltb_spec a k) as [Hlt|Hge]; rewrite IH; cbv zeta.
    + replace (Z.max 0 (Z.min (k - a) (Z.of_nat (S n))))
        with (Z.succ (Z.max 0 (Z.min (k - Z.succ a) (Z.of_nat n)))) by lia.
      set (c := Z.max 0 (Z.min (k - Z.succ a) (Z.of_nat n))).
      rewrite (seqZ_cons a (Z.succ c)) by lia.
      replace (Z.pred (Z.succ c)) with c by lia.
      rewrite <- app_assoc. cbn [app].
      f_equal. f_equal. f_equal; lia.
    + replace (Z.max 0 (Z.min (k - Z.succ a) (Z.of_nat n))) with 0 by lia.
      replace (Z.max 0 (Z.min (k - a) (Z.of_nat (S n)))) with 0 by lia.
      rewrite !seqZ_nil, !app_nil_r by lia.
      rewrite <- app_assoc. cbn [app].
      rewrite (seqZ_cons (a + 0)) by lia.
      f_equal. f_equal. f_equal; [lia|]. f_equal; lia.
Qed.

Lemma classifyUEs_split (k numUEs : Z) :
  0 <= k -> 0 <= numUEs ->
  classifyUEs k numUEs =
  (seqZ 0 (Z.min k numUEs),
   seqZ (Z.min k numUEs) (numUEs - Z.min k numUEs)).
Proof.
  intros Hk Hn. unfold classifyUEs.
  rewrite <- (Z2Nat.id numUEs) at 1 by lia.
  rewrite classifyLoop_seqZ. cbv zeta. rewrite Z2Nat.id by lia.
  replace (Z.max 0 (Z.min (k - 0) numUEs)) with (Z.min k numUEs) by lia.
  reflexivity.
Qed.

(** For a ratio that is not below zero the cast truncates a value that
    is not negative, so truncation and floor agree. *)
Lemma numEmbbUEs_floor (embbRatio : float) (numUEs k : Z) :
  0 <= numUEs < 2 ^ 32 ->
  (0 <=? embbRatio)%float = true ->
  numEmbbUEs embbRatio numUEs = Some k ->
  double_floor (embbRatio * Z_to_double numUEs) = Some k.
Proof.
  intros Hn Hr Hk. apply double_to_uint_Some in Hk as [Hk _].
  unfold double_floor. rewrite <- Hk. apply SFfloor_trunc.
  rewrite mul_spec. apply SFmul_not_negative.
  - rewrite leb_spec in Hr. exact Hr.
  - rewrite Prim2SF_Z_to_double
      by (change (2 ^ 32) with 4294967296 in Hn;
          change (2 ^ 63) with 9223372036854775808; lia).
    apply binary_normalize_sign; lia.
Qed.

(** On the documented domain of the ratio, [0, 1], the cast is defined
    and yields at most [numUEs]. *)
Lemma numEmbbUEs_total (embbRatio : float) (numUEs : Z) :
  0 <= numUEs < 2 ^ 32 ->
  (0 <=? embbRatio)%float = true -> (embbRatio <=? 1)%float = true ->
  exists k, numEmbbUEs embbRatio numUEs = Some k /\ 0 <= k <= numUEs.
Proof.
  intros Hn H0 H1. rewrite leb_spec in H0, H1.
  assert (H32 : 2 ^ 32 < 2 ^ 63) by (apply Z.pow_lt_mono_r; lia).
  destruct (SFmul_ratio_le (Prim2SF embbRatio) numUEs (Prim2SF_valid _) H0 H1 Hn)
    as (k & Hk & Hrange).
  exists k. split; [|exact Hrange].
  unfold numEmbbUEs, double_to_uint.
  rewrite mul_spec, Prim2SF_Z_to_double, Hk by lia.
  replace (0 <=? k) with true by (symmetry; apply Z.leb_le; lia).
  replace (k <? 2 ^ 32) with true by (symmetry; apply Z.ltb_lt; lia).
  reflexivity.
Qed.

(** C9, as amended to ratios in [0, 1]: the classes are a prefix split
    by creation index.  For every
    count and every ratio in [0, 1] the cast of line 389 is defined; with
    [k = floor (embbRatio * numUEs)], the product taken in double
    arithmetic as the source does, [k <= numUEs], [embbUEs] is the first
    [k] indices in order and [urllcUEs] the remaining [numUEs - k] ones:
    UE [i] is eMBB exactly when [i < k].  For any other ratio on which
    the cast is defined the split is at [min k numUEs].  With 10 UEs and
    ratio 0.6, indices 0-5 are eMBB and 6-9 URLLC. *)
Theorem class_prefix_split (embbRatio : float) (numUEs : Z) :
  (0 <= numUEs < 2 ^ 32 ->
   (0 <=? embbRatio)%float = true -> (embbRatio <=? 1)%float = true ->
   exists k,
     numEmbbUEs embbRatio numUEs = Some k /\
     double_floor (embbRatio * Z_to_double numUEs) = Some k /\
     0 <= k <= numUEs /\
     classifyUEs k numUEs = (seqZ 0 k, seqZ k (numUEs - k)) /\
     (forall i, 0 <= i < numUEs ->
        (i ∈ (classifyUEs k numUEs).1 <-> i < k) /\
        (i ∈ (classifyUEs k numUEs).2 <-> k <= i)) /\
     Z.of_nat (length (classifyUEs k numUEs).1) = k /\
     Z.of_nat (length (classifyUEs k numUEs).2) = numUEs - k) /\
  (forall k, 0 <= numUEs -> numEmbbUEs embbRatio numUEs = Some k ->
     classifyUEs k numUEs =
     (seqZ 0 (Z.min k numUEs),
      seqZ (Z.min k numUEs) (numUEs - Z.min k numUEs))) /\
  (numEmbbUEs 0.6 10 = Some 6 /\
   classifyUEs 6 10 = ([0; 1; 2; 3; 4; 5], [6; 7; 8; 9])).
Proof.
  split; [|split; [|split; vm_compute; reflexivity]].
  - intros Hn H0 H1.
    destruct (numEmbbUEs_total embbRatio numUEs Hn H0 H1) as (k & Hk & Hrange).
    exists k. split; [exact Hk | split; [now apply numEmbbUEs_floor|]].
    split; [exact Hrange|].
    rewrite classifyUEs_split by lia.
    replace (Z.min k numUEs) with k by lia. cbn [fst snd].
    split; [reflexivity | split; [|split]].
    + intros i Hi. rewrite !elem_of_seqZ. lia.
    + rewrite length_seqZ. lia.
    + rewrite length_seqZ. lia.
  - intros k Hn Hk.
    pose proof (double_to_uint_Some _ _ _ Hk) as [_ Hk0].
    apply classifyUEs_split; lia.
Qed.

Lemma class_prefix_split_witness :
  (0 <= 30 < 2 ^ 32 /\ (0 <=? 0.6)%float = true /\ (0.6 <=? 1)%float = true) /\
  exists k,
    numEmbbUEs 0.6 30 = Some k /\
    double_floor (0.6 * Z_to_double 30) = Some k /\
    0 <= k <= 30 /\
    classifyUEs k 30 = (seqZ 0 k, seqZ k (30 - k)).
Proof.
  assert (Hn : 0 <= 30 < 2 ^ 32) by (change (2 ^ 32) with 4294967296; lia).
  assert (H0 : (0 <=? 0.6)%float = true) by reflexivity.
  assert (H1 : (0.6 <=? 1)%float = true) by reflexivity.
  split; [auto|].
  destruct (proj1 (class_prefix_split 0.6 30) Hn H0 H1) as (k & A & B & C & D & _).
  exists k. auto.
Defined.

(** C9 as stated, for every ratio, fails: the program takes any
    [embbRatio] unchecked.  With ratio 1.5 and 10 UEs, floor (r * N) is
    15 and so is [numEmbbUEs], yet the loop labels only the 10 existing
    UEs eMBB and no UE URLLC, not N - 15 of them.  With ratio -0.05 the
    floor is -1 while the cast yields 0, and every UE is URLLC. *)
Lemma class_split_outside_unit_ratio :
  (numEmbbUEs 1.5 10 = Some 15 /\
   double_floor (1.5 * Z_to_double 10) = Some 15 /\
   classifyUEs 15 10 = ([0; 1; 2; 3; 4; 5; 6; 7; 8; 9], []) /\
   length (classifyUEs 15 10).1 = 10%nat /\
   length (classifyUEs 15 10).2 = 0%nat) /\
  (numEmbbUEs (-0.05) 10 = Some 0 /\
   double_floor (-0.05 * Z_to_double 10) = Some (-1) /\
   classifyUEs 0 10 = ([], [0; 1; 2; 3; 4; 5; 6; 7; 8; 9])).
Proof. repeat split; vm_compute; reflexivity. Qed.

End TrafficFacts.

(** ** Cell layout *)

Module LayoutFacts.
Import Double Layout.

Section Facts.

Variables cos sin : float -> float.

Lemma ringPositions_length (count : Z) (r divisor baseHeight : float) :
  length (ringPositions cos sin count r divisor baseHeight) = Z.to_nat count.
Proof. unfold ringPositions. now rewrite length_fmap, length_seqZ. Qed.

(** The [switch] falls to [default] on every count other than 1, 3, 5
    and 7, and the [default] label shares the body of [case 9]. *)
Lemma layout_default (numCells : Z) (ISD baseHeight : float) scenario :
  numCells <> 1 -> numCells <> 3 -> numCells <> 5 -> numCells <> 7 ->
  CreateOptimizedCellLayout cos sin numCells ISD baseHeight scenario =
  CreateOptimizedCellLayout cos sin 9 ISD baseHeight scenario.
Proof.
  intros H1 H3 H5 H7.
  destruct numCells as [|p|p]; try reflexivity.
  destruct p as [[[q|q|]|[q|q|]|]|[q|q|]|]; try reflexivity; congruence.
Qed.

Lemma layout_center (numCells : Z) (ISD baseHeight : float) scenario :
  numCells <> 3 ->
  CreateOptimizedCellLayout cos sin numCells ISD baseHeight scenario !! 0%nat
  = Some (mkVector 0 0 baseHeight).
Proof.
  intros H3.
  destruct numCells as [|p|p]; try reflexivity.
  destruct p as [[[q|q|]|[q|q|]|]|[q|q|]|]; try reflexivity; congruence.
Qed.

(** C4: each supported count yields exactly that many points; the
    layout is a function of its arguments; every other count yields the
    nine points of the fallback template; and apart from the triangle of
    count 3, point 0 is [(0, 0, baseHeight)]. *)
Theorem cell_layout_count_fallback_center
  (numCells : Z) (ISD baseHeight : float) (scenario : ScenarioType) :
  let layout := CreateOptimizedCellLayout cos sin numCells ISD baseHeight scenario in
  (numCells = 1 \/ numCells = 3 \/ numCells = 5 \/ numCells = 7 \/ numCells = 9 ->
   Z.of_nat (length layout) = numCells) /\
  (numCells <> 1 -> numCells <> 3 -> numCells <> 5 -> numCells <> 7 ->
   layout = CreateOptimizedCellLayout cos sin 9 ISD baseHeight scenario /\
   length layout = 9%nat) /\
  (numCells <> 3 -> layout !! 0%nat = Some (mkVector 0 0 baseHeight)).
Proof.
  cbv zeta. split; [|split].
  - intros [-> | [-> | [-> | [-> | ->]]]]; reflexivity.
  - intros H1 H3 H5 H7. rewrite layout_default by assumption.
    split; reflexivity.
  - apply layout_center.
Qed.

End Facts.

Lemma cell_layout_count_fallback_center_witness :
  let cos := fun _ : float => 1%float in
  let sin := fun _ : float => 0%float in
  (Z.of_nat (length (CreateOptimizedCellLayout cos sin 7 200 25 DENSE_URBAN)) = 7) /\
  (CreateOptimizedCellLayout cos sin 4 200 25 SPARSE_SUBURBAN
   = CreateOptimizedCellLayout cos sin 9 200 25 SPARSE_SUBURBAN /\
   length (CreateOptimizedCellLayout cos sin 4 200 25 SPARSE_SUBURBAN) = 9%nat) /\
  (CreateOptimizedCellLayout cos sin 4 200 25 SPARSE_SUBURBAN !! 0%nat
   = Some (mkVector 0 0 25)).
Proof.
  intros cos sin. split; [|split].
  - apply (proj1 (cell_layout_count_fallback_center cos sin 7 200 25 DENSE_URBAN)).
    right; right; right; left; reflexivity.
  - apply (proj1 (proj2 (cell_layout_count_fallback_center cos sin 4 200 25 SPARSE_SUBURBAN)));
      lia.
  - apply (proj2 (proj2 (cell_layout_count_fallback_center cos sin 4 200 25 SPARSE_SUBURBAN)));
      lia.
Defined.

End LayoutFacts.

(** ** Telemetry callbacks *)

Module TelemetryFacts.
Import Double DoubleFacts Telemetry Samples.

(** *** The bounded history *)

Lemma lastn_all {A} (n : nat) (l : list A) :
  (length l <= n)%nat -> lastn n l = l.
Proof. intros H. unfold lastn. now replace (length l - n)%nat with 0%nat by lia. Qed.

Lemma lastn_length {A} (n : nat) (l : list A) :
  length (lastn n l) = Nat.min n (length l).
Proof. unfold lastn. rewrite length_drop. lia. Qed.

Lemma tail_drop {A} (l : list A) : tail l = drop 1 l.
Proof. now destruct l. Qed.

(** Pushing onto a history that holds the last 1000 samples and then
    evicting keeps the last 1000 samples of the longer sequence. *)
Lemma evictOldest_lastn (samples : list float) (x : float) :
  evictOldest (lastn 1000 samples ++ [x]) = lastn 1000 (samples ++ [x]).
Proof.
  unfold evictOldest. rewrite length_app, lastn_length. cbn [length].
  destruct (Nat.ltb_spec 1000 (Nat.min 1000 (length samples) + 1)) as [Hfull|Hroom].
  - unfold lastn. rewrite length_app. cbn [length].
    rewrite tail_drop, drop_app_le, drop_drop
      by (rewrite ?length_drop; lia).
    rewrite drop_app_le by lia.
    do 2 f_equal. lia.
  - rewrite (lastn_all 1000 samples) by lia.
    rewrite lastn_all; [reflexivity|]. rewrite length_app. cbn [length]. lia.
Qed.

Lemma evictOldest_full (history : list float) (x : float) :
  length history = 1000%nat ->
  evictOldest (history ++ [x]) = tail history ++ [x].
Proof.
  intros H. unfold evictOldest. rewrite length_app, H. cbn [length].
  replace (1000 <? 1000 + 1)%nat with true by (symmetry; apply Nat.ltb_lt; lia).
  destruct history; [discriminate | reflexivity].
Qed.

Lemma evictOldest_last (history : list float) (x : float) :
  last (evictOldest (history ++ [x])) = Some x.
Proof.
  unfold evictOldest. destruct (Nat.ltb_spec 1000 (length (history ++ [x]))) as [H|H].
  - rewrite length_app in H. cbn [length] in H.
    destruct history as [|y history]; [cbn [length] in H; lia|].
    cbn [app tail]. apply last_snoc.
  - apply last_snoc.
Qed.

Section Facts.

Variable log10 : float -> float.

(** *** One SINR sample *)

Lemma sinr_ignored (imsi : Z) (m_sinr : float) (g : Globals) :
  (0 <? m_sinr)%float = false -> EnhancedSinrCallback log10 imsi m_sinr g = g.
Proof. intros H. unfold EnhancedSinrCallback. now rewrite H. Qed.

Lemma sinr_accepted_metrics (imsi : Z) (m_sinr : float) (g : Globals) :
  (0 <? m_sinr)%float = true ->
  metricsOf (EnhancedSinrCallback log10 imsi m_sinr g) imsi =
  let sinrDb := (10 * log10 m_sinr)%float in
  let metrics := metricsOf g imsi in
  {| sumSinrDb := (sumSinrDb metrics + sinrDb)%float;
     sumRsrpDbm := sumRsrpDbm metrics;
     sumRsrqDb := sumRsrqDb metrics;
     samples := wrap 32 (samples metrics + 1);
     maxSinr := std_max (maxSinr metrics) sinrDb;
     minSinr := std_min (minSinr metrics) sinrDb |}.
Proof.
  intros H. unfold EnhancedSinrCallback. rewrite H. cbv zeta.
  unfold metricsOf at 1. cbn [g_channelMetrics].
  now rewrite lookup_insert_eq.
Qed.

Lemma sinr_accepted_history (imsi : Z) (m_sinr : float) (g : Globals) :
  (0 <? m_sinr)%float = true ->
  historyOf (EnhancedSinrCallback log10 imsi m_sinr g) imsi =
  evictOldest (historyOf g imsi ++ [(10 * log10 m_sinr)%float]).
Proof.
  intros H. unfold EnhancedSinrCallback. rewrite H. cbv zeta.
  unfold historyOf at 1. cbn [g_sinrHistory].
  now rewrite lookup_insert_eq.
Qed.

Lemma sinr_other_ue (imsi other : Z) (m_sinr : float) (g : Globals) :
  other <> imsi ->
  metricsOf (EnhancedSinrCallback log10 imsi m_sinr g) other = metricsOf g other /\
  historyOf (EnhancedSinrCallback log10 imsi m_sinr g) other = historyOf g other.
Proof.
  intros Hne. unfold EnhancedSinrCallback.
  destruct (0 <? m_sinr)%float; [|split; reflexivity].
  unfold metricsOf, historyOf. cbn [g_channelMetrics g_sinrHistory].
  now rewrite !lookup_insert_ne by congruence.
Qed.

Lemma std_max_upper (a b : float) :
  (std_max a b <? a)%float = false /\ (std_max a b <? b)%float = false.
Proof.
  unfold std_max. destruct (a <? b)%float eqn:H.
  - split; [now apply ltb_asym | apply ltb_irrefl].
  - split; [apply ltb_irrefl | exact H].
Qed.

Lemma std_min_lower (a b : float) :
  (a <? std_min a b)%float = false /\ (b <? std_min a b)%float = false.
Proof.
  unfold std_min. destruct (b <? a)%float eqn:H.
  - split; [now apply ltb_asym | apply ltb_irrefl].
  - split; [apply ltb_irrefl | exact H].
Qed.

(** C5: a sample that is not above zero (zero, negative or NaN) leaves
    the whole state unchanged; an accepted sample adds its dB value to
    the running sum, increments the [uint32_t] sample count, folds the
    value into the running maximum and minimum, and appends it to the
    history, whose oldest entry goes when the capacity is exceeded.  The
    RSRP and RSRQ sums and the other UEs are untouched. *)
Theorem sinr_sample_update (imsi : Z) (m_sinr : float) (g : Globals) :
  let g' := EnhancedSinrCallback log10 imsi m_sinr g in
  let sinrDb := (10 * log10 m_sinr)%float in
  ((m_sinr <=? 0)%float = true -> g' = g) /\
  ((0 <? m_sinr)%float = false -> g' = g) /\
  ((0 <? m_sinr)%float = true ->
   sumSinrDb (metricsOf g' imsi) = (sumSinrDb (metricsOf g imsi) + sinrDb)%float /\
   samples (metricsOf g' imsi) = wrap 32 (samples (metricsOf g imsi) + 1) /\
   (0 <= samples (metricsOf g imsi) < 2 ^ 32 - 1 ->
    samples (metricsOf g' imsi) = samples (metricsOf g imsi) + 1) /\
   maxSinr (metricsOf g' imsi) = std_max (maxSinr (metricsOf g imsi)) sinrDb /\
   (maxSinr (metricsOf g' imsi) <? maxSinr (metricsOf g imsi))%float = false /\
   (maxSinr (metricsOf g' imsi) <? sinrDb)%float = false /\
   minSinr (metricsOf g' imsi) = std_min (minSinr (metricsOf g imsi)) sinrDb /\
   (minSinr (metricsOf g imsi) <? minSinr (metricsOf g' imsi))%float = false /\
   (sinrDb <? minSinr (metricsOf g' imsi))%float = false /\
   sumRsrpDbm (metricsOf g' imsi) = sumRsrpDbm (metricsOf g imsi) /\
   sumRsrqDb (metricsOf g' imsi) = sumRsrqDb (metricsOf g imsi) /\
   historyOf g' imsi = evictOldest (historyOf g imsi ++ [sinrDb]) /\
   last (historyOf g' imsi) = Some sinrDb) /\
  (forall other, other <> imsi ->
     metricsOf g' other = metricsOf g other /\
     historyOf g' other = historyOf g other) /\
  (g_handoverAttempts g' = g_handoverAttempts g /\
   g_handoverSuccess g' = g_handoverSuccess g /\
   g_handoverFailures g' = g_handoverFailures g).
Proof.
  cbv zeta. split; [|split; [|split; [|split]]].
  - intros H. apply sinr_ignored. now apply leb_ltb_false.
  - apply sinr_ignored.
  - intros H. rewrite sinr_accepted_metrics, sinr_accepted_history by exact H.
    cbv zeta. cbn [sumSinrDb samples maxSinr minSinr sumRsrpDbm sumRsrqDb].
    pose proof (std_max_upper (maxSinr (metricsOf g imsi)) (10 * log10 m_sinr)) as [? ?].
    pose proof (std_min_lower (minSinr (metricsOf g imsi)) (10 * log10 m_sinr)) as [? ?].
    repeat split; try assumption.
    + intros Hs. unfold wrap. apply Z.mod_small. lia.
    + apply evictOldest_last.
  - intros other Hne. now apply sinr_other_ue.
  - unfold EnhancedSinrCallback. destruct (0 <? m_sinr)%float; repeat split.
Qed.

(** *** Runs of events *)

Lemma dispatch_history (g : Globals) (ev : Event) (imsi : Z) :
  historyOf (dispatch log10 g ev) imsi =
  match sampleDb log10 imsi ev with
  | Some sinrDb => evictOldest (historyOf g imsi ++ [sinrDb])
  | None => historyOf g imsi
  end.
Proof.
  destruct ev as [i x| | | | |]; cbn [dispatch sampleDb]; try reflexivity.
  destruct (decide (i = imsi)) as [->|Hne].
  - destruct (0 <? x)%float eqn:Hx.
    + now apply sinr_accepted_history.
    + now rewrite sinr_ignored.
  - apply sinr_other_ue. congruence.
Qed.

Lemma run_snoc (evs : list Event) (ev : Event) (g : Globals) :
  run log10 (evs ++ [ev]) g = dispatch log10 (run log10 evs g) ev.
Proof. unfold run. now rewrite fold_left_app. Qed.

Lemma dbSamples_snoc (imsi : Z) (evs : list Event) (ev : Event) :
  dbSamples log10 imsi (evs ++ [ev]) =
  dbSamples log10 imsi evs ++
  match sampleDb log10 imsi ev with Some sinrDb => [sinrDb] | None => [] end.
Proof.
  unfold dbSamples. rewrite omap_app.
  f_equal; cbn; now destruct (sampleDb log10 imsi ev).
Qed.

Lemma run_history (evs : list Event) (imsi : Z) :
  historyOf (run log10 evs Globals_init) imsi
  = lastn 1000 (dbSamples log10 imsi evs).
Proof.
  induction evs as [|ev evs IH] using rev_ind.
  - reflexivity.
  - rewrite run_snoc, dispatch_history, dbSamples_snoc, IH.
    destruct (sampleDb log10 imsi ev) as [sinrDb|].
    + apply evictOldest_lastn.
    + now rewrite app_nil_r.
Qed.

(** C6: after any finite sequence of callbacks from the initial state
    the history of a UE holds at most 1000 entries, namely the most
    recent accepted samples in arrival order; a sample arriving on a full
    history evicts exactly the oldest entry. *)
Theorem sinr_history_bounded_fifo (evs : list Event) (imsi : Z) :
  let history := historyOf (run log10 evs Globals_init) imsi in
  (length history <= 1000)%nat /\
  history = lastn 1000 (dbSamples log10 imsi evs) /\
  (forall (g : Globals) (m_sinr : float),
     length (historyOf g imsi) = 1000%nat ->
     (0 <? m_sinr)%float = true ->
     historyOf (EnhancedSinrCallback log10 imsi m_sinr g) imsi
     = tail (historyOf g imsi) ++ [(10 * log10 m_sinr)%float]).
Proof.
  cbv zeta. rewrite run_history. split; [|split].
  - rewrite lastn_length. lia.
  - reflexivity.
  - intros g x Hfull Hx. rewrite sinr_accepted_history by exact Hx.
    now apply evictOldest_full.
Qed.

End Facts.

(** *** Closed instances *)

Lemma sinr_sample_update_witness :
  let log10 := fun x : float => x in
  let accepted := EnhancedSinrCallback log10 7 2 Globals_init in
  ((-3 <=? 0)%float = true /\ (0 <? 2)%float = true /\
   0 <= samples (metricsOf Globals_init 7) < 2 ^ 32 - 1) /\
  EnhancedSinrCallback log10 7 (-3) Globals_init = Globals_init /\
  sumSinrDb (metricsOf accepted 7)
  = (sumSinrDb (metricsOf Globals_init 7) + 10 * log10 2)%float /\
  samples (metricsOf accepted 7) = samples (metricsOf Globals_init 7) + 1 /\
  last (historyOf accepted 7) = Some (10 * log10 2)%float.
Proof.
  intros log10 accepted.
  assert (Hneg : (-3 <=? 0)%float = true) by reflexivity.
  assert (Hpos : (0 <? 2)%float = true) by reflexivity.
  assert (Hs : 0 <= samples (metricsOf Globals_init 7) < 2 ^ 32 - 1)
    by (change (samples (metricsOf Globals_init 7)) with 0;
        change (2 ^ 32) with 4294967296; lia).
  split; [auto|].
  pose proof (sinr_sample_update log10 7 (-3) Globals_init) as (Hign & _).
  pose proof (sinr_sample_update log10 7 2 Globals_init) as (_ & _ & Hacc & _).
  destruct (Hacc Hpos) as (Hsum & _ & Hinc & _ & _ & _ & _ & _ & _ & _ & _ & _ & Hlast).
  split; [exact (Hign Hneg) | split; [exact Hsum | split; [exact (Hinc Hs) | exact Hlast]]].
Defined.

Lemma sinr_history_bounded_fifo_witness :
  let log10 := fun x : float => x in
  (length (historyOf fullHistory 7) = 1000%nat /\ (0 <? 2)%float = true) /\
  historyOf (EnhancedSinrCallback log10 7 2 fullHistory) 7
  = tail (historyOf fullHistory 7) ++ [(10 * log10 2)%float].
Proof.
  intros log10.
  assert (Hfull : length (historyOf fullHistory 7) = 1000%nat)
    by (vm_compute; reflexivity).
  assert (Hpos : (0 <? 2)%float = true) by reflexivity.
  split; [auto|].
  exact (proj2 (proj2 (sinr_history_bounded_fifo log10 [] 7)) fullHistory 2%float Hfull Hpos).
Defined.

End TelemetryFacts.

(** ** Per-flow statistics and scores *)

Module ScoringFacts.
Import Double DoubleFacts Telemetry Traffic Scoring Samples.

Section Facts.

Variable Time : Type.
Variable Time_sub : Time -> Time -> Time.
Variable GetSeconds : Time -> float.
Variable counter_bits : Z.

Abbreviation FlowStats := (FlowStats Time).
Abbreviation lostPackets := (lostPackets Time counter_bits).
Abbreviation packetLossRatio := (packetLossRatio Time counter_bits).
Abbreviation flowDuration := (flowDuration Time Time_sub GetSeconds).
Abbreviation throughput := (throughput Time Time_sub GetSeconds).
Abbreviation meanDelay := (meanDelay Time GetSeconds).
Abbreviation meanJitter := (meanJitter Time GetSeconds).
Abbreviation flowQoE := (flowQoE Time Time_sub GetSeconds counter_bits).

(** *** QoE *)

Lemma qoeScore_range (isEmbb : bool) (thr delay loss jitter : float) :
  (0 <=? qoeScore isEmbb thr delay loss jitter)%float = true /\
  (qoeScore isEmbb thr delay loss jitter <=? 100)%float = true.
Proof. unfold qoeScore. cbv zeta. apply clamp_0_100_range. Qed.

(** C1: the QoE score of a flow starts at 100, is multiplied in sequence
    by one factor per strictly violated threshold (URLLC: 5/meanDelay
    above 5 ms, 0.1/lossRatio above 0.1 %, 2/meanJitter above 2 ms; eMBB:
    throughput/25 below 25 Mbps, 20/meanDelay above 20 ms, 1/lossRatio
    above 1 %) and is then clamped to [0, 100].  A mean delay of exactly
    5 ms triggers no delay penalty, and the URLLC flow with 1000 packets
    sent and received, 5 s of summed delay and no jitter scores 100. *)
Theorem qoe_strict_threshold_penalties
  (class : TrafficClass) (thr delay loss jitter : float) (fs : FlowStats) :
  qoeScore (isEmbbOf class) thr delay loss jitter
  = spec_score (spec_qoePenalties class thr delay loss jitter) /\
  ((0 <=? qoeScore (isEmbbOf class) thr delay loss jitter)%float = true /\
   (qoeScore (isEmbbOf class) thr delay loss jitter <=? 100)%float = true) /\
  qoeScore (isEmbbOf URLLC) thr 5 loss jitter
  = spec_score [((0.1 <? loss)%float, (0.1 / loss)%float);
             ((2 <? jitter)%float, (2 / jitter)%float)] /\
  (txPackets Time fs = 1000 -> rxPackets Time fs = 1000 ->
   GetSeconds (delaySum Time fs) = 5%float ->
   GetSeconds (jitterSum Time fs) = 0%float ->
   meanDelay fs = 5%float /\
   (5 <? meanDelay fs)%float = false /\
   flowQoE false fs = 100%float).
Proof.
  split; [|split; [|split]].
  - destruct class; reflexivity.
  - apply qoeScore_range.
  - reflexivity.
  - intros Htx Hrx Hd Hj.
    assert (Hmd : meanDelay fs = 5%float)
      by (unfold Scoring.meanDelay; rewrite Hrx, Hd; vm_compute; reflexivity).
    split; [exact Hmd | split; [rewrite Hmd; reflexivity|]].
    unfold Scoring.flowQoE. rewrite Hmd.
    unfold Scoring.packetLossRatio, Scoring.lostPackets, Scoring.meanJitter.
    rewrite Htx, Hrx, Hj. vm_compute. reflexivity.
Qed.

(** *** Reliability *)

Lemma reliabilityScore_range (chanMetrics : ChannelMetrics) (avg : float) :
  (0 <=? reliabilityScore chanMetrics avg)%float = true /\
  (reliabilityScore chanMetrics avg <=? 100)%float = true.
Proof. unfold reliabilityScore. cbv zeta. apply clamp_0_100_range. Qed.

(** C2 (amended): for a UE with at least one recorded SINR sample the
    reliability score starts at 100, is multiplied by 20/(maxSinr -
    minSinr) when that range exceeds 20 dB and by avgSinr/10 when the
    average is below 10 dB (a negative product included), and is clamped
    to [0, 100]; for a UE with no sample both penalties are skipped and
    the score is 100.  The score always lies in [0, 100]. *)
Theorem reliability_penalties_need_samples (chanMetrics : ChannelMetrics) :
  (0 < samples chanMetrics ->
   flowReliability chanMetrics
   = spec_score (spec_reliabilityPenalties (minSinr chanMetrics) (maxSinr chanMetrics)
                                   (avgSinr chanMetrics))) /\
  (samples chanMetrics <= 0 -> flowReliability chanMetrics = 100%float) /\
  ((0 <=? flowReliability chanMetrics)%float = true /\
   (flowReliability chanMetrics <=? 100)%float = true) /\
  (let negative := mkChannelMetrics (-50) 0 0 10 (-2) (-8) in
   avgSinr negative = (-5)%float /\ flowReliability negative = 0%float).
Proof.
  split; [|split; [|split]].
  - intros Hs. unfold flowReliability, reliabilityScore.
    replace (0 <? samples chanMetrics) with true by (symmetry; now apply Z.ltb_lt).
    reflexivity.
  - intros Hs. unfold flowReliability, reliabilityScore.
    replace (0 <? samples chanMetrics) with false by (symmetry; now apply Z.ltb_ge).
    reflexivity.
  - apply reliabilityScore_range.
  - split; vm_compute; reflexivity.
Qed.

(** *** Guards on the denominators *)

(** C7: every derived per-flow ratio is a total function of the counters
    and takes the value 0 where its denominator would be zero: the loss
    ratio without transmitted packets, the throughput without received
    packets or with a duration that is not above zero, the mean delay
    without received packets, the mean jitter with at most one received
    packet (and jitterSum/(rxPackets - 1) * 1000 otherwise), the average
    SINR without samples and the SINR deviation with at most one history
    entry. *)
Theorem flow_ratios_guard_zero_denominators
  (fs : FlowStats) (chanMetrics : ChannelMetrics) (history : list float) :
  (txPackets Time fs = 0 -> packetLossRatio fs = 0%float) /\
  (rxPackets Time fs = 0 ->
   throughput fs = 0%float /\ meanDelay fs = 0%float /\ meanJitter fs = 0%float) /\
  ((flowDuration fs <=? 0)%float = true -> throughput fs = 0%float) /\
  (1 < rxPackets Time fs ->
   meanJitter fs
   = (GetSeconds (jitterSum Time fs) / Z_to_double (rxPackets Time fs - 1) * 1000)%float) /\
  (rxPackets Time fs <= 1 -> meanJitter fs = 0%float) /\
  (0 < rxPackets Time fs ->
   meanDelay fs
   = (GetSeconds (delaySum Time fs) / Z_to_double (rxPackets Time fs) * 1000)%float) /\
  (0 < rxPackets Time fs -> (0 <? flowDuration fs)%float = true ->
   throughput fs
   = (Z_to_double (rxBytes Time fs) * 8 / (flowDuration fs * 1e6))%float) /\
  (samples chanMetrics = 0 -> avgSinr chanMetrics = 0%float) /\
  ((length history <= 1)%nat ->
   sinrStdDev history (avgSinr chanMetrics) = 0%float).
Proof.
  unfold Scoring.packetLossRatio, Scoring.throughput, Scoring.meanDelay,
    Scoring.meanJitter, avgSinr, sinrStdDev.
  split; [|split; [|split; [|split; [|split; [|split; [|split; [|split]]]]]]].
  - intros ->. reflexivity.
  - intros ->. repeat split.
  - intros Hd. apply leb_ltb_false in Hd. rewrite Hd.
    now destruct (0 <? rxPackets Time fs).
  - intros Hrx.
    replace (0 <? rxPackets Time fs) with true by (symmetry; apply Z.ltb_lt; lia).
    replace (1 <? rxPackets Time fs) with true by (symmetry; apply Z.ltb_lt; lia).
    reflexivity.
  - intros Hrx.
    replace (1 <? rxPackets Time fs) with false by (symmetry; apply Z.ltb_ge; lia).
    now destruct (0 <? rxPackets Time fs).
  - intros Hrx.
    replace (0 <? rxPackets Time fs) with true by (symmetry; apply Z.ltb_lt; lia).
    reflexivity.
  - intros Hrx Hd.
    replace (0 <? rxPackets Time fs) with true by (symmetry; apply Z.ltb_lt; lia).
    now rewrite Hd.
  - intros ->. reflexivity.
  - intros Hl.
    replace (1 <? length history)%nat with false
      by (symmetry; apply Nat.ltb_ge; lia).
    reflexivity.
Qed.

(** *** The lost-packet count *)

(** The double [100.0]. *)
Lemma Prim2SF_100 : Prim2SF 100 = binary_normalize prec emax 100 0 false.
Proof. reflexivity. Qed.

Lemma binary_normalize_100 :
  binary_normalize prec emax 100 0 false = S754_finite false 7036874417766400 (-46).
Proof. reflexivity. Qed.

(** With counters of at most 32 bits the product [100.0 * lost] is exact
    in double arithmetic, and the rounded quotient by a smaller
    [txPackets] compares above 100. *)
Lemma loss_quotient_above_100 (lost tx : Z) :
  0 < tx -> tx < lost -> lost < 2 ^ 32 ->
  (100 <? 100 * Z_to_double lost / Z_to_double tx)%float = true.
Proof.
  intros Hpos Hlt H32.
  assert (P32 : 2 ^ 32 = 4294967296) by reflexivity.
  assert (P53 : 2 ^ 53 = 9007199254740992) by reflexivity.
  assert (P63 : 2 ^ 63 = 9223372036854775808) by reflexivity.
  rewrite ltb_spec, div_spec, mul_spec.
  rewrite !Prim2SF_Z_to_double by lia.
  rewrite Prim2SF_100.
  rewrite SFmul_exact_int by lia.
  rewrite binary_normalize_100.
  apply SFdiv_int_above_100; lia.
Qed.

(** C10 (amended): the difference [txPackets - rxPackets] is taken in the
    unsigned type of the counters, of [counter_bits] bits.  With more
    packets received than sent it wraps to
    [2 ^ counter_bits + txPackets - rxPackets], which exceeds
    [txPackets]; then, when [txPackets > 0], the loss ratio is the double
    quotient 100 * lost / tx of a count above [txPackets], and with
    counters of at most 32 bits that double compares above 100; when
    [txPackets = 0] the guard makes the loss ratio 0.  With
    [rxPackets <= txPackets] nothing wraps and the count is the plain
    difference, between 0 and [txPackets]. *)
Theorem lost_packets_wrap (fs : FlowStats) :
  let tx := txPackets Time fs in
  let rx := rxPackets Time fs in
  0 <= counter_bits -> 0 <= tx < 2 ^ counter_bits -> 0 <= rx < 2 ^ counter_bits ->
  lostPackets fs = (tx - rx) mod 2 ^ counter_bits /\
  (tx < rx ->
   lostPackets fs = 2 ^ counter_bits + tx - rx /\
   tx < lostPackets fs /\
   (0 < tx ->
    100 * tx < 100 * lostPackets fs /\
    packetLossRatio fs
    = (100 * Z_to_double (lostPackets fs) / Z_to_double tx)%float /\
    (counter_bits <= 32 -> (100 <? packetLossRatio fs)%float = true)) /\
   (tx = 0 -> packetLossRatio fs = 0%float)) /\
  (rx <= tx -> lostPackets fs = tx - rx /\ 0 <= lostPackets fs <= tx).
Proof.
  cbv zeta. intros Hb Htx Hrx.
  unfold Scoring.packetLossRatio, Scoring.lostPackets, wrap.
  split; [reflexivity | split].
  - intros Hlt.
    assert (E : (txPackets Time fs - rxPackets Time fs) mod 2 ^ counter_bits
                = 2 ^ counter_bits + txPackets Time fs - rxPackets Time fs).
    { symmetry. apply (Z.mod_unique _ _ (-1)); lia. }
    rewrite E. split; [reflexivity | split; [lia | split]].
    + intros Hpos.
      replace (0 <? txPackets Time fs) with true by (symmetry; apply Z.ltb_lt; lia).
      split; [lia | split; [reflexivity|]].
      intros H32.
      assert (2 ^ counter_bits <= 2 ^ 32) by (apply Z.pow_le_mono_r; lia).
      apply loss_quotient_above_100; lia.
    + intros H0. rewrite H0. reflexivity.
  - intros Hle. rewrite Z.mod_small by lia. lia.
Qed.

End Facts.

(** *** Closed instances *)

Lemma qoe_strict_threshold_penalties_witness :
  let fs := mkFlowStats Z 1000 1000 100000 5000000000 0 0 10000000000 in
  (txPackets Z fs = 1000 /\ rxPackets Z fs = 1000 /\
   nsSeconds (delaySum Z fs) = 5%float /\ nsSeconds (jitterSum Z fs) = 0%float) /\
  meanDelay Z nsSeconds fs = 5%float /\
  (5 <? meanDelay Z nsSeconds fs)%float = false /\
  flowQoE Z Z.sub nsSeconds 32 false fs = 100%float.
Proof.
  intros fs.
  assert (Htx : txPackets Z fs = 1000) by reflexivity.
  assert (Hrx : rxPackets Z fs = 1000) by reflexivity.
  assert (Hd : nsSeconds (delaySum Z fs) = 5%float) by (vm_compute; reflexivity).
  assert (Hj : nsSeconds (jitterSum Z fs) = 0%float) by (vm_compute; reflexivity).
  split; [auto|].
  exact (proj2 (proj2 (proj2
           (qoe_strict_threshold_penalties Z Z.sub nsSeconds 32 URLLC 0 0 0 0 fs)))
           Htx Hrx Hd Hj).
Defined.

Lemma reliability_penalties_need_samples_witness :
  let chanMetrics := mkChannelMetrics 30 0 0 4 30 (-5) in
  0 < samples chanMetrics /\
  flowReliability chanMetrics
  = spec_score (spec_reliabilityPenalties (minSinr chanMetrics) (maxSinr chanMetrics)
                                  (avgSinr chanMetrics)) /\
  (samples ChannelMetrics_init <= 0 /\
   flowReliability ChannelMetrics_init = 100%float).
Proof.
  intros chanMetrics.
  assert (Hs : 0 < samples chanMetrics) by reflexivity.
  assert (H0 : samples ChannelMetrics_init <= 0) by (cbn; lia).
  split; [exact Hs | split].
  - exact (proj1 (reliability_penalties_need_samples chanMetrics) Hs).
  - split; [exact H0|].
    exact (proj1 (proj2 (reliability_penalties_need_samples ChannelMetrics_init)) H0).
Defined.

(** C2 as stated fails on a UE without samples: the recipe of the claim,
    applied to the default metrics (average 0 dB, below 10 dB), yields 0,
    while the code skips both penalties and scores 100. *)
Lemma reliability_without_samples_is_100 :
  samples ChannelMetrics_init = 0 /\
  avgSinr ChannelMetrics_init = 0%float /\
  spec_score (spec_reliabilityPenalties (minSinr ChannelMetrics_init)
                                (maxSinr ChannelMetrics_init)
                                (avgSinr ChannelMetrics_init)) = 0%float /\
  flowReliability ChannelMetrics_init = 100%float.
Proof. repeat split; vm_compute; reflexivity. Qed.

Lemma flow_ratios_guard_zero_denominators_witness :
  let idle := mkFlowStats Z 0 0 0 0 0 0 0 in
  let busy := mkFlowStats Z 10 3 4200 30000000 4000000 1000000000 3000000000 in
  (packetLossRatio Z 32 idle = 0%float /\
   throughput Z Z.sub nsSeconds idle = 0%float /\
   meanDelay Z nsSeconds idle = 0%float /\
   meanJitter Z nsSeconds idle = 0%float) /\
  (1 < rxPackets Z busy /\
   meanJitter Z nsSeconds busy
   = (nsSeconds (jitterSum Z busy) / Z_to_double (rxPackets Z busy - 1) * 1000)%float).
Proof.
  intros idle busy.
  pose proof (flow_ratios_guard_zero_denominators Z Z.sub nsSeconds 32 idle
                ChannelMetrics_init []) as (Hl & Hrx & _).
  pose proof (flow_ratios_guard_zero_denominators Z Z.sub nsSeconds 32 busy
                ChannelMetrics_init []) as (_ & _ & _ & Hj & _).
  assert (H1 : 1 < rxPackets Z busy) by reflexivity.
  destruct (Hrx eq_refl) as (Ht & Hd & Hjit).
  split; [split; [exact (Hl eq_refl) | split; [exact Ht | split; [exact Hd | exact Hjit]]]|].
  split; [exact H1 | exact (Hj H1)].
Defined.

Lemma lost_packets_wrap_witness :
  let fs := mkFlowStats unit 1000 1001 0 tt tt tt tt in
  (0 <= 32 /\ 0 <= txPackets unit fs < 2 ^ 32 /\ 0 <= rxPackets unit fs < 2 ^ 32 /\
   txPackets unit fs < rxPackets unit fs /\ 0 < txPackets unit fs) /\
  lostPackets unit 32 fs = 2 ^ 32 + 1000 - 1001 /\
  100 * 1000 < 100 * lostPackets unit 32 fs /\
  packetLossRatio unit 32 fs
  = (100 * Z_to_double (lostPackets unit 32 fs) / Z_to_double 1000)%float /\
  (100 <? packetLossRatio unit 32 fs)%float = true.
Proof.
  intros fs.
  assert (Hb : 0 <= 32) by lia.
  assert (Htx : 0 <= txPackets unit fs < 2 ^ 32)
    by (change (2 ^ 32) with 4294967296; cbn; lia).
  assert (Hrx : 0 <= rxPackets unit fs < 2 ^ 32)
    by (change (2 ^ 32) with 4294967296; cbn; lia).
  assert (Hlt : txPackets unit fs < rxPackets unit fs) by (cbn; lia).
  assert (Hpos : 0 < txPackets unit fs) by (cbn; lia).
  split; [auto|].
  destruct (lost_packets_wrap unit 32 fs Hb Htx Hrx) as (_ & Hw & _).
  destruct (Hw Hlt) as (E & _ & Hq & _).
  destruct (Hq Hpos) as (Hgt & Hr & Habove).
  assert (H32 : 32 <= 32) by lia.
  split; [exact E | split; [exact Hgt | split; [exact Hr | exact (Habove H32)]]].
Defined.

(** C10 as stated fails.  With no packet sent and one received the count
    wraps to an enormous value at either width, yet the guard on
    [txPackets] makes the loss ratio 0, not a value above 100 %; at the
    32-bit width of the ns-3 counters the count is 2^32 - 1, not
    (0 - 1) mod 2^64; and at 64 bits, with 2^63 packets sent and
    2^64 - 1 received, the count 2^63 + 1 exceeds [txPackets] but the
    double quotient rounds to exactly 100. *)
Lemma lost_packets_wrap_ratio_zero :
  let fs := mkFlowStats unit 0 1 0 tt tt tt tt in
  let big := mkFlowStats unit 9223372036854775808 18446744073709551615
                         0 tt tt tt tt in
  txPackets unit fs < rxPackets unit fs /\
  (lostPackets unit 64 fs = 18446744073709551615 /\
   packetLossRatio unit 64 fs = 0%float /\
   (100 <? packetLossRatio unit 64 fs)%float = false) /\
  (lostPackets unit 32 fs = 4294967295 /\
   lostPackets unit 32 fs <> (0 - 1) mod 2 ^ 64 /\
   packetLossRatio unit 32 fs = 0%float /\
   (100 <? packetLossRatio unit 32 fs)%float = false) /\
  (0 < txPackets unit big < rxPackets unit big /\
   rxPackets unit big < 2 ^ 64 /\
   lostPackets unit 64 big = 9223372036854775809 /\
   txPackets unit big < lostPackets unit 64 big /\
   packetLossRatio unit 64 big = 100%float /\
   (100 <? packetLossRatio unit 64 big)%float = false).
Proof.
  cbv zeta. split; [cbn; lia|].
  split; [|split]; repeat split; try (vm_compute; reflexivity).
  vm_compute. discriminate.
Qed.

End ScoringFacts.

(** ** Per-cell statistics *)

Module CellStatsFacts.
Import Double DoubleFacts CellStats Samples.

(** The running maximum of lines 714-717, from any comparable start. *)
Lemma fold_max_spec (l : list (Z * CellSummary)) :
  forall acc : float,
    (acc <=? acc)%float = true ->
    let r := fold_left
               (fun maxCellThroughput cellStat =>
                  std_max maxCellThroughput (totalThroughput cellStat.2))
               l acc in
    (acc <=? r)%float = true /\
    (forall e, e ∈ l -> (r <? totalThroughput e.2)%float = false) /\
    (r = acc \/ exists e, e ∈ l /\ totalThroughput e.2 = r).
Proof.
  induction l as [|e l IH]; intros acc Hacc; cbn [fold_left]; cbv zeta.
  - split; [exact Hacc | split; [|now left]].
    intros e He. now apply elem_of_nil in He.
  - set (t := totalThroughput e.2).
    set (acc1 := std_max acc t).
    assert (H1 : (acc1 <=? acc1)%float = true /\ (acc <=? acc1)%float = true).
    { unfold acc1, std_max. destruct (acc <? t)%float eqn:Hlt.
      - split; [now apply (ltb_leb_refl acc) | now apply ltb_leb].
      - now split. }
    destruct H1 as [Hrefl Hle].
    destruct (IH acc1 Hrefl) as (Hge & Hub & Hatt). cbv zeta in Hge, Hub, Hatt.
    set (r := fold_left _ l acc1) in *.
    split; [now apply (leb_trans acc acc1) | split].
    + intros e' He'. apply elem_of_cons in He' as [-> | He']; [|now apply Hub].
      fold t. unfold acc1, std_max in Hge.
      destruct (acc <? t)%float eqn:Hlt.
      * now apply leb_ltb_false.
      * destruct (r <? t)%float eqn:Hrt; [|reflexivity].
        rewrite (leb_ltb_trans acc r t Hge Hrt) in Hlt. discriminate.
    + destruct Hatt as [Hr | (e' & He' & Hr)].
      * unfold acc1, std_max in Hr. destruct (acc <? t)%float.
        -- right. exists e. split; [apply list_elem_of_here | now rewrite Hr].
        -- now left.
      * right. exists e'. split; [now apply list_elem_of_further | exact Hr].
Qed.

Lemma elem_of_entries (cellSummaries : gmap Z CellSummary) (e : Z * CellSummary) :
  e ∈ entries cellSummaries <-> cellSummaries !! e.1 = Some e.2.
Proof.
  unfold entries. rewrite merge_sort_Permutation.
  destruct e as [c s]. apply elem_of_map_to_list.
Qed.

(** C8 (amended): the LoadBalance of a cell is
    [cellThroughput / maxCellThroughput * 100] in double arithmetic when
    the maximum is above zero and 0 otherwise; [maxCellThroughput] is an
    upper bound of the throughput of every cell, attained by some cell
    unless it is 0; the cell attaining a positive finite maximum gets
    exactly 100; and when no cell has a throughput above zero every cell,
    the busiest included, gets 0. *)
Theorem load_balance_of_busiest_cell (cellSummaries : gmap Z CellSummary) :
  let mx := maxCellThroughput cellSummaries in
  (forall cellId,
     loadBalance cellSummaries cellId =
     if (0 <? mx)%float
     then (totalThroughput (default CellSummary_init (cellSummaries !! cellId))
           / mx * 100)%float
     else 0%float) /\
  (0 <=? mx)%float = true /\
  (forall cellId summary,
     cellSummaries !! cellId = Some summary ->
     (mx <? totalThroughput summary)%float = false) /\
  (mx = 0%float \/
   exists cellId summary,
     cellSummaries !! cellId = Some summary /\ totalThroughput summary = mx) /\
  (forall cellId summary,
     cellSummaries !! cellId = Some summary ->
     totalThroughput summary = mx ->
     finite_positive mx = true ->
     loadBalance cellSummaries cellId = 100%float) /\
  ((0 <? mx)%float = false ->
   forall cellId, loadBalance cellSummaries cellId = 0%float).
Proof.
  cbv zeta.
  destruct (fold_max_spec (entries cellSummaries) 0%float eq_refl)
    as (Hge & Hub & Hatt). cbv zeta in Hge, Hub, Hatt.
  fold (maxCellThroughput cellSummaries) in Hge, Hub, Hatt.
  split; [reflexivity | split; [exact Hge | split; [|split; [|split]]]].
  - intros c s Hc. apply (Hub (c, s)). now apply elem_of_entries.
  - destruct Hatt as [H0 | ([c s] & He & Ht)]; [now left | right].
    exists c, s. split; [now apply elem_of_entries in He | exact Ht].
  - intros c s Hc Ht Hpos. unfold loadBalance. rewrite Hc.
    cbv beta iota zeta delta [from_option id]. rewrite Ht.
    assert (H0 : (0 <? maxCellThroughput cellSummaries)%float = true)
      by (unfold finite_positive in Hpos; now apply andb_prop in Hpos as [? _]).
    rewrite H0, div_self by exact Hpos. reflexivity.
  - intros H0 c. unfold loadBalance. cbv zeta. now rewrite H0.
Qed.

Lemma load_balance_of_busiest_cell_witness :
  let busiest := mkCellSummary 60 0 0 0 0 0 QoEMetrics_init in
  (twoCells !! 1 = Some busiest /\
   totalThroughput busiest = maxCellThroughput twoCells /\
   finite_positive (maxCellThroughput twoCells) = true) /\
  loadBalance twoCells 1 = 100%float.
Proof.
  intros busiest.
  assert (Hc : twoCells !! 1 = Some busiest) by (vm_compute; reflexivity).
  assert (Ht : totalThroughput busiest = maxCellThroughput twoCells)
    by (vm_compute; reflexivity).
  assert (Hp : finite_positive (maxCellThroughput twoCells) = true)
    by (vm_compute; reflexivity).
  split; [auto|].
  exact (proj1 (proj2 (proj2 (proj2 (proj2 (load_balance_of_busiest_cell twoCells)))))
           1 busiest Hc Ht Hp).
Defined.

(** C8 as stated fails when no cell carried traffic: cell 0 attains the
    maximum total throughput, 0, and its LoadBalance is 0, not 100. *)
Lemma load_balance_zero_when_idle :
  let cellSummaries : gmap Z CellSummary := {[ 0 := CellSummary_init ]} in
  cellSummaries !! 0 = Some CellSummary_init /\
  totalThroughput CellSummary_init = maxCellThroughput cellSummaries /\
  loadBalance cellSummaries 0 = 0%float /\
  (loadBalance cellSummaries 0 <? 100)%float = true.
Proof. cbv zeta. repeat split; vm_compute; reflexivity. Qed.

End CellStatsFacts.

(** ** Runs of the telemetry callbacks *)

Module TraceFacts.
Import Double DoubleFacts Telemetry Traces SystemReport Scenarios.

Lemma wrap_succ (n : Z) : wrap 32 (wrap 32 n + 1) = wrap 32 (n + 1).
Proof. unfold wrap. rewrite Zplus_mod_idemp_l. reflexivity. Qed.

Lemma filter_snoc {A} (P : A -> bool) (l : list A) (x : A) :
  filter P (l ++ [x]) = filter P l ++ (if P x then [x] else []).
Proof.
  rewrite filter_app. f_equal. rewrite filter_cons, filter_nil.
  destruct (P x); reflexivity.
Qed.

Lemma count32_snoc (kind : Event -> bool) (evs : list Event) (ev : Event) :
  count32 kind (evs ++ [ev]) =
  if kind ev then wrap 32 (count32 kind evs + 1) else count32 kind evs.
Proof.
  unfold count32. rewrite filter_snoc. destruct (kind ev).
  - rewrite length_app, wrap_succ. cbn [length]. f_equal. lia.
  - now rewrite app_nil_r.
Qed.

Lemma omap_snoc {A B} (f : A -> option B) (l : list A) (x : A) :
  omap f (l ++ [x]) = omap f l ++ match f x with Some y => [y] | None => [] end.
Proof. rewrite omap_app. f_equal; cbn; now destruct (f x). Qed.

Lemma sumFrom_snoc (start : float) (values : list float) (v : float) :
  sumFrom start (values ++ [v]) = (sumFrom start values + v)%float.
Proof. unfold sumFrom. now rewrite fold_left_app. Qed.

Section Facts.

Variable log10 : float -> float.

(** *** The handover counters *)

Lemma dispatch_counters (g : Globals) (ev : Event) :
  g_handoverAttempts (dispatch log10 g ev)
  = (if isHandoverStart ev then wrap 32 (g_handoverAttempts g + 1)
     else g_handoverAttempts g) /\
  g_handoverSuccess (dispatch log10 g ev)
  = (if isHandoverSuccess ev then wrap 32 (g_handoverSuccess g + 1)
     else g_handoverSuccess g) /\
  g_handoverFailures (dispatch log10 g ev)
  = (if isHandoverFailure ev then wrap 32 (g_handoverFailures g + 1)
     else g_handoverFailures g).
Proof.
  destruct ev as [i x| | | | |]; cbn; try (repeat split; reflexivity).
  unfold EnhancedSinrCallback. destruct (0 <? x)%float; repeat split; reflexivity.
Qed.

(** X1: after any sequence of callbacks from the initial state each
    handover counter holds the number of events of its kind, modulo
    2^32; no other callback touches the counters.  With no handover
    start in the trace the success rate of the system report is 0,
    whatever the number of successes recorded. *)
Theorem handover_counters_count_events (evs : list Event) :
  let g := run log10 evs Globals_init in
  g_handoverAttempts g = count32 isHandoverStart evs /\
  g_handoverSuccess g = count32 isHandoverSuccess evs /\
  g_handoverFailures g = count32 isHandoverFailure evs /\
  (filter isHandoverStart evs = [] -> handoverSuccessRate g = 0%float).
Proof.
  cbv zeta.
  assert (H : g_handoverAttempts (run log10 evs Globals_init)
              = count32 isHandoverStart evs /\
              g_handoverSuccess (run log10 evs Globals_init)
              = count32 isHandoverSuccess evs /\
              g_handoverFailures (run log10 evs Globals_init)
              = count32 isHandoverFailure evs).
  { induction evs as [|ev evs IH] using rev_ind.
    - repeat split; reflexivity.
    - destruct IH as (IHa & IHs & IHf).
      rewrite TelemetryFacts.run_snoc, !count32_snoc.
      destruct (dispatch_counters (run log10 evs Globals_init) ev)
        as (-> & -> & ->).
      rewrite IHa, IHs, IHf. repeat split; reflexivity. }
  destruct H as (Ha & Hs & Hf).
  split; [exact Ha | split; [exact Hs | split; [exact Hf|]]].
  intros Hnone. unfold handoverSuccessRate. rewrite Ha.
  unfold count32. rewrite Hnone. reflexivity.
Qed.

(** *** What the SINR statistics depend on *)

(** The part of the state of a UE that [EnhancedSinrCallback] writes. *)
Lemma dispatch_sinr_view (g g' : Globals) (ev : Event) (imsi : Z) :
  sumSinrDb (metricsOf g imsi) = sumSinrDb (metricsOf g' imsi) ->
  samples (metricsOf g imsi) = samples (metricsOf g' imsi) ->
  maxSinr (metricsOf g imsi) = maxSinr (metricsOf g' imsi) ->
  minSinr (metricsOf g imsi) = minSinr (metricsOf g' imsi) ->
  historyOf g imsi = historyOf g' imsi ->
  isSinrSample ev = true ->
  let d := dispatch log10 g ev in
  let d' := dispatch log10 g' ev in
  sumSinrDb (metricsOf d imsi) = sumSinrDb (metricsOf d' imsi) /\
  samples (metricsOf d imsi) = samples (metricsOf d' imsi) /\
  maxSinr (metricsOf d imsi) = maxSinr (metricsOf d' imsi) /\
  minSinr (metricsOf d imsi) = minSinr (metricsOf d' imsi) /\
  historyOf d imsi = historyOf d' imsi.
Proof.
  intros Hsum Hn Hmax Hmin Hh Hev. cbv zeta.
  destruct ev as [i x| | | | |]; try discriminate. cbn [dispatch].
  destruct (0 <? x)%float eqn:Hx.
  - destruct (decide (i = imsi)) as [->|Hne].
    + rewrite !TelemetryFacts.sinr_accepted_metrics,
        !TelemetryFacts.sinr_accepted_history by exact Hx.
      cbv zeta. cbn [sumSinrDb samples maxSinr minSinr].
      rewrite Hsum, Hn, Hmax, Hmin, Hh. repeat split; reflexivity.
    + destruct (TelemetryFacts.sinr_other_ue log10 i imsi x g) as [-> ->];
        [congruence|].
      destruct (TelemetryFacts.sinr_other_ue log10 i imsi x g') as [-> ->];
        [congruence|].
      repeat split; assumption.
  - rewrite !TelemetryFacts.sinr_ignored by exact Hx. repeat split; assumption.
Qed.

Lemma metricsOf_insert (g : gmap Z ChannelMetrics) (i imsi : Z)
  (m : ChannelMetrics) :
  default ChannelMetrics_init (<[i := m]> g !! imsi)
  = if decide (i = imsi) then m else default ChannelMetrics_init (g !! imsi).
Proof.
  destruct (decide (i = imsi)) as [->|Hne].
  - now rewrite lookup_insert_eq.
  - now rewrite lookup_insert_ne.
Qed.

Lemma metricsOf_rsrp (g : Globals) (i c imsi : Z) (x : float) :
  metricsOf (RsrpCallback i c x g) imsi
  = if decide (i = imsi)
    then {| sumSinrDb := sumSinrDb (metricsOf g i);
            sumRsrpDbm := (sumRsrpDbm (metricsOf g i) + x)%float;
            sumRsrqDb := sumRsrqDb (metricsOf g i);
            samples := samples (metricsOf g i);
            maxSinr := maxSinr (metricsOf g i);
            minSinr := minSinr (metricsOf g i) |}
    else metricsOf g imsi.
Proof.
  unfold RsrpCallback. unfold metricsOf at 1. cbn [g_channelMetrics].
  apply metricsOf_insert.
Qed.

Lemma metricsOf_rsrq (g : Globals) (i c imsi : Z) (x : float) :
  metricsOf (RsrqCallback i c x g) imsi
  = if decide (i = imsi)
    then {| sumSinrDb := sumSinrDb (metricsOf g i);
            sumRsrpDbm := sumRsrpDbm (metricsOf g i);
            sumRsrqDb := (sumRsrqDb (metricsOf g i) + x)%float;
            samples := samples (metricsOf g i);
            maxSinr := maxSinr (metricsOf g i);
            minSinr := minSinr (metricsOf g i) |}
    else metricsOf g imsi.
Proof.
  unfold RsrqCallback. unfold metricsOf at 1. cbn [g_channelMetrics].
  apply metricsOf_insert.
Qed.

Lemma dispatch_other_view (g : Globals) (ev : Event) (imsi : Z) :
  isSinrSample ev = false ->
  let d := dispatch log10 g ev in
  sumSinrDb (metricsOf d imsi) = sumSinrDb (metricsOf g imsi) /\
  samples (metricsOf d imsi) = samples (metricsOf g imsi) /\
  maxSinr (metricsOf d imsi) = maxSinr (metricsOf g imsi) /\
  minSinr (metricsOf d imsi) = minSinr (metricsOf g imsi) /\
  historyOf d imsi = historyOf g imsi.
Proof.
  intros Hev. cbv zeta.
  destruct ev as [i x|i c x|i c x| | |]; try discriminate;
    cbn [dispatch]; try (repeat split; reflexivity).
  - rewrite metricsOf_rsrp.
    destruct (decide (i = imsi)) as [->|Hne]; repeat split; reflexivity.
  - rewrite metricsOf_rsrq.
    destruct (decide (i = imsi)) as [->|Hne]; repeat split; reflexivity.
Qed.

(** X2: the SINR statistics of a UE (sum, sample count, maximum,
    minimum and history) after any sequence of callbacks are those the
    SINR samples of the sequence alone produce: RSRP, RSRQ and handover
    callbacks never change them. *)
Theorem sinr_statistics_ignore_other_events (evs : list Event) (g : Globals)
  (imsi : Z) :
  let all := run log10 evs g in
  let only := run log10 (filter isSinrSample evs) g in
  sumSinrDb (metricsOf all imsi) = sumSinrDb (metricsOf only imsi) /\
  samples (metricsOf all imsi) = samples (metricsOf only imsi) /\
  maxSinr (metricsOf all imsi) = maxSinr (metricsOf only imsi) /\
  minSinr (metricsOf all imsi) = minSinr (metricsOf only imsi) /\
  historyOf all imsi = historyOf only imsi.
Proof.
  cbv zeta. induction evs as [|ev evs IH] using rev_ind.
  - repeat split; reflexivity.
  - destruct IH as (IH1 & IH2 & IH3 & IH4 & IH5).
    rewrite filter_snoc, TelemetryFacts.run_snoc.
    destruct (isSinrSample ev) eqn:Hev.
    + rewrite TelemetryFacts.run_snoc.
      now apply dispatch_sinr_view.
    + rewrite app_nil_r.
      destruct (dispatch_other_view (run log10 evs g) ev imsi Hev)
        as (-> & -> & -> & -> & ->).
      repeat split; assumption.
Qed.

(** *** The RSRP and RSRQ sums *)

Lemma dispatch_rsrp (g : Globals) (ev : Event) (imsi : Z) :
  sumRsrpDbm (metricsOf (dispatch log10 g ev) imsi)
  = match rsrpOf imsi ev with
    | Some rsrp => (sumRsrpDbm (metricsOf g imsi) + rsrp)%float
    | None => sumRsrpDbm (metricsOf g imsi)
    end /\
  sumRsrqDb (metricsOf (dispatch log10 g ev) imsi)
  = match rsrqOf imsi ev with
    | Some rsrq => (sumRsrqDb (metricsOf g imsi) + rsrq)%float
    | None => sumRsrqDb (metricsOf g imsi)
    end.
Proof.
  destruct ev as [i x|i c x|i c x| | |]; cbn [dispatch rsrpOf rsrqOf];
    try (split; reflexivity).
  - destruct (0 <? x)%float eqn:Hx.
    + destruct (decide (i = imsi)) as [->|Hne].
      * rewrite TelemetryFacts.sinr_accepted_metrics by exact Hx.
        split; reflexivity.
      * destruct (TelemetryFacts.sinr_other_ue log10 i imsi x g) as [-> _];
          [congruence | split; reflexivity].
    + rewrite TelemetryFacts.sinr_ignored by exact Hx. split; reflexivity.
  - rewrite metricsOf_rsrp.
    destruct (decide (i = imsi)) as [->|Hne]; split; reflexivity.
  - rewrite metricsOf_rsrq.
    destruct (decide (i = imsi)) as [->|Hne]; split; reflexivity.
Qed.

(** X3: the RSRP and RSRQ sums of a UE accumulate, in arrival order and
    in double arithmetic, exactly the values reported for that UE; SINR
    samples, handover events and the reports of other UEs leave them as
    they are. *)
Theorem rsrp_rsrq_sums_accumulate (evs : list Event) (g : Globals) (imsi : Z) :
  sumRsrpDbm (metricsOf (run log10 evs g) imsi)
  = sumFrom (sumRsrpDbm (metricsOf g imsi)) (omap (rsrpOf imsi) evs) /\
  sumRsrqDb (metricsOf (run log10 evs g) imsi)
  = sumFrom (sumRsrqDb (metricsOf g imsi)) (omap (rsrqOf imsi) evs).
Proof.
  induction evs as [|ev evs [IHp IHq]] using rev_ind.
  - split; reflexivity.
  - rewrite TelemetryFacts.run_snoc, !omap_snoc.
    destruct (dispatch_rsrp (run log10 evs g) ev imsi) as [-> ->].
    rewrite IHp, IHq.
    split.
    + destruct (rsrpOf imsi ev) as [v|].
      * now rewrite sumFrom_snoc.
      * now rewrite app_nil_r.
    + destruct (rsrqOf imsi ev) as [v|].
      * now rewrite sumFrom_snoc.
      * now rewrite app_nil_r.
Qed.

(** *** Sample count, sum and envelope *)

Lemma dispatch_metrics (g : Globals) (ev : Event) (imsi : Z) :
  let m := metricsOf g imsi in
  let m' := metricsOf (dispatch log10 g ev) imsi in
  match sampleDb log10 imsi ev with
  | Some sinrDb =>
      samples m' = wrap 32 (samples m + 1) /\
      sumSinrDb m' = (sumSinrDb m + sinrDb)%float /\
      maxSinr m' = std_max (maxSinr m) sinrDb /\
      minSinr m' = std_min (minSinr m) sinrDb
  | None =>
      samples m' = samples m /\ sumSinrDb m' = sumSinrDb m /\
      maxSinr m' = maxSinr m /\ minSinr m' = minSinr m
  end.
Proof.
  cbv zeta. destruct (isSinrSample ev) eqn:Hev.
  - destruct ev as [i x| | | | |]; try discriminate. cbn [dispatch sampleDb].
    destruct (decide (i = imsi)) as [->|Hne].
    + destruct (0 <? x)%float eqn:Hx.
      * rewrite TelemetryFacts.sinr_accepted_metrics by exact Hx.
        repeat split; reflexivity.
      * rewrite TelemetryFacts.sinr_ignored by exact Hx.
        repeat split; reflexivity.
    + destruct (TelemetryFacts.sinr_other_ue log10 i imsi x g) as [-> _];
        [congruence | repeat split; reflexivity].
  - destruct (dispatch_other_view g ev imsi Hev) as (-> & -> & -> & -> & _).
    destruct ev as [i x| | | | |]; try discriminate; cbn [sampleDb];
      repeat split; reflexivity.
Qed.

(** X4: from the initial state, the sample count of a UE is the number
    of its accepted SINR samples modulo 2^32 and the SINR sum is their
    sum in arrival order, while the history keeps only the last 1000 of
    them.  The average SINR of the flow pass is therefore 0 when that
    count is 0 and otherwise the sum of all accepted samples divided by
    their count: with more than 1000 (and fewer than 2^32) accepted
    samples it divides by their number, not by the 1000 entries of the
    history. *)
Theorem sinr_count_and_sum_over_accepted (evs : list Event) (imsi : Z) :
  let g := run log10 evs Globals_init in
  let accepted := dbSamples log10 imsi evs in
  let count := wrap 32 (Z.of_nat (length accepted)) in
  samples (metricsOf g imsi) = count /\
  sumSinrDb (metricsOf g imsi) = sumFrom 0 accepted /\
  length (historyOf g imsi) = Nat.min 1000 (length accepted) /\
  Scoring.avgSinr (metricsOf g imsi)
  = (if 0 <? count
     then (sumFrom 0 accepted / Z_to_double count)%float
     else 0%float) /\
  ((1000 < length accepted)%nat -> Z.of_nat (length accepted) < 2 ^ 32 ->
   Scoring.avgSinr (metricsOf g imsi)
   = (sumFrom 0 accepted / Z_to_double (Z.of_nat (length accepted)))%float /\
   length (historyOf g imsi) = 1000%nat).
Proof.
  cbv zeta.
  assert (Hcount : samples (metricsOf (run log10 evs Globals_init) imsi)
                   = wrap 32 (Z.of_nat (length (dbSamples log10 imsi evs)))).
  { induction evs as [|ev evs IH] using rev_ind; [reflexivity|].
    rewrite TelemetryFacts.run_snoc, TelemetryFacts.dbSamples_snoc.
    pose proof (dispatch_metrics (run log10 evs Globals_init) ev imsi) as H.
    cbv zeta in H. destruct (sampleDb log10 imsi ev) as [d|].
    + destruct H as (-> & _). rewrite IH, wrap_succ, length_app.
      cbn [length]. f_equal. lia.
    + destruct H as (-> & _). now rewrite app_nil_r. }
  assert (Hsum : sumSinrDb (metricsOf (run log10 evs Globals_init) imsi)
                 = sumFrom 0 (dbSamples log10 imsi evs)).
  { clear Hcount. induction evs as [|ev evs IH] using rev_ind; [reflexivity|].
    rewrite TelemetryFacts.run_snoc, TelemetryFacts.dbSamples_snoc.
    pose proof (dispatch_metrics (run log10 evs Globals_init) ev imsi) as H.
    cbv zeta in H. destruct (sampleDb log10 imsi ev) as [d|].
    + destruct H as (_ & -> & _). now rewrite IH, sumFrom_snoc.
    + destruct H as (_ & -> & _). now rewrite app_nil_r. }
  assert (Hlen : length (historyOf (run log10 evs Globals_init) imsi)
                 = Nat.min 1000 (length (dbSamples log10 imsi evs))).
  { rewrite TelemetryFacts.run_history, TelemetryFacts.lastn_length. lia. }
  assert (Havg : Scoring.avgSinr (metricsOf (run log10 evs Globals_init) imsi)
                 = (if 0 <? wrap 32 (Z.of_nat (length (dbSamples log10 imsi evs)))
                    then (sumFrom 0 (dbSamples log10 imsi evs)
                          / Z_to_double (wrap 32 (Z.of_nat (length (dbSamples log10 imsi evs)))))%float
                    else 0%float)).
  { unfold Scoring.avgSinr. now rewrite Hcount, Hsum. }
  split; [exact Hcount | split; [exact Hsum | split; [exact Hlen | split; [exact Havg|]]]].
  intros Hmany Hfew. rewrite Havg, Hlen.
  unfold wrap. rewrite Z.mod_small by lia.
  replace (0 <? Z.of_nat (length (dbSamples log10 imsi evs))) with true
    by (symmetry; apply Z.ltb_lt; lia).
  split; [reflexivity | lia].
Qed.

(** X5: from the initial state, the recorded maximum of a UE is never
    below an accepted sample and the recorded minimum never above one
    (whatever [log10] returns, NaN included); the maximum is the initial
    -1000 or one of the accepted samples, and the minimum the initial
    1000 or one of them. *)
Theorem sinr_envelope_bounds_samples (evs : list Event) (imsi : Z) :
  let m := metricsOf (run log10 evs Globals_init) imsi in
  let accepted := dbSamples log10 imsi evs in
  (forall d, d ∈ accepted ->
     (maxSinr m <? d)%float = false /\ (d <? minSinr m)%float = false) /\
  (maxSinr m = (-1000)%float \/ maxSinr m ∈ accepted) /\
  (minSinr m = 1000%float \/ minSinr m ∈ accepted).
Proof.
  cbv zeta. induction evs as [|ev evs (IHb & IHmax & IHmin)] using rev_ind.
  - split; [|split; left; reflexivity].
    intros d Hd. cbn in Hd. now apply elem_of_nil in Hd.
  - rewrite TelemetryFacts.run_snoc, TelemetryFacts.dbSamples_snoc.
    pose proof (dispatch_metrics (run log10 evs Globals_init) ev imsi) as H.
    cbv zeta in H. destruct (sampleDb log10 imsi ev) as [s|].
    + destruct H as (_ & _ & -> & ->).
      set (mx := maxSinr (metricsOf (run log10 evs Globals_init) imsi)) in *.
      set (mn := minSinr (metricsOf (run log10 evs Globals_init) imsi)) in *.
      split; [|split].
      * intros d Hd. apply elem_of_app in Hd as [Hd | Hd].
        -- destruct (IHb d Hd) as [Hmx Hmn]. split.
           ++ unfold std_max. destruct (mx <? s)%float eqn:E; [|exact Hmx].
              destruct (s <? d)%float eqn:E'; [|reflexivity].
              rewrite (ltb_trans mx s d E E') in Hmx. discriminate.
           ++ unfold std_min. destruct (s <? mn)%float eqn:E; [|exact Hmn].
              destruct (d <? s)%float eqn:E'; [|reflexivity].
              rewrite (ltb_trans d s mn E' E) in Hmn. discriminate.
        -- apply list_elem_of_singleton in Hd as ->. split.
           ++ apply (TelemetryFacts.std_max_upper mx s).
           ++ apply (TelemetryFacts.std_min_lower mn s).
      * unfold std_max. destruct (mx <? s)%float.
        -- right. apply elem_of_app. right. apply list_elem_of_singleton. reflexivity.
        -- destruct IHmax as [?|?]; [now left | right].
           apply elem_of_app. now left.
      * unfold std_min. destruct (s <? mn)%float.
        -- right. apply elem_of_app. right. apply list_elem_of_singleton. reflexivity.
        -- destruct IHmin as [?|?]; [now left | right].
           apply elem_of_app. now left.
    + destruct H as (_ & _ & -> & ->). rewrite app_nil_r.
      split; [exact IHb | split; assumption].
Qed.

End Facts.

(** *** Closed instances *)

(** 1001 accepted samples of 20 dB ([log10] read as the identity on the
    ratio 2): the history holds 1000 of them, the average divides the
    sum by 1001. *)
Lemma sinr_count_and_sum_over_accepted_witness :
  let log10 := fun x : float => x in
  let evs := replicate 1001 (SinrSample 7 2) in
  let g := run log10 evs Globals_init in
  let accepted := dbSamples log10 7 evs in
  ((1000 < length accepted)%nat /\ Z.of_nat (length accepted) < 2 ^ 32) /\
  Scoring.avgSinr (metricsOf g 7)
  = (sumFrom 0 accepted / Z_to_double (Z.of_nat (length accepted)))%float /\
  length (historyOf g 7) = 1000%nat.
Proof.
  cbv zeta.
  assert (Hmany : (1000 < length (dbSamples (fun x : float => x) 7
                                    (replicate 1001 (SinrSample 7 2))))%nat)
    by (vm_compute; lia).
  assert (Hfew : Z.of_nat (length (dbSamples (fun x : float => x) 7
                                     (replicate 1001 (SinrSample 7 2)))) < 2 ^ 32)
    by (vm_compute; reflexivity).
  split; [split; [exact Hmany | exact Hfew]|].
  exact (proj2 (proj2 (proj2 (proj2
           (sinr_count_and_sum_over_accepted (fun x : float => x)
              (replicate 1001 (SinrSample 7 2)) 7)))) Hmany Hfew).
Defined.

End TraceFacts.

(** ** User placement *)

Module PlacementFacts.
Import Double DoubleFacts Layout Placement Tally Scenarios.

(** *** The scaled count *)

(** A product of two finite doubles whose mantissa product is a 53-bit
    number times a power of two is exact. *)
Lemma SFmul_exact_finite (mx my mp : positive) (ex ey t : Z) :
  2 ^ 52 <= Zpos mp < 2 ^ 53 -> 0 <= t ->
  Zpos (mx * my) = Zpos mp * 2 ^ t ->
  -1074 <= ex + ey + t <= 971 ->
  SF64mul (S754_finite false mx ex) (S754_finite false my ey)
  = S754_finite false mp (ex + ey + t).
Proof.
  intros Bmp Ht Et He.
  unfold SF64mul, SFmul. cbn [xorb].
  assert (Hpt : 0 < 2 ^ t) by (apply Z.pow_pos_nonneg; lia).
  assert (HD : Zdigits2 (Zpos (mx * my)) = 53 + t).
  { cbn [Zdigits2]. apply digits2_pos_unique. rewrite Et.
    replace (53 + t - 1) with (52 + t) by lia.
    rewrite !Z.pow_add_r by lia. nia. }
  destruct (binary_round_aux_exact_shape false (Zpos (mx * my)) (ex + ey) ltac:(lia))
    as (n & n' & mr & Hn & Hn' & Hmr & ->).
  rewrite HD, fexp_binary64 in Hn.
  assert (En : n = t) by lia. clear Hn. subst n.
  rewrite Et, Z.div_mul, Z.mod_mul in Hmr by lia.
  destruct Hmr as [-> | [_ Hne]]; [|congruence].
  assert (Dmp : Zdigits2 (Zpos mp) = 53)
    by (cbn [Zdigits2]; apply digits2_pos_unique; exact Bmp).
  rewrite Dmp, fexp_binary64 in Hn'.
  assert (En' : n' = 0) by lia. clear Hn'. subst n'.
  change (2 ^ 0) with 1. rewrite Z.div_1_r, Z.add_0_r.
  replace (ex + ey + t <=? emax - prec) with true
    by (symmetry; apply Z.leb_le; change (emax - prec) with 971; lia).
  reflexivity.
Qed.

Lemma Prim2SF_1_5 : Prim2SF 1.5 = S754_finite false 6755399441055744 (-52).
Proof. reflexivity. Qed.

(** [count * 1.5] is exact in double arithmetic for a 32-bit count, so
    the conversion back truncates the exact product. *)
Lemma scaleCount_spec (count : Z) :
  0 <= count < 2 ^ 31 -> scaleCount count = Some (3 * count / 2).
Proof.
  intros Hc.
  assert (P31 : 2 ^ 31 = 2147483648) by reflexivity.
  assert (P32 : 2 ^ 32 = 4294967296) by reflexivity.
  assert (P53 : 2 ^ 53 = 9007199254740992) by reflexivity.
  assert (P63 : 2 ^ 63 = 9223372036854775808) by reflexivity.
  destruct (Z.eq_dec count 0) as [->|Hne]; [reflexivity|].
  unfold scaleCount, double_to_uint.
  rewrite mul_spec, Prim2SF_Z_to_double, Prim2SF_1_5 by lia.
  destruct (binary_normalize_exact count ltac:(lia)) as (mu & su & Hsu & Emu & Bmu & ->).
  destruct (binary_normalize_exact (3 * count) ltac:(lia))
    as (mp & sp & Hsp & Emp & Bmp & _).
  assert (Hpsu : 0 < 2 ^ su) by (apply Z.pow_pos_nonneg; lia).
  assert (Hpsp : 0 < 2 ^ sp) by (apply Z.pow_pos_nonneg; lia).
  assert (Hle : sp <= su).
  { destruct (Z.le_gt_cases sp su) as [?|Hgt]; [assumption | exfalso].
    assert (H2 : 2 ^ (su + 1) <= 2 ^ sp) by (apply Z.pow_le_mono_r; lia).
    rewrite Z.pow_add_r in H2 by lia. change (2 ^ 1) with 2 in H2.
    clear - Emu Emp Bmu Bmp H2 Hpsu Hc Hne P53. nia. }
  assert (E51 : 6755399441055744 = 3 * 2 ^ 51) by reflexivity.
  assert (Et : Zpos (mu * 6755399441055744) = Zpos mp * 2 ^ (su + 51 - sp)).
  { assert (Hp : 2 ^ su * 2 ^ 51 = 2 ^ sp * 2 ^ (su + 51 - sp))
      by (rewrite <- !Z.pow_add_r by lia; f_equal; lia).
    rewrite Pos2Z.inj_mul, Emu, Emp, E51.
    transitivity (3 * count * (2 ^ su * 2 ^ 51)); [ring | rewrite Hp; ring]. }
  rewrite (SFmul_exact_finite mu 6755399441055744 mp (- su) (-52) (su + 51 - sp))
    by (try assumption; lia).
  cbn [SFtrunc cond_Zopp].
  replace (- su + -52 + (su + 51 - sp)) with (0 - (sp + 1)) by lia.
  rewrite shiftl_sub by lia.
  change (2 ^ 0) with 1. rewrite Z.mul_1_r, Emp.
  rewrite Z.pow_add_r by lia. change (2 ^ 1) with 2.
  rewrite (Z.mul_comm (2 ^ sp) 2), Z.div_mul_cancel_r by lia.
  assert (Hq : 0 <= 3 * count / 2 < 2 ^ 32).
  { split; [apply Z.div_pos; lia | apply Z.div_lt_upper_bound; lia]. }
  replace (0 <=? 3 * count / 2) with true by (symmetry; apply Z.leb_le; lia).
  replace (3 * count / 2 <? 2 ^ 32) with true by (symmetry; apply Z.ltb_lt; lia).
  reflexivity.
Qed.

(** *** The counts per cell *)

Lemma mapM_pointwise {A B} (f : A -> option B) (h : A -> B) (l : list A) :
  (forall x, x ∈ l -> f x = Some (h x)) -> mapM f l = Some (h <$> l).
Proof.
  intros H. apply mapM_Some_2. induction l as [|x l IH]; [constructor|].
  cbn. constructor.
  - apply H. apply list_elem_of_here.
  - apply IH. intros y Hy. apply H. now apply list_elem_of_further.
Qed.

Lemma total_cons (x : Z) (l : list Z) : total (x :: l) = x + total l.
Proof. reflexivity. Qed.

Lemma total_app (l k : list Z) : total (l ++ k) = total l + total k.
Proof. unfold total. induction l as [|x l IH]; cbn; [reflexivity | rewrite IH; lia]. Qed.

Lemma total_nonneg (l : list Z) : Forall (fun c => 0 <= c) l -> 0 <= total l.
Proof. induction 1 as [|x l Hx _ IH]; cbn; [lia | unfold total in IH; lia]. Qed.

Lemma total_fmap_le {A} (f h : A -> Z) (l : list A) :
  (forall x, x ∈ l -> f x <= h x) -> total (f <$> l) <= total (h <$> l).
Proof.
  induction l as [|x l IH]; intros H; cbn; [lia|].
  assert (f x <= h x) by (apply H, list_elem_of_here).
  assert (total (f <$> l) <= total (h <$> l))
    by (apply IH; intros y Hy; apply H; now apply list_elem_of_further).
  unfold total in *. lia.
Qed.

(** The counts without the dense scaling add up over a range of cells. *)
Lemma total_balanced (b r : Z) (k : nat) :
  forall a,
    total ((fun i => b + (if i <? r then 1 else 0)) <$> seqZ a (Z.of_nat k))
    = Z.of_nat k * b + Z.max 0 (Z.min (r - a) (Z.of_nat k)).
Proof.
  induction k as [|k IH]; intros a.
  - rewrite seqZ_nil by lia. cbn. lia.
  - rewrite (seqZ_cons a) by lia.
    replace (Z.pred (Z.of_nat (S k))) with (Z.of_nat k) by lia.
    cbn [fmap list_fmap total foldr]. fold (total ((fun i => b + (if i <? r then 1 else 0)) <$> seqZ (Z.succ a) (Z.of_nat k))).
    rewrite IH. destruct (Z.ltb_spec a r); lia.
Qed.

Lemma balanced_range (numUEs numCells i : Z) :
  0 <= numUEs -> 0 < numCells -> 0 <= i ->
  0 <= numUEs / numCells + (if i <? numUEs mod numCells then 1 else 0) <= numUEs.
Proof.
  intros HN Hn Hi.
  pose proof (Z.div_mod numUEs numCells ltac:(lia)) as E.
  pose proof (Z.mod_pos_bound numUEs numCells Hn) as Hr.
  assert (Hb : 0 <= numUEs / numCells) by (apply Z.div_pos; lia).
  destruct (Z.ltb_spec i (numUEs mod numCells)); nia.
Qed.

Lemma wrap_small (bits z : Z) : 0 <= z < 2 ^ bits -> wrap bits z = z.
Proof. intros H. unfold wrap. now apply Z.mod_small. Qed.

Lemma uesPerCell_sparse (numUEs numCells : Z) :
  0 <= numUEs < 2 ^ 32 -> 0 < numCells ->
  uesPerCell SPARSE_SUBURBAN numUEs numCells
  = Some ((fun i => numUEs / numCells
                    + (if i <? numUEs mod numCells then 1 else 0))
          <$> seqZ 0 numCells).
Proof.
  intros HN Hn. unfold uesPerCell.
  replace (numCells =? 0) with false by (symmetry; apply Z.eqb_neq; lia).
  apply mapM_pointwise. intros i Hi. apply elem_of_seqZ in Hi.
  unfold uesPerCellAt. cbv zeta. f_equal. apply wrap_small.
  pose proof (balanced_range numUEs numCells i ltac:(lia) Hn ltac:(lia)) as Hb.
  lia.
Qed.

Lemma uesPerCell_dense (numUEs numCells : Z) :
  0 <= numUEs < 2 ^ 31 -> 0 < numCells ->
  uesPerCell DENSE_URBAN numUEs numCells
  = Some ((fun i =>
             let balanced :=
               numUEs / numCells
               + (if i <? numUEs mod numCells then 1 else 0) in
             if (i =? 0) || (i =? numCells / 2)
             then 3 * balanced / 2 else balanced)
          <$> seqZ 0 numCells).
Proof.
  intros HN Hn.
  assert (P31 : 2 ^ 31 = 2147483648) by reflexivity.
  assert (P32 : 2 ^ 32 = 4294967296) by reflexivity.
  unfold uesPerCell.
  replace (numCells =? 0) with false by (symmetry; apply Z.eqb_neq; lia).
  apply mapM_pointwise. intros i Hi. apply elem_of_seqZ in Hi.
  unfold uesPerCellAt. cbv zeta.
  pose proof (balanced_range numUEs numCells i ltac:(lia) Hn ltac:(lia)) as Hb.
  rewrite wrap_small by lia.
  destruct ((i =? 0) || (i =? numCells / 2)); [|reflexivity].
  apply scaleCount_spec. lia.
Qed.

Lemma total_sparse (numUEs numCells : Z) :
  0 <= numUEs -> 0 < numCells ->
  total ((fun i => numUEs / numCells
                   + (if i <? numUEs mod numCells then 1 else 0))
         <$> seqZ 0 numCells) = numUEs.
Proof.
  intros HN Hn.
  replace (seqZ 0 numCells) with (seqZ 0 (Z.of_nat (Z.to_nat numCells)))
    by (now rewrite Z2Nat.id by lia).
  rewrite total_balanced, Z2Nat.id by lia.
  pose proof (Z.div_mod numUEs numCells ltac:(lia)) as E.
  pose proof (Z.mod_pos_bound numUEs numCells Hn) as Hr. lia.
Qed.

Lemma total_dense (numUEs numCells : Z) :
  0 <= numUEs -> 0 < numCells ->
  numUEs <=
  total ((fun i =>
            let balanced :=
              numUEs / numCells
              + (if i <? numUEs mod numCells then 1 else 0) in
            if (i =? 0) || (i =? numCells / 2)
            then 3 * balanced / 2 else balanced)
         <$> seqZ 0 numCells).
Proof.
  intros HN Hn. rewrite <- (total_sparse numUEs numCells HN Hn) at 1.
  apply total_fmap_le. intros i Hi. apply elem_of_seqZ in Hi. cbv zeta.
  pose proof (balanced_range numUEs numCells i ltac:(lia) Hn ltac:(lia)) as Hb.
  destruct ((i =? 0) || (i =? numCells / 2)); [|lia].
  apply Z.div_le_lower_bound; lia.
Qed.

Lemma lookup_fmap_seqZ (f : Z -> Z) (n : Z) (i : nat) (c : Z) :
  (f <$> seqZ 0 n) !! i = Some c -> c = f (Z.of_nat i).
Proof.
  intros Hi. rewrite list_lookup_fmap in Hi.
  destruct (seqZ 0 n !! i) as [j|] eqn:Ej; [|discriminate].
  apply lookup_seqZ in Ej as [-> _]. cbn in Hi. injection Hi as <-.
  now rewrite Z.add_0_l.
Qed.

(** X6: in the sparse scenario with at least one cell, the counts per
    cell are defined, there is one per cell, they add up to the number
    of UEs, and cell [i] is given the quotient [numUEs / numCells] plus
    one when [i] is below the remainder; with no cell the function is
    undefined (integer division by zero) in either scenario. *)
Theorem sparse_counts_partition_the_ues (numUEs numCells : Z) :
  0 <= numUEs < 2 ^ 32 -> 0 <= numCells ->
  (numCells = 0 ->
   uesPerCell SPARSE_SUBURBAN numUEs numCells = None /\
   uesPerCell DENSE_URBAN numUEs numCells = None) /\
  (0 < numCells ->
   exists counts,
     uesPerCell SPARSE_SUBURBAN numUEs numCells = Some counts /\
     length counts = Z.to_nat numCells /\
     total counts = numUEs /\
     (forall (i : nat) count, counts !! i = Some count ->
        count = numUEs / numCells
                + (if Z.of_nat i <? numUEs mod numCells then 1 else 0))).
Proof.
  intros HN Hn0. split.
  - intros ->. split; reflexivity.
  - intros Hn. eexists. split; [now apply uesPerCell_sparse|].
    split; [|split].
    + now rewrite length_fmap, length_seqZ.
    + apply total_sparse; lia.
    + intros i count Hi. now apply lookup_fmap_seqZ in Hi.
Qed.

(** X7: in the dense scenario with at least one cell and fewer than
    2^31 UEs, the counts are defined; cell 0 and cell [numCells / 2]
    get their balanced count multiplied by 1.5 and rounded down, the
    other cells their balanced count, so the counts add up to at least
    the number of UEs. *)
Theorem dense_counts_scale_two_cells (numUEs numCells : Z) :
  0 <= numUEs < 2 ^ 31 -> 0 < numCells ->
  exists counts,
    uesPerCell DENSE_URBAN numUEs numCells = Some counts /\
    length counts = Z.to_nat numCells /\
    (forall (i : nat) count, counts !! i = Some count ->
       let balanced :=
         numUEs / numCells
         + (if Z.of_nat i <? numUEs mod numCells then 1 else 0) in
       count = if (Z.of_nat i =? 0) || (Z.of_nat i =? numCells / 2)
               then 3 * balanced / 2 else balanced) /\
    numUEs <= total counts.
Proof.
  intros HN Hn. eexists. split; [now apply uesPerCell_dense|].
  split; [|split].
  - now rewrite length_fmap, length_seqZ.
  - intros i count Hi. now apply lookup_fmap_seqZ in Hi.
  - apply total_dense; lia.
Qed.

(** *** The placement loops *)

Section Loops.

Variables cos sin : float -> float.
Variable expRv : nat -> float.
Variable uniformRv : nat -> float -> float -> float.
Variable scenario : ScenarioType.
Variables ISD userHeight : float.
Variable numUEs : Z.

Hypothesis numUEs_range : 0 <= numUEs < 2 ^ 32.

Abbreviation placeNear :=
  (placeNear cos sin expRv uniformRv scenario ISD userHeight).
Abbreviation placeAround :=
  (placeAround cos sin expRv uniformRv scenario ISD userHeight numUEs).
Abbreviation cellLoop :=
  (cellLoop cos sin expRv uniformRv scenario ISD userHeight numUEs).

Abbreviation consistent := (consistent scenario userHeight numUEs).

Lemma consistent_init : consistent Loop_init.
Proof.
  unfold consistent. cbn. repeat split; try lia; try constructor;
    destruct scenario; reflexivity.
Qed.

Lemma placeNear_consistent (cellPos : Vector) (st : Loop) :
  consistent st -> ueIndex st < numUEs ->
  consistent (placeNear cellPos st) /\
  ueIndex (placeNear cellPos st) = ueIndex st + 1.
Proof.
  intros (Hi & Hp & Hz & He & Hu) Hlt.
  assert (Ei : ueIndex (placeNear cellPos st) = ueIndex st + 1).
  { unfold Placement.placeNear. destruct scenario; cbn [ueIndex];
      apply wrap_small; lia. }
  split; [|exact Ei].
  unfold consistent. rewrite Ei.
  assert (Epl : placed (placeNear cellPos st)
                = placed st ++ [(ueIndex st, snd (List.last (placed (placeNear cellPos st)) (0, mkVector 0 0 0)))]).
  { unfold Placement.placeNear. destruct scenario; cbn [placed];
      rewrite last_last; reflexivity. }
  split; [lia | split; [|split; [|split]]].
  - rewrite Epl, fmap_app, Hp. cbn [fmap list_fmap fst].
    rewrite seqZ_app by lia. reflexivity.
  - unfold Placement.placeNear. destruct scenario; cbn [placed];
      (apply Forall_app; split; [exact Hz | constructor; [reflexivity | constructor]]).
  - unfold Placement.placeNear. destruct scenario; cbn [expCalls]; rewrite He; lia.
  - unfold Placement.placeNear. destruct scenario; cbn [uniformCalls]; rewrite Hu; lia.
Qed.

Lemma placeAround_spec (count : nat) (cellPos : Vector) :
  forall st,
    consistent st ->
    consistent (placeAround count cellPos st) /\
    ueIndex (placeAround count cellPos st)
    = Z.min numUEs (ueIndex st + Z.of_nat count).
Proof.
  induction count as [|count IH]; intros st Hc.
  - cbn [Placement.placeAround]. split; [exact Hc|].
    destruct Hc as (Hi & _). lia.
  - cbn [Placement.placeAround].
    destruct (Z.ltb_spec (ueIndex st) numUEs) as [Hlt|Hge].
    + destruct (placeNear_consistent cellPos st Hc Hlt) as [Hc' Ei].
      destruct (IH _ Hc') as [Hc'' ->]. split; [exact Hc''|]. lia.
    + split; [exact Hc|]. destruct Hc as (Hi & _). lia.
Qed.

Lemma cellLoop_spec (cells : list (Vector * Z)) :
  forall st,
    consistent st -> Forall (fun c => 0 <= c) cells.*2 ->
    consistent (cellLoop cells st) /\
    ueIndex (cellLoop cells st)
    = Z.min numUEs (ueIndex st + total cells.*2).
Proof.
  induction cells as [|[cellPos count] cells IH]; intros st Hc Hpos.
  - cbn. split; [exact Hc|]. destruct Hc as (Hi & _). lia.
  - rewrite fmap_cons, total_cons. cbn [Placement.cellLoop snd].
    rewrite fmap_cons in Hpos.
    apply Forall_cons in Hpos as [Hcount Hpos]. cbn [snd] in Hcount.
    pose proof (total_nonneg _ Hpos) as Ht.
    destruct (Z.ltb_spec (ueIndex st) numUEs) as [Hlt|Hge].
    + destruct (placeAround_spec (Z.to_nat count) cellPos st Hc) as [Hc' Ei].
      destruct (IH _ Hc' Hpos) as [Hc'' ->]. split; [exact Hc''|].
      rewrite Ei, Z2Nat.id by lia. lia.
    + split; [exact Hc|]. destruct Hc as (Hi & _). lia.
Qed.

Lemma cellLoop_app (cells rest : list (Vector * Z)) :
  forall st,
    consistent st -> Forall (fun c => 0 <= c) cells.*2 ->
    cellLoop (cells ++ rest) st = cellLoop rest (cellLoop cells st).
Proof.
  induction cells as [|[cellPos count] cells IH]; intros st Hc Hpos.
  - reflexivity.
  - cbn [app Placement.cellLoop].
    rewrite fmap_cons in Hpos.
    apply Forall_cons in Hpos as [Hcount Hpos].
    destruct (Z.ltb_spec (ueIndex st) numUEs) as [Hlt|Hge].
    + apply IH; [|exact Hpos].
      apply (placeAround_spec (Z.to_nat count) cellPos st Hc).
    + destruct rest as [|[p c] rest]; [reflexivity|].
      cbn [Placement.cellLoop].
      now replace (ueIndex st <? numUEs) with false
        by (symmetry; apply Z.ltb_ge; lia).
Qed.

End Loops.

Lemma counts_nonneg (scenario : ScenarioType) (numUEs numCells : Z)
  (counts : list Z) :
  0 <= numUEs < 2 ^ 31 -> 0 < numCells ->
  uesPerCell scenario numUEs numCells = Some counts ->
  length counts = Z.to_nat numCells /\
  Forall (fun c => 0 <= c) counts /\ numUEs <= total counts.
Proof.
  intros HN Hn E.
  assert (P31 : 2 ^ 31 < 2 ^ 32) by (apply Z.pow_lt_mono_r; lia).
  destruct scenario.
  - rewrite uesPerCell_dense in E by assumption. injection E as <-.
    split; [now rewrite length_fmap, length_seqZ | split].
    + apply Forall_fmap, Forall_forall. intros i Hi. apply elem_of_seqZ in Hi.
      unfold compose. cbv beta zeta.
      pose proof (balanced_range numUEs numCells i ltac:(lia) Hn ltac:(lia)) as Hb.
      destruct ((i =? 0) || (i =? numCells / 2)); [apply Z.div_pos; lia | lia].
    + apply total_dense; lia.
  - rewrite uesPerCell_sparse in E by lia. injection E as <-.
    split; [now rewrite length_fmap, length_seqZ | split].
    + apply Forall_fmap, Forall_forall. intros i Hi. apply elem_of_seqZ in Hi.
      unfold compose. cbv beta.
      pose proof (balanced_range numUEs numCells i ltac:(lia) Hn ltac:(lia)) as Hb.
      lia.
    + rewrite total_sparse by lia. lia.
Qed.

(** X8: with at least one cell and fewer than 2^31 UEs, in either
    scenario, the function is defined and the loop over the cells already
    places every UE: each index below [numUEs] gets exactly one position,
    in index order and at [userHeight], so the loop meant for the
    remaining UEs never runs.  The dense scenario draws one exponential
    and one uniform value per UE, the sparse one two uniform values. *)
Theorem every_ue_placed_by_the_cell_loop
  (cos sin : float -> float) (expRv : nat -> float)
  (uniformRv : nat -> float -> float -> float) (scenario : ScenarioType)
  (ISD userHeight : float) (numUEs : Z) (gnbPositions : list Vector) :
  0 <= numUEs < 2 ^ 31 -> gnbPositions <> [] ->
  exists counts,
    uesPerCell scenario numUEs (Z.of_nat (length gnbPositions)) = Some counts /\
    let st :=
      cellLoop cos sin expRv uniformRv scenario ISD userHeight numUEs
               (zip gnbPositions counts) Loop_init in
    DistributeUsersOptimized cos sin expRv uniformRv scenario ISD userHeight
                             numUEs gnbPositions = Some st /\
    ueIndex st = numUEs /\
    (placed st).*1 = seqZ 0 numUEs /\
    Forall (fun p => vz p.2 = userHeight) (placed st) /\
    expCalls st
    = match scenario with
      | DENSE_URBAN => Z.to_nat numUEs
      | SPARSE_SUBURBAN => O
      end /\
    uniformCalls st
    = match scenario with
      | DENSE_URBAN => Z.to_nat numUEs
      | SPARSE_SUBURBAN => (2 * Z.to_nat numUEs)%nat
      end.
Proof.
  intros HN Hne.
  assert (P31 : 2 ^ 31 < 2 ^ 32) by (apply Z.pow_lt_mono_r; lia).
  assert (Hn : 0 < Z.of_nat (length gnbPositions))
    by (destruct gnbPositions; [congruence | cbn; lia]).
  assert (E : exists counts,
            uesPerCell scenario numUEs (Z.of_nat (length gnbPositions)) = Some counts).
  { destruct scenario; eexists;
      [now apply uesPerCell_dense | apply uesPerCell_sparse; lia]. }
  destruct E as (counts & E). exists counts. split; [exact E|].
  destruct (counts_nonneg _ _ _ _ HN Hn E) as (Hlen & Hpos & Htot).
  rewrite Nat2Z.id in Hlen.
  assert (Hsnd : (zip gnbPositions counts).*2 = counts) by (apply snd_zip; lia).
  destruct (cellLoop_spec cos sin expRv uniformRv scenario ISD userHeight numUEs
              ltac:(lia) (zip gnbPositions counts) Loop_init
              (consistent_init scenario userHeight numUEs ltac:(lia))
              ltac:(now rewrite Hsnd))
    as ((Hi & Hp & Hz & He & Hu) & Eidx).
  rewrite Hsnd in Eidx. cbn [ueIndex Loop_init] in Eidx.
  cbv zeta.
  set (st := cellLoop cos sin expRv uniformRv scenario ISD userHeight numUEs
                      (zip gnbPositions counts) Loop_init) in *.
  assert (Eidx' : ueIndex st = numUEs) by lia.
  rewrite Eidx' in Hp, He, Hu.
  split;
    [|split; [exact Eidx'
             |split; [exact Hp | split; [exact Hz | split; [exact He | exact Hu]]]]].
  unfold DistributeUsersOptimized. rewrite E. cbv zeta. fold st.
  rewrite Eidx', Z.sub_diag. reflexivity.
Qed.

(** X9: the cells are served in order.  After the first [c] cells the
    number of UEs placed is the sum of their counts, capped at the
    number of UEs; once that sum reaches the number of UEs the later
    cells receive none, which the scaled counts of the dense scenario
    bring about. *)
Theorem cells_are_filled_in_order
  (cos sin : float -> float) (expRv : nat -> float)
  (uniformRv : nat -> float -> float -> float) (scenario : ScenarioType)
  (ISD userHeight : float) (numUEs : Z) (gnbPositions : list Vector)
  (counts : list Z) (c : nat) :
  0 <= numUEs < 2 ^ 31 -> gnbPositions <> [] ->
  uesPerCell scenario numUEs (Z.of_nat (length gnbPositions)) = Some counts ->
  let loop :=
    cellLoop cos sin expRv uniformRv scenario ISD userHeight numUEs in
  let cells := zip gnbPositions counts in
  ueIndex (loop (take c cells) Loop_init)
  = Z.min numUEs (total (take c counts)) /\
  loop cells Loop_init = loop (drop c cells) (loop (take c cells) Loop_init) /\
  (numUEs <= total (take c counts) ->
   loop cells Loop_init = loop (take c cells) Loop_init).
Proof.
  intros HN Hne E. cbv zeta.
  assert (P31 : 2 ^ 31 < 2 ^ 32) by (apply Z.pow_lt_mono_r; lia).
  assert (Hn : 0 < Z.of_nat (length gnbPositions))
    by (destruct gnbPositions; [congruence | cbn; lia]).
  destruct (counts_nonneg _ _ _ _ HN Hn E) as (Hlen & Hpos & Htot).
  rewrite Nat2Z.id in Hlen.
  assert (Hsnd : (zip gnbPositions counts).*2 = counts) by (apply snd_zip; lia).
  assert (Htake : (take c (zip gnbPositions counts)).*2 = take c counts)
    by (now rewrite fmap_take, Hsnd).
  assert (Hpos' : Forall (fun c => 0 <= c) (take c (zip gnbPositions counts)).*2)
    by (rewrite Htake; now apply Forall_take).
  pose proof (consistent_init scenario userHeight numUEs ltac:(lia)) as Hinit.
  destruct (cellLoop_spec cos sin expRv uniformRv scenario ISD userHeight numUEs
              ltac:(lia) (take c (zip gnbPositions counts)) Loop_init Hinit Hpos')
    as (Hc & Eidx).
  rewrite Htake in Eidx. cbn [ueIndex Loop_init] in Eidx.
  assert (Happ : cellLoop cos sin expRv uniformRv scenario ISD userHeight numUEs
                   (zip gnbPositions counts) Loop_init
                 = cellLoop cos sin expRv uniformRv scenario ISD userHeight numUEs
                     (drop c (zip gnbPositions counts))
                     (cellLoop cos sin expRv uniformRv scenario ISD userHeight
                        numUEs (take c (zip gnbPositions counts)) Loop_init)).
  { rewrite <- (take_drop c (zip gnbPositions counts)) at 1.
    apply cellLoop_app; [lia | exact Hinit | exact Hpos']. }
  split; [rewrite Eidx; f_equal; lia | split; [exact Happ|]].
  intros Hfull. rewrite Happ.
  destruct (drop c (zip gnbPositions counts)) as [|[p k] rest]; [reflexivity|].
  cbn [Placement.cellLoop].
  replace (ueIndex _ <? numUEs) with false; [reflexivity|].
  symmetry. apply Z.ltb_ge. lia.
Qed.

(** *** Closed instances *)

Lemma sparse_counts_partition_the_ues_witness :
  (0 <= 30 < 2 ^ 32 /\ 0 <= 7 /\ 0 < 7) /\
  exists counts,
    uesPerCell SPARSE_SUBURBAN 30 7 = Some counts /\
    counts = [5; 5; 4; 4; 4; 4; 4] /\
    total counts = 30.
Proof.
  assert (HN : 0 <= 30 < 2 ^ 32) by (change (2 ^ 32) with 4294967296; lia).
  assert (Hn0 : 0 <= 7) by lia.
  assert (Hn : 0 < 7) by lia.
  split; [auto|].
  destruct (proj2 (sparse_counts_partition_the_ues 30 7 HN Hn0) Hn)
    as (counts & E & _ & Htot & _).
  exists counts. split; [exact E | split; [|exact Htot]].
  assert (E' : uesPerCell SPARSE_SUBURBAN 30 7 = Some [5; 5; 4; 4; 4; 4; 4])
    by (vm_compute; reflexivity).
  rewrite E in E'. now injection E'.
Defined.

Lemma dense_counts_scale_two_cells_witness :
  (0 <= 45 < 2 ^ 31 /\ 0 < 9) /\
  exists counts,
    uesPerCell DENSE_URBAN 45 9 = Some counts /\
    counts = [7; 5; 5; 5; 7; 5; 5; 5; 5] /\
    45 <= total counts.
Proof.
  assert (HN : 0 <= 45 < 2 ^ 31) by (change (2 ^ 31) with 2147483648; lia).
  assert (Hn : 0 < 9) by lia.
  split; [auto|].
  destruct (dense_counts_scale_two_cells 45 9 HN Hn)
    as (counts & E & _ & _ & Htot).
  exists counts. split; [exact E | split; [|exact Htot]].
  assert (E' : uesPerCell DENSE_URBAN 45 9 = Some [7; 5; 5; 5; 7; 5; 5; 5; 5])
    by (vm_compute; reflexivity).
  rewrite E in E'. now injection E'.
Defined.

Lemma every_ue_placed_by_the_cell_loop_witness :
  (0 <= 4 < 2 ^ 31 /\ twoSites <> []) /\
  exists st,
    DistributeUsersOptimized alongX noY expHalf uniformLow SPARSE_SUBURBAN
                             200 1.5 4 twoSites = Some st /\
    ueIndex st = 4 /\
    (placed st).*1 = [0; 1; 2; 3] /\
    uniformCalls st = 8%nat.
Proof.
  assert (HN : 0 <= 4 < 2 ^ 31) by (change (2 ^ 31) with 2147483648; lia).
  assert (Hne : twoSites <> []) by discriminate.
  split; [auto|].
  destruct (every_ue_placed_by_the_cell_loop alongX noY expHalf uniformLow
              SPARSE_SUBURBAN 200 1.5 4 twoSites HN Hne)
    as (counts & _ & H).
  cbv zeta in H. destruct H as (E & Ei & Ep & _ & _ & Eu).
  eexists. split; [exact E | split; [exact Ei | split; [exact Ep | exact Eu]]].
Defined.

Lemma cells_are_filled_in_order_witness :
  (0 <= 30 < 2 ^ 31 /\ threeSites <> [] /\
   uesPerCell DENSE_URBAN 30 (Z.of_nat (length threeSites)) = Some [15; 15; 10] /\
   30 <= total (take 2 [15; 15; 10])) /\
  cellLoop alongX noY expHalf uniformLow DENSE_URBAN 200 1.5 30
           (zip threeSites [15; 15; 10]) Loop_init
  = cellLoop alongX noY expHalf uniformLow DENSE_URBAN 200 1.5 30
             (take 2 (zip threeSites [15; 15; 10])) Loop_init.
Proof.
  assert (HN : 0 <= 30 < 2 ^ 31) by (change (2 ^ 31) with 2147483648; lia).
  assert (Hne : threeSites <> []) by discriminate.
  assert (E : uesPerCell DENSE_URBAN 30 (Z.of_nat (length threeSites))
              = Some [15; 15; 10]) by (vm_compute; reflexivity).
  assert (Hfull : 30 <= total (take 2 [15; 15; 10])) by (vm_compute; discriminate).
  split; [auto|].
  exact (proj2 (proj2 (cells_are_filled_in_order alongX noY expHalf uniformLow
                         DENSE_URBAN 200 1.5 30 threeSites [15; 15; 10] 2
                         HN Hne E)) Hfull).
Defined.

End PlacementFacts.

(** ** Traffic sources and sinks *)

Module AppsFacts.
Import Double Traffic Apps.

Lemma imap_seqZ_fmap {B} (f : nat -> Z -> B) (h : Z -> B) (a n : Z) :
  (forall i : nat, Z.of_nat i < n -> f i (a + Z.of_nat i) = h (a + Z.of_nat i)) ->
  imap f (seqZ a n) = h <$> seqZ a n.
Proof.
  intros H. apply list_eq. intros i.
  rewrite list_lookup_imap, list_lookup_fmap.
  destruct (seqZ a n !! i) as [x|] eqn:E; [|reflexivity].
  apply lookup_seqZ in E as [-> Hi]. cbn. f_equal. now apply H.
Qed.

(** X10: whatever the number of eMBB UEs, every UE hosts exactly one
    sink, in creation order; the source paired with a sink is addressed
    to the UE hosting that sink (for a URLLC UE the index
    [i + numEmbbUEs] is its own creation index), the bearer is activated
    on the device of the same UE, and the port is the eMBB port exactly
    for the UEs below [numEmbbUEs]. *)
Theorem sources_target_their_own_sink (numEmbbUEs numUEs : Z) :
  0 <= numEmbbUEs < 2 ^ 32 -> 0 <= numUEs < 2 ^ 32 ->
  let apps := installApps numEmbbUEs numUEs in
  sinkNode <$> apps = seqZ 0 numUEs /\
  Forall (fun app =>
            destIndex app = sinkNode app /\
            bearerDevice app = sinkNode app /\
            appPort app
            = if sinkNode app <? numEmbbUEs then embbPort else urllcPort)
         apps.
Proof.
  intros Hk HN. cbv zeta. unfold installApps.
  rewrite TrafficFacts.classifyUEs_split by lia.
  set (m := Z.min numEmbbUEs numUEs).
  assert (Ee : embbApps (seqZ 0 m)
               = (fun i => mkApp i i embbPort i) <$> seqZ 0 m).
  { unfold embbApps. apply imap_seqZ_fmap. intros i Hi.
    now rewrite Z.add_0_l. }
  assert (Eu : urllcApps numEmbbUEs (seqZ m (numUEs - m))
               = (fun i => mkApp i i urllcPort i) <$> seqZ m (numUEs - m)).
  { unfold urllcApps. apply imap_seqZ_fmap. intros i Hi. cbv zeta.
    f_equal. unfold wrap. rewrite Z.mod_small; lia. }
  rewrite Ee, Eu. split.
  - rewrite fmap_app, <- !list_fmap_compose.
    rewrite !(list_fmap_ext _ id (seqZ _ _)) by reflexivity.
    rewrite !list_fmap_id.
    change (seqZ m (numUEs - m)) with (seqZ (0 + m) (numUEs - m)).
    rewrite <- seqZ_app by lia. f_equal. lia.
  - apply Forall_app. split; apply Forall_fmap, Forall_forall;
      intros i Hi; apply elem_of_seqZ in Hi; unfold compose;
      cbn [destIndex sinkNode bearerDevice appPort].
    + replace (i <? numEmbbUEs) with true by (symmetry; apply Z.ltb_lt; lia).
      repeat split; reflexivity.
    + replace (i <? numEmbbUEs) with false by (symmetry; apply Z.ltb_ge; lia).
      repeat split; reflexivity.
Qed.

Lemma sources_target_their_own_sink_witness :
  (0 <= 18 < 2 ^ 32 /\ 0 <= 30 < 2 ^ 32) /\
  sinkNode <$> installApps 18 30 = seqZ 0 30 /\
  destIndex <$> installApps 18 30 = seqZ 0 30.
Proof.
  assert (Hk : 0 <= 18 < 2 ^ 32) by (change (2 ^ 32) with 4294967296; lia).
  assert (HN : 0 <= 30 < 2 ^ 32) by (change (2 ^ 32) with 4294967296; lia).
  split; [auto|].
  split.
  - exact (proj1 (sources_target_their_own_sink 18 30 Hk HN)).
  - vm_compute. reflexivity.
Defined.

End AppsFacts.

(** ** UE-cell association *)

Module AssociationFacts.
Import Double DoubleFacts Layout Association Tally Scenarios.

Section Facts.

Variable CalculateDistance : Vector -> Vector -> float.

Abbreviation closestLoop := (closestLoop CalculateDistance).
Abbreviation findClosest := (findClosest CalculateDistance).
Abbreviation associateUe := (associateUe CalculateDistance).
Abbreviation associate := (associate CalculateDistance).

(** *** The search for the closest cell *)

Lemma closestLoop_snoc (uePos : Vector) (l : list Vector) (x : Vector) :
  forall j acc,
    closestLoop uePos (l ++ [x]) j acc =
    let a := closestLoop uePos l j acc in
    if (CalculateDistance uePos x <? minDistance a)%float
    then {| minDistance := CalculateDistance uePos x;
            closestCell := j + Z.of_nat (length l) |}
    else a.
Proof.
  induction l as [|y l IH]; intros j acc.
  - cbn. now rewrite Z.add_0_r.
  - cbn [app Association.closestLoop length]. rewrite IH. cbv zeta.
    replace (j + 1 + Z.of_nat (length l)) with (j + Z.of_nat (S (length l))) by lia.
    reflexivity.
Qed.

(** The invariant of the search. *)
Lemma findClosest_spec (uePos : Vector) (gnbPositions : list Vector) :
  let c := findClosest uePos gnbPositions in
  (forall (j : nat) gnbPos, gnbPositions !! j = Some gnbPos ->
     (CalculateDistance uePos gnbPos <? minDistance c)%float = false) /\
  ((c = Closest_init /\
    forall gnbPos, gnbPos ∈ gnbPositions ->
      (CalculateDistance uePos gnbPos <? DBL_MAX)%float = false) \/
   (exists (k : nat) gnbPos,
      closestCell c = Z.of_nat k /\
      gnbPositions !! k = Some gnbPos /\
      minDistance c = CalculateDistance uePos gnbPos /\
      (CalculateDistance uePos gnbPos <? DBL_MAX)%float = true /\
      forall (j : nat) gnbPos', (j < k)%nat ->
        gnbPositions !! j = Some gnbPos' ->
        (CalculateDistance uePos gnbPos' <=? minDistance c)%float = false)).
Proof.
  cbv zeta. unfold Association.findClosest.
  induction gnbPositions as [|y l (I1 & I2)] using rev_ind.
  - split; [intros j x Hj; discriminate|].
    left. split; [reflexivity|]. intros x Hx. now apply elem_of_nil in Hx.
  - rewrite closestLoop_snoc. cbv zeta. rewrite Z.add_0_l.
    set (c := closestLoop uePos l 0 Closest_init) in *.
    set (d := CalculateDistance uePos) in *.
    assert (Hbelow : (d y <? minDistance c)%float = true ->
                     (d y <? DBL_MAX)%float = true).
    { intros Hy. destruct I2 as [[E _] | (k & x & _ & _ & E & Hx & _)].
      - rewrite E in Hy. exact Hy.
      - rewrite E in Hy. exact (ltb_trans _ _ _ Hy Hx). }
    destruct (d y <? minDistance c)%float eqn:Hy.
    + cbn [minDistance closestCell]. split.
      * intros j x Hj. apply lookup_app_Some in Hj as [Hj | [_ Hj]].
        -- destruct (d x <? d y)%float eqn:Hxy; [|reflexivity].
           specialize (I1 j x Hj).
           rewrite (ltb_trans _ _ _ Hxy Hy) in I1. discriminate.
        -- destruct (j - length l)%nat; [|discriminate].
           injection Hj as <-. apply ltb_irrefl.
      * right. exists (length l), y.
        split; [reflexivity | split; [|split; [reflexivity | split; [now apply Hbelow|]]]].
        -- rewrite lookup_app_r by lia. now rewrite Nat.sub_diag.
        -- intros j x Hlt Hj. rewrite lookup_app_l in Hj by exact Hlt.
           destruct (d x <=? d y)%float eqn:Hxy; [|reflexivity].
           specialize (I1 j x Hj).
           rewrite (leb_ltb_trans _ _ _ Hxy Hy) in I1. discriminate.
    + split.
      * intros j x Hj. apply lookup_app_Some in Hj as [Hj | [_ Hj]].
        -- now apply (I1 j).
        -- destruct (j - length l)%nat; [|discriminate].
           injection Hj as <-. exact Hy.
      * destruct I2 as [[E Hall] | (k & x & Ek & Hk & Em & Hx & Hfirst)].
        -- left. split; [exact E|]. intros x Hx.
           apply elem_of_app in Hx as [Hx | Hx]; [now apply Hall|].
           apply list_elem_of_singleton in Hx as ->.
           rewrite E in Hy. exact Hy.
        -- right. exists k, x.
           assert (Hlen : (k < length l)%nat) by (now apply lookup_lt_Some in Hk).
           split; [exact Ek | split; [|split; [exact Em | split; [exact Hx|]]]].
           ++ now rewrite lookup_app_l.
           ++ intros j x' Hlt Hj. rewrite lookup_app_l in Hj by lia.
              now apply (Hfirst j).
Qed.

(** X11: the search returns the first cell at the least distance.  No
    cell is strictly closer than the recorded distance; when some cell
    is closer than [DBL_MAX] the recorded cell is a valid index, its
    distance is the recorded one and no earlier cell is as close; when
    none is (no cell at all, or only infinite or NaN distances) the UE
    is attributed to cell 0 at distance [DBL_MAX]. *)
Theorem closest_cell_is_first_minimum (uePos : Vector)
  (gnbPositions : list Vector) :
  let c := findClosest uePos gnbPositions in
  (forall (j : nat) gnbPos, gnbPositions !! j = Some gnbPos ->
     (CalculateDistance uePos gnbPos <? minDistance c)%float = false) /\
  ((closestCell c = 0 /\ minDistance c = DBL_MAX /\
    forall gnbPos, gnbPos ∈ gnbPositions ->
      (CalculateDistance uePos gnbPos <? DBL_MAX)%float = false) \/
   (exists (k : nat) gnbPos,
      closestCell c = Z.of_nat k /\
      gnbPositions !! k = Some gnbPos /\
      minDistance c = CalculateDistance uePos gnbPos /\
      (CalculateDistance uePos gnbPos <? DBL_MAX)%float = true /\
      forall (j : nat) gnbPos', (j < k)%nat ->
        gnbPositions !! j = Some gnbPos' ->
        (CalculateDistance uePos gnbPos' <=? minDistance c)%float = false)).
Proof.
  cbv zeta. destruct (findClosest_spec uePos gnbPositions) as (I1 & I2).
  split; [exact I1|]. destruct I2 as [[E Hall] | H]; [left | right; exact H].
  rewrite E. split; [reflexivity | split; [reflexivity | exact Hall]].
Qed.

Lemma closestCell_range (uePos : Vector) (gnbPositions : list Vector) :
  0 <= closestCell (findClosest uePos gnbPositions)
  < Z.max 1 (Z.of_nat (length gnbPositions)).
Proof.
  destruct (findClosest_spec uePos gnbPositions) as (_ & [[E _] | (k & x & Ek & Hk & _)]).
  - rewrite E. cbn. lia.
  - apply lookup_lt_Some in Hk. lia.
Qed.

(** *** The maps *)

Lemma total_insert (m : gmap Z Z) (k v : Z) (n : nat) :
  forall a,
    total ((fun c => default 0 (<[k := v]> m !! c)) <$> seqZ a (Z.of_nat n))
    = total ((fun c => default 0 (m !! c)) <$> seqZ a (Z.of_nat n))
      + (if (a <=? k) && (k <? a + Z.of_nat n)
         then v - default 0 (m !! k) else 0).
Proof.
  induction n as [|n IH]; intros a.
  - rewrite seqZ_nil by lia. rewrite !fmap_nil.
    destruct (Z.leb_spec a k), (Z.ltb_spec k (a + Z.of_nat 0));
      cbn [andb]; unfold total; cbn [foldr]; lia.
  - rewrite (seqZ_cons a) by lia.
    replace (Z.pred (Z.of_nat (S n))) with (Z.of_nat n) by lia.
    rewrite !fmap_cons, !PlacementFacts.total_cons, IH.
    destruct (decide (k = a)) as [->|Hne].
    + rewrite lookup_insert_eq. cbn [default from_option id].
      destruct (Z.leb_spec a a), (Z.ltb_spec a (a + Z.of_nat (S n))),
        (Z.leb_spec (Z.succ a) a), (Z.ltb_spec a (Z.succ a + Z.of_nat n));
        cbn [andb]; unfold default in *; lia.
    + rewrite lookup_insert_ne by congruence.
      destruct (Z.leb_spec a k), (Z.ltb_spec k (a + Z.of_nat (S n))),
        (Z.leb_spec (Z.succ a) k), (Z.ltb_spec k (Z.succ a + Z.of_nat n));
        cbn [andb]; lia.
Qed.

Lemma associate_snoc (gnbPositions : list Vector) (ues : list (Vector * Z))
  (ue : Vector * Z) (maps : AssocMaps) :
  associate gnbPositions (ues ++ [ue]) maps
  = associateUe gnbPositions (associate gnbPositions ues maps) ue.
Proof. unfold Association.associate. now rewrite fold_left_app. Qed.

Lemma associate_counts (gnbPositions : list Vector) (ues : list (Vector * Z)) :
  Z.of_nat (length ues) < 2 ^ 32 ->
  let maps := associate gnbPositions ues AssocMaps_init in
  let cells := Z.max 1 (Z.of_nat (length gnbPositions)) in
  total (cellUeCount maps <$> seqZ 0 cells) = Z.of_nat (length ues) /\
  (forall cellId, 0 <= cellUeCount maps cellId) /\
  (forall cellId, g_cellUeCount maps !! cellId <> None -> 0 <= cellId < cells) /\
  (forall imsi cell, g_imsiToCell maps !! imsi = Some cell -> 0 <= cell < cells).
Proof.
  cbv zeta. induction ues as [|[uePos imsi] ues IH] using rev_ind; intros Hlen.
  - cbn [Association.associate fold_left AssocMaps_init].
    split; [|split; [|split]].
    + induction (seqZ 0 _) as [|x l IHl]; [reflexivity|].
      rewrite fmap_cons, PlacementFacts.total_cons, IHl.
      unfold cellUeCount, AssocMaps_init. cbn [g_cellUeCount].
      rewrite lookup_empty. reflexivity.
    + intros c. unfold cellUeCount, AssocMaps_init. cbn [g_cellUeCount].
      now rewrite lookup_empty.
    + intros c H. unfold AssocMaps_init in H. cbn [g_cellUeCount] in H.
      now rewrite lookup_empty in H.
    + intros i c H. unfold AssocMaps_init in H. cbn [g_imsiToCell] in H.
      now rewrite lookup_empty in H.
  - rewrite length_app in Hlen |- *. cbn [length] in Hlen |- *.
    destruct (IH ltac:(lia)) as (Hsum & Hpos & Hdom & Hcell). clear IH.
    rewrite associate_snoc.
    set (maps := associate gnbPositions ues AssocMaps_init) in *.
    pose proof (closestCell_range uePos gnbPositions) as Hc.
    set (k := closestCell (findClosest uePos gnbPositions)) in *.
    set (cells := Z.max 1 (Z.of_nat (length gnbPositions))) in *.
    assert (Hk : cellUeCount maps k <= Z.of_nat (length ues)).
    { rewrite <- Hsum.
      assert (Hin : k ∈ seqZ 0 cells) by (apply elem_of_seqZ; lia).
      clear - Hin Hpos. induction (seqZ 0 cells) as [|x l IHl].
      - now apply elem_of_nil in Hin.
      - rewrite fmap_cons, PlacementFacts.total_cons.
        assert (0 <= total (cellUeCount maps <$> l)).
        { apply PlacementFacts.total_nonneg, Forall_fmap, Forall_forall.
          intros c _. apply Hpos. }
        apply elem_of_cons in Hin as [-> | Hin]; [lia|].
        specialize (IHl Hin). specialize (Hpos x). lia. }
    assert (Ew : wrap 32 (cellUeCount maps k + 1) = cellUeCount maps k + 1).
    { apply PlacementFacts.wrap_small. specialize (Hpos k). lia. }
    unfold Association.associateUe. cbv zeta. fold k. rewrite Ew.
    split; [|split; [|split]].
    + unfold cellUeCount at 1. cbn [g_cellUeCount].
      replace cells with (Z.of_nat (Z.to_nat cells)) by lia.
      rewrite total_insert. rewrite Z2Nat.id by lia.
      fold (cellUeCount maps k).
      change (fun c => default 0 (g_cellUeCount maps !! c)) with (cellUeCount maps).
      rewrite Hsum.
      replace ((0 <=? k) && (k <? 0 + cells)) with true; [lia|].
      symmetry. apply andb_true_iff. split; [apply Z.leb_le | apply Z.ltb_lt]; lia.
    + intros c. unfold cellUeCount at 1. cbn [g_cellUeCount].
      destruct (decide (k = c)) as [->|Hne].
      * rewrite lookup_insert_eq. cbn. specialize (Hpos c). lia.
      * rewrite lookup_insert_ne by congruence. apply Hpos.
    + intros c. cbn [g_cellUeCount].
      destruct (decide (k = c)) as [->|Hne]; [intros _; exact Hc|].
      rewrite lookup_insert_ne by congruence. apply Hdom.
    + intros i c. cbn [g_imsiToCell].
      destruct (decide (imsi = i)) as [->|Hne].
      * rewrite lookup_insert_eq. intros [= <-]. exact Hc.
      * rewrite lookup_insert_ne by congruence. apply Hcell.
Qed.

(** X12: every UE increments the count of exactly one cell, so the
    counts of the cells add up to the number of UEs; only cells of the
    layout receive a count or are recorded as serving cell, cell 0
    standing in when there is no cell. *)
Theorem cell_ue_counts_add_up (gnbPositions : list Vector)
  (ues : list (Vector * Z)) :
  Z.of_nat (length ues) < 2 ^ 32 ->
  let maps := associate gnbPositions ues AssocMaps_init in
  let cells := Z.max 1 (Z.of_nat (length gnbPositions)) in
  total (cellUeCount maps <$> seqZ 0 cells) = Z.of_nat (length ues) /\
  (forall cellId, g_cellUeCount maps !! cellId <> None -> 0 <= cellId < cells) /\
  (forall imsi cell, g_imsiToCell maps !! imsi = Some cell -> 0 <= cell < cells).
Proof.
  intros Hlen. cbv zeta.
  destruct (associate_counts gnbPositions ues Hlen) as (Hsum & _ & Hdom & Hcell).
  split; [exact Hsum | split; [exact Hdom | exact Hcell]].
Qed.

(** X13: the association maps are keyed by IMSI.  A UE whose IMSI no
    later UE shares is recorded with the cell and the distance of its
    own search; an IMSI carried by no UE has no entry, so a later read
    yields cell 0 and distance 0. *)
Theorem association_recorded_per_imsi (gnbPositions : list Vector)
  (ues : list (Vector * Z)) :
  let maps := associate gnbPositions ues AssocMaps_init in
  (forall (before after : list (Vector * Z)) uePos imsi,
     ues = before ++ (uePos, imsi) :: after -> imsi ∉ after.*2 ->
     g_imsiToCell maps !! imsi
     = Some (closestCell (findClosest uePos gnbPositions)) /\
     g_imsiDistance maps !! imsi
     = Some (minDistance (findClosest uePos gnbPositions))) /\
  (forall imsi, imsi ∉ ues.*2 ->
     g_imsiToCell maps !! imsi = None /\ g_imsiDistance maps !! imsi = None).
Proof.
  cbv zeta.
  assert (Hkeep : forall (l : list (Vector * Z)) maps imsi,
            imsi ∉ l.*2 ->
            g_imsiToCell (associate gnbPositions l maps) !! imsi
            = g_imsiToCell maps !! imsi /\
            g_imsiDistance (associate gnbPositions l maps) !! imsi
            = g_imsiDistance maps !! imsi).
  { induction l as [|[p i] l IH] using rev_ind; intros maps imsi Hnot.
    - split; reflexivity.
    - rewrite fmap_app in Hnot. cbn in Hnot.
      apply not_elem_of_app in Hnot as [Hl Hi].
      apply not_elem_of_cons in Hi as [Hi _].
      rewrite associate_snoc. unfold Association.associateUe. cbv zeta.
      cbn [g_imsiToCell g_imsiDistance].
      rewrite !lookup_insert_ne by congruence. now apply IH. }
  split.
  - intros before after uePos imsi -> Hnot.
    unfold Association.associate. rewrite fold_left_app. cbn [fold_left].
    fold (associate gnbPositions before AssocMaps_init).
    set (maps := associate gnbPositions before AssocMaps_init).
    fold (associate gnbPositions after (associateUe gnbPositions maps (uePos, imsi))).
    destruct (Hkeep after (associateUe gnbPositions maps (uePos, imsi)) imsi Hnot)
      as [-> ->].
    unfold Association.associateUe. cbv zeta. cbn [g_imsiToCell g_imsiDistance].
    now rewrite !lookup_insert_eq.
  - intros imsi Hnot.
    destruct (Hkeep ues AssocMaps_init imsi Hnot) as [-> ->].
    split; apply lookup_empty.
Qed.

End Facts.

(** *** Closed instances *)

Lemma cell_ue_counts_add_up_witness :
  let ues := [(mkVector 10 0 1.5, 1); (mkVector 90 0 1.5, 2);
              (mkVector 60 0 1.5, 3)] in
  let maps := associate xDistance twoSites ues AssocMaps_init in
  Z.of_nat (length ues) < 2 ^ 32 /\
  total (cellUeCount maps <$> seqZ 0 2) = 3 /\
  cellUeCount maps 0 = 1 /\ cellUeCount maps 1 = 2.
Proof.
  intros ues maps.
  assert (Hlen : Z.of_nat (length ues) < 2 ^ 32)
    by (change (2 ^ 32) with 4294967296; cbn; lia).
  split; [exact Hlen|].
  split; [exact (proj1 (cell_ue_counts_add_up xDistance twoSites ues Hlen))|].
  split; vm_compute; reflexivity.
Defined.

End AssociationFacts.

(** ** The per-flow pass *)

Module FlowPassFacts.
Import Double DoubleFacts Telemetry Scoring CellStats Association Traces
       FlowPass.

Lemma wrap_wrap_add (bits a b : Z) :
  wrap bits (wrap bits a + b) = wrap bits (a + b).
Proof. unfold wrap. now rewrite Zplus_mod_idemp_l. Qed.

Lemma findImsi_absent (ues : list (Z * Z)) (destinationAddress : Z) :
  destinationAddress ∉ ues.*1 -> findImsi ues destinationAddress = 0.
Proof.
  induction ues as [|[address imsi] ues IH]; intros Hnot; [reflexivity|].
  rewrite fmap_cons in Hnot. cbn [fst] in Hnot.
  apply not_elem_of_cons in Hnot as [Hne Hnot].
  cbn [findImsi].
  replace (address =? destinationAddress) with false
    by (symmetry; apply Z.eqb_neq; congruence).
  now apply IH.
Qed.

Lemma findImsi_first (before after : list (Z * Z)) (address imsi : Z) :
  address ∉ before.*1 ->
  findImsi (before ++ (address, imsi) :: after) address = imsi.
Proof.
  induction before as [|[a i] before IH]; intros Hnot.
  - cbn [app findImsi]. now rewrite Z.eqb_refl.
  - rewrite fmap_cons in Hnot. cbn [fst] in Hnot.
    apply not_elem_of_cons in Hnot as [Hne Hnot].
    cbn [app findImsi].
    replace (a =? address) with false
      by (symmetry; apply Z.eqb_neq; congruence).
    now apply IH.
Qed.

Lemma summaryOf_mk (m : gmap Z CellSummary) (a b c : float) (d e : Z)
  (rows : list FlowRow) (cellId : Z) :
  summaryOf (mkTotals m a b c d e rows) cellId
  = default CellSummary_init (m !! cellId).
Proof. reflexivity. Qed.

Section Facts.

Variable Time : Type.
Variable Time_sub : Time -> Time -> Time.
Variable GetSeconds : Time -> float.
Variable counter_bits : Z.
Variable ues : list (Z * Z).
Variable g : Globals.
Variable maps : AssocMaps.

Abbreviation Flow := (Flow Time).
Abbreviation processed := (processed Time ues).
Abbreviation processFlow :=
  (processFlow Time Time_sub GetSeconds counter_bits ues g maps).
Abbreviation flowPass :=
  (flowPass Time Time_sub GetSeconds counter_bits ues g maps).

(** The cell a processed flow is accounted to. *)
Abbreviation cellOf flow :=
  (default 0 (g_imsiToCell maps !! findImsi ues (destinationAddress Time flow))).

Lemma flowPass_snoc (stats : list Flow) (flow : Flow) :
  flowPass (stats ++ [flow]) = processFlow (flowPass stats) flow.
Proof. unfold FlowPass.flowPass. now rewrite fold_left_app. Qed.

Lemma processFlow_skipped (t : Totals) (flow : Flow) :
  processed flow = false -> processFlow t flow = t.
Proof.
  unfold FlowPass.processed, FlowPass.processFlow. cbv zeta.
  destruct (negb _ && negb _); [reflexivity|].
  destruct (findImsi ues (destinationAddress Time flow) =? 0);
    [reflexivity | discriminate].
Qed.

(** What a processed flow changes. *)
Lemma processFlow_processed (t : Totals) (flow : Flow) :
  processed flow = true ->
  let fs := flowStats Time flow in
  let t' := processFlow t flow in
  let isUrllc := destinationPort Time flow =? Apps.urllcPort in
  let isEmbb := destinationPort Time flow =? Apps.embbPort in
  let s := summaryOf t (cellOf flow) in
  let throughput := throughput Time Time_sub GetSeconds fs in
  isEmbb = negb isUrllc /\
  (exists row,
     flowRows t' = flowRows t ++ [row] /\
     r_flowId row = flowId Time flow /\ r_cellId row = cellOf flow /\
     r_isEmbb row = isEmbb /\ r_throughput row = throughput) /\
  (forall c, c <> cellOf flow -> cellSummaries t' !! c = cellSummaries t !! c) /\
  cellSummaries t' !! cellOf flow <> None /\
  (let s' := summaryOf t' (cellOf flow) in
   sinrSamples s' = wrap 32 (sinrSamples s + 1) /\
   flows (qoe s') = wrap 32 (flows (qoe s) + 1) /\
   totalTx s' = wrap 64 (totalTx s + txPackets Time fs) /\
   totalRx s' = wrap 64 (totalRx s + rxPackets Time fs) /\
   totalLost s' = wrap 64 (totalLost s + lostPackets Time counter_bits fs) /\
   totalPackets (qoe s') = wrap 64 (totalPackets (qoe s) + rxPackets Time fs) /\
   totalThroughput s' = (totalThroughput s + throughput)%float /\
   sumThroughput (qoe s') = (sumThroughput (qoe s) + throughput)%float) /\
  urllcFlows t' = (if isUrllc then wrap 32 (urllcFlows t + 1) else urllcFlows t) /\
  embbFlows t' = (if isUrllc then embbFlows t else wrap 32 (embbFlows t + 1)) /\
  totalSystemThroughput t' = (totalSystemThroughput t + throughput)%float.
Proof.
  unfold FlowPass.processed, FlowPass.processFlow. cbv zeta.
  unfold Apps.embbPort, Apps.urllcPort.
  destruct (Z.eqb_spec (destinationPort Time flow) 7000) as [E7|N7];
    destruct (Z.eqb_spec (destinationPort Time flow) 7001) as [E1|N1];
    cbn [negb andb]; try discriminate; try lia;
    (destruct (findImsi ues (destinationAddress Time flow) =? 0);
     [discriminate|]); intros _;
    (split; [reflexivity|]);
    (split; [eexists; split; [reflexivity|]; repeat split; reflexivity|]);
    cbn [cellSummaries urllcFlows embbFlows totalSystemThroughput];
    (split; [intros c Hc; now rewrite lookup_insert_ne by congruence|]);
    (split; [rewrite lookup_insert_eq; discriminate|]);
    rewrite !summaryOf_mk, !lookup_insert_eq; cbn [default from_option id];
    repeat split; reflexivity.
Qed.

(** X14: a flow whose destination port is neither application port, or
    whose destination is the address of no UE (or of a UE whose IMSI is
    0), changes no accumulator and writes no row: the pass gives what it
    gives on the processed flows alone, and writes one row per processed
    flow, in flow order. *)
Theorem pass_skips_foreign_flows (stats : list Flow) :
  flowPass stats = flowPass (filter processed stats) /\
  r_flowId <$> flowRows (flowPass stats)
  = flowId Time <$> filter processed stats /\
  (forall flow : Flow,
     destinationPort Time flow <> Apps.embbPort ->
     destinationPort Time flow <> Apps.urllcPort -> processed flow = false) /\
  (forall flow : Flow,
     destinationAddress Time flow ∉ ues.*1 -> processed flow = false).
Proof.
  split; [|split; [|split]].
  - induction stats as [|flow stats IH] using rev_ind; [reflexivity|].
    rewrite TraceFacts.filter_snoc, flowPass_snoc.
    destruct (processed flow) eqn:Hp.
    + now rewrite flowPass_snoc, IH.
    + now rewrite app_nil_r, processFlow_skipped.
  - induction stats as [|flow stats IH] using rev_ind; [reflexivity|].
    rewrite TraceFacts.filter_snoc, flowPass_snoc.
    destruct (processed flow) eqn:Hp.
    + destruct (processFlow_processed (flowPass stats) flow Hp)
        as (_ & (row & -> & Hid & _) & _).
      rewrite !fmap_app, IH. cbn [fmap list_fmap]. now rewrite Hid.
    + now rewrite app_nil_r, processFlow_skipped.
  - intros flow H0 H1. unfold FlowPass.processed. cbv zeta.
    replace (destinationPort Time flow =? Apps.embbPort) with false
      by (symmetry; apply Z.eqb_neq; congruence).
    replace (destinationPort Time flow =? Apps.urllcPort) with false
      by (symmetry; apply Z.eqb_neq; congruence).
    reflexivity.
  - intros flow Hnot. unfold FlowPass.processed. cbv zeta.
    rewrite findImsi_absent by exact Hnot.
    now destruct (negb _ && negb _).
Qed.

Lemma summary_invariant (stats : list Flow) (cellId : Z) :
  let t := flowPass stats in
  let s := summaryOf t cellId in
  let rows := filter (fun row => r_cellId row =? cellId) (flowRows t) in
  flows (qoe s) = sinrSamples s /\
  sinrSamples s = wrap 32 (Z.of_nat (length rows)) /\
  totalPackets (qoe s) = totalRx s /\
  sumThroughput (qoe s) = totalThroughput s /\
  (rows = [] <-> cellSummaries t !! cellId = None).
Proof.
  cbv zeta. induction stats as [|flow stats IH] using rev_ind.
  - split; [reflexivity | split; [reflexivity | split; [reflexivity
      | split; [reflexivity | split; intros _; [apply lookup_empty | reflexivity]]]]].
  - rewrite flowPass_snoc.
    destruct (processed flow) eqn:Hp; [|now rewrite processFlow_skipped].
    destruct (processFlow_processed (flowPass stats) flow Hp)
      as (_ & (row & Erows & _ & Ecell & _) & Hother & Hsome & Hs & _).
    cbv zeta in Hs. destruct Hs as (En & Ef & _ & Erx & _ & Epk & Eth & Esum).
    destruct IH as (IHf & IHn & IHp & IHt & IHe).
    rewrite Erows, TraceFacts.filter_snoc, Ecell.
    destruct (Z.eqb_spec (cellOf flow) cellId) as [<-|Hne].
    + rewrite En, Ef, Erx, Epk, Eth, Esum, IHf, IHp, IHt, IHn.
      rewrite length_app, TraceFacts.wrap_succ. cbn [length].
      split; [reflexivity | split; [f_equal; lia | split; [reflexivity | split; [reflexivity|]]]].
      split; [intros H; now apply app_eq_nil in H as [_ H] | intros H; contradiction].
    + rewrite app_nil_r. unfold summaryOf in *.
      rewrite (Hother cellId) by congruence.
      split; [exact IHf | split; [exact IHn | split; [exact IHp | split; [exact IHt | exact IHe]]]].
Qed.

(** X15: in every cell summary the pass keeps the two flow counters
    equal ([qoe.flows] and [sinrSamples], the number of rows of the cell
    modulo 2^32), the received packets of the QoE record equal to
    [totalRx], and the two throughput sums equal; a cell with no row has
    no entry in the map. *)
Theorem cell_summaries_stay_consistent (stats : list Flow) (cellId : Z) :
  let t := flowPass stats in
  let s := summaryOf t cellId in
  let rows := filter (fun row => r_cellId row =? cellId) (flowRows t) in
  flows (qoe s) = sinrSamples s /\
  sinrSamples s = wrap 32 (Z.of_nat (length rows)) /\
  totalPackets (qoe s) = totalRx s /\
  sumThroughput (qoe s) = totalThroughput s /\
  (rows = [] <-> cellSummaries t !! cellId = None).
Proof. exact (summary_invariant stats cellId). Qed.

(** The scores of every row written lie in [0, 100]. *)
Lemma rows_scores_in_range (stats : list Flow) :
  Forall (fun row =>
            ((0 <=? r_qoeScore row)%float = true /\
             (r_qoeScore row <=? 100)%float = true) /\
            ((0 <=? r_reliabilityScore row)%float = true /\
             (r_reliabilityScore row <=? 100)%float = true))
         (flowRows (flowPass stats)).
Proof.
  induction stats as [|flow stats IH] using rev_ind; [constructor|].
  rewrite flowPass_snoc.
  destruct (processed flow) eqn:Hp; [|now rewrite processFlow_skipped].
  revert Hp. unfold FlowPass.processed, FlowPass.processFlow. cbv zeta.
  destruct (negb _ && negb _); [discriminate|].
  destruct (findImsi ues (destinationAddress Time flow) =? 0); [discriminate|].
  intros _. cbn [flowRows]. apply Forall_app. split; [exact IH|].
  constructor; [|constructor]. cbn [r_qoeScore r_reliabilityScore].
  split; [apply ScoringFacts.qoeScore_range
         | apply ScoringFacts.reliabilityScore_range].
Qed.


(** X17: when no processed flow received more packets than were sent,
    the lost packets of every cell are its sent packets minus its
    received packets, modulo the 64 bits of the accumulators. *)
Theorem cell_lost_is_sent_minus_received (stats : list Flow) (cellId : Z) :
  0 <= counter_bits ->
  (forall flow : Flow, flow ∈ stats -> processed flow = true ->
     0 <= rxPackets Time (flowStats Time flow)
       <= txPackets Time (flowStats Time flow) /\
     txPackets Time (flowStats Time flow) < 2 ^ counter_bits) ->
  let s := summaryOf (flowPass stats) cellId in
  totalLost s = wrap 64 (totalTx s - totalRx s) /\
  0 <= totalLost s < 2 ^ 64.
Proof.
  intros Hb Hflows. cbv zeta.
  assert (P64 : 0 < 2 ^ 64) by (apply Z.pow_pos_nonneg; lia).
  induction stats as [|flow stats IH] using rev_ind.
  - split; [reflexivity|].
    assert (E : totalLost (summaryOf (flowPass []) cellId) = 0) by reflexivity.
    rewrite E. lia.
  - rewrite flowPass_snoc.
    assert (IH' : totalLost (summaryOf (flowPass stats) cellId)
                  = wrap 64 (totalTx (summaryOf (flowPass stats) cellId)
                             - totalRx (summaryOf (flowPass stats) cellId)) /\
                  0 <= totalLost (summaryOf (flowPass stats) cellId) < 2 ^ 64).
    { apply IH. intros f Hf. apply Hflows, elem_of_app. now left. }
    clear IH.
    destruct (processed flow) eqn:Hp; [|now rewrite processFlow_skipped].
    destruct (Hflows flow ltac:(apply elem_of_app; right; apply list_elem_of_singleton; reflexivity) Hp)
      as (Hrx & Htx).
    destruct (processFlow_processed (flowPass stats) flow Hp)
      as (_ & _ & Hother & _ & Hs & _).
    cbv zeta in Hs. destruct Hs as (_ & _ & Etx & Erx & Elost & _).
    destruct (Z.eq_dec cellId (cellOf flow)) as [->|Hne].
    + rewrite Elost, Etx, Erx. destruct IH' as [-> _].
      unfold lostPackets.
      rewrite (PlacementFacts.wrap_small counter_bits) by lia.
      split; [|unfold wrap; apply Z.mod_pos_bound; exact P64].
      rewrite wrap_wrap_add. unfold wrap.
      rewrite <- Zminus_mod. f_equal. lia.
    + unfold summaryOf in *. rewrite (Hother cellId) by congruence. exact IH'.
Qed.

(** The row a processed flow writes, and the sums of its cell. *)
Lemma processFlow_row (t : Totals) (flow : Flow) :
  processed flow = true ->
  let t' := processFlow t flow in
  let s := summaryOf t (cellOf flow) in
  let s' := summaryOf t' (cellOf flow) in
  exists row,
    flowRows t' = flowRows t ++ [row] /\
    r_cellId row = cellOf flow /\
    (forall c, c <> cellOf flow -> cellSummaries t' !! c = cellSummaries t !! c) /\
    (totalTx s' = wrap 64 (totalTx s + r_txPackets row) /\
     totalRx s' = wrap 64 (totalRx s + r_rxPackets row) /\
     totalLost s' = wrap 64 (totalLost s + r_lostPackets row)) /\
    (totalThroughput s' = (totalThroughput s + r_throughput row)%float /\
     totalSinr s' = (totalSinr s + r_avgSinr row)%float /\
     totalDelay (qoe s') = (totalDelay (qoe s) + r_meanDelay row)%float /\
     totalJitter (qoe s') = (totalJitter (qoe s) + r_meanJitter row)%float).
Proof.
  unfold FlowPass.processed, FlowPass.processFlow. cbv zeta.
  destruct (negb _ && negb _); [discriminate|].
  destruct (findImsi ues (destinationAddress Time flow) =? 0); [discriminate|].
  intros _. eexists. split; [reflexivity|].
  cbn [cellSummaries r_cellId r_txPackets r_rxPackets r_lostPackets
       r_throughput r_avgSinr r_meanDelay r_meanJitter].
  split; [reflexivity|].
  split; [intros c Hc; now rewrite lookup_insert_ne by congruence|].
  rewrite !summaryOf_mk, !lookup_insert_eq. cbn [default from_option id].
  repeat split; reflexivity.
Qed.

(** X25: the totals of a cell are the sums over the rows accounted to
    it, in flow order: sent, received and lost packets modulo 2^64, and
    throughput, average SINR, mean delay and mean jitter in double
    arithmetic. *)
Theorem cell_totals_sum_their_rows (stats : list Flow) (cellId : Z) :
  let t := flowPass stats in
  let s := summaryOf t cellId in
  let rows := filter (fun row => r_cellId row =? cellId) (flowRows t) in
  (totalTx s = wrap 64 (Tally.total (r_txPackets <$> rows)) /\
   totalRx s = wrap 64 (Tally.total (r_rxPackets <$> rows)) /\
   totalLost s = wrap 64 (Tally.total (r_lostPackets <$> rows))) /\
  (totalThroughput s = sumFrom 0 (r_throughput <$> rows) /\
   totalSinr s = sumFrom 0 (r_avgSinr <$> rows) /\
   totalDelay (qoe s) = sumFrom 0 (r_meanDelay <$> rows) /\
   totalJitter (qoe s) = sumFrom 0 (r_meanJitter <$> rows)).
Proof.
  cbv zeta. induction stats as [|flow stats IH] using rev_ind.
  - repeat split; reflexivity.
  - rewrite flowPass_snoc.
    destruct (processed flow) eqn:Hp; [|now rewrite processFlow_skipped].
    destruct (processFlow_row (flowPass stats) flow Hp)
      as (row & Erows & Ecell & Hother & (Etx & Erx & Elost) & (Eth & Esinr & Ed & Ej)).
    cbv zeta in Etx, Erx, Elost, Eth, Esinr, Ed, Ej.
    destruct IH as ((IHtx & IHrx & IHlost) & (IHth & IHsinr & IHd & IHj)).
    rewrite Erows, TraceFacts.filter_snoc. cbv beta. rewrite Ecell.
    destruct (Z.eqb_spec (cellOf flow) cellId) as [<-|Hne].
    + rewrite Etx, Erx, Elost, Eth, Esinr, Ed, Ej.
      rewrite IHtx, IHrx, IHlost, IHth, IHsinr, IHd, IHj.
      rewrite !fmap_app. cbn [fmap list_fmap].
      rewrite !PlacementFacts.total_app, !TraceFacts.sumFrom_snoc, !wrap_wrap_add.
      assert (E1 : forall x, Tally.total [x] = x)
        by (intros x; unfold Tally.total; cbn [foldr]; lia).
      rewrite !E1. repeat split; reflexivity.
    + rewrite app_nil_r. unfold summaryOf in *.
      rewrite (Hother cellId) by congruence.
      repeat split; assumption.
Qed.

End Facts.

(** *** Closed instances *)

Lemma cell_lost_is_sent_minus_received_witness :
  let pass :=
    flowPass Z Z.sub Samples.nsSeconds 32 Scenarios.sampleUes Globals_init
             Scenarios.sampleMaps Scenarios.sampleFlows in
  (0 <= 32 /\
   forall flow, flow ∈ Scenarios.sampleFlows ->
     processed Z Scenarios.sampleUes flow = true ->
     0 <= rxPackets Z (flowStats Z flow) <= txPackets Z (flowStats Z flow) /\
     txPackets Z (flowStats Z flow) < 2 ^ 32) /\
  totalLost (summaryOf pass 0) = wrap 64 (totalTx (summaryOf pass 0)
                                          - totalRx (summaryOf pass 0)) /\
  totalLost (summaryOf pass 0) = 10 /\
  length (flowRows pass) = 2%nat.
Proof.
  intros pass.
  assert (Hb : 0 <= 32) by lia.
  assert (Hflows : forall flow, flow ∈ Scenarios.sampleFlows ->
            processed Z Scenarios.sampleUes flow = true ->
            0 <= rxPackets Z (flowStats Z flow) <= txPackets Z (flowStats Z flow) /\
            txPackets Z (flowStats Z flow) < 2 ^ 32).
  { intros flow Hin _. change (2 ^ 32) with 4294967296.
    unfold Scenarios.sampleFlows in Hin.
    repeat (apply elem_of_cons in Hin as [-> | Hin]); [cbn; lia ..|].
    now apply elem_of_nil in Hin. }
  split; [split; [exact Hb | exact Hflows]|].
  split; [exact (proj1 (cell_lost_is_sent_minus_received Z Z.sub Samples.nsSeconds
                          32 Scenarios.sampleUes Globals_init Scenarios.sampleMaps
                          Scenarios.sampleFlows 0 Hb Hflows))|].
  split; vm_compute; reflexivity.
Defined.

End FlowPassFacts.

(** ** The per-cell report *)

Module CellReportFacts.
Import Double DoubleFacts Telemetry CellStats Association FlowPass CellReport.

(** Zero divided by a value above zero is zero. *)
Lemma zero_div (x : float) : (0 <? x)%float = true -> (0 / x)%float = 0%float.
Proof.
  intros H. rewrite ltb_spec in H.
  apply Prim2SF_inj. rewrite div_spec.
  change (Prim2SF 0) with (S754_zero false) in *.
  destruct (Prim2SF x) as [[|]|[|]| |[|] m e]; try discriminate; reflexivity.
Qed.

Lemma loadBalance_absent (cellSummaries : gmap Z CellSummary) (cellId : Z) :
  cellSummaries !! cellId = None ->
  loadBalance cellSummaries cellId = 0%float.
Proof.
  intros E. unfold loadBalance. rewrite E. cbv zeta.
  cbn [default from_option id CellSummary_init totalThroughput].
  destruct (0 <? maxCellThroughput cellSummaries)%float eqn:H; [|reflexivity].
  rewrite zero_div by exact H. reflexivity.
Qed.

Section Facts.

Variable Time : Type.
Variable Time_sub : Time -> Time -> Time.
Variable GetSeconds : Time -> float.
Variable counter_bits : Z.
Variable ues : list (Z * Z).
Variable g : Globals.
Variable maps : AssocMaps.

Abbreviation flowPass :=
  (flowPass Time Time_sub GetSeconds counter_bits ues g maps).

(** X18: a cell to which the pass accounted no flow is reported with
    zero packets, zero throughput, zero loss ratio and zero averages
    (the guards replace the divisions by zero), and, its average SINR
    being 0 and thus below both thresholds, with a QoE score of 0, a
    reliability of 0 and a load balance of 0. *)
Theorem cell_without_flows_reports_zeros
  (stats : list (Flow Time)) (cellId : Z) :
  let t := flowPass stats in
  filter (fun row => r_cellId row =? cellId) (flowRows t) = [] ->
  let row := cellRow (cellSummaries t) maps cellId in
  (c_totalTx row = 0 /\ c_totalRx row = 0 /\ c_totalLost row = 0) /\
  (c_totalThroughput row = 0%float /\ c_spectralEfficiency row = 0%float) /\
  (c_packetLossRatio row = 0%float /\ c_avgSinr row = 0%float /\
   c_avgDelay row = 0%float /\ c_avgJitter row = 0%float) /\
  (c_cellQoE row = 0%float /\ c_reliability row = 0%float /\
   c_loadBalance row = 0%float).
Proof.
  cbv zeta. intros Hrows.
  pose proof (FlowPassFacts.summary_invariant Time Time_sub GetSeconds
                counter_bits ues g maps stats cellId) as H.
  cbv zeta in H. destruct H as (_ & _ & _ & _ & Hnone).
  apply Hnone in Hrows.
  unfold cellRow. cbv zeta.
  cbn [c_totalTx c_totalRx c_totalLost c_totalThroughput c_spectralEfficiency
       c_packetLossRatio c_avgSinr c_avgDelay c_avgJitter c_cellQoE
       c_reliability c_loadBalance].
  rewrite loadBalance_absent by exact Hrows.
  rewrite Hrows. cbn [default from_option id].
  repeat split; vm_compute; reflexivity.
Qed.

(** X19: every score written to the flow file and to the cell file
    lies between 0 and 100 and is not NaN, whatever the counters, sums
    and averages it is computed from (NaN and infinities included); the
    cell file has one row per cell id below [numCells], in ascending
    order. *)
Theorem written_scores_stay_in_range (stats : list (Flow Time))
  (cellSummaries : gmap Z CellSummary) (numCells : Z) :
  let inRange := fun score : float =>
    (0 <=? score)%float = true /\ (score <=? 100)%float = true in
  let rows := cellRows cellSummaries maps numCells in
  Forall (fun row => inRange (r_qoeScore row) /\ inRange (r_reliabilityScore row))
         (flowRows (flowPass stats)) /\
  Forall (fun row => inRange (c_cellQoE row) /\ inRange (c_reliability row)) rows /\
  c_cellId <$> rows = seqZ 0 numCells.
Proof.
  cbv zeta. unfold cellRows. split; [|split].
  - apply FlowPassFacts.rows_scores_in_range.
  - apply Forall_fmap, Forall_forall. intros cellId _. unfold compose.
    unfold cellRow. cbv zeta. cbn [c_cellQoE c_reliability].
    split; [apply (clamp_0_100_range _) | apply (clamp_0_100_range _)].
  - rewrite <- list_fmap_compose.
    rewrite (list_fmap_ext _ id (seqZ 0 numCells)) by reflexivity.
    apply list_fmap_id.
Qed.

End Facts.

(** *** Closed instances *)

Lemma cell_without_flows_reports_zeros_witness :
  let t :=
    FlowPass.flowPass Z Z.sub Samples.nsSeconds 32 Scenarios.sampleUes
                      Globals_init Scenarios.sampleMaps Scenarios.sampleFlows in
  let row := cellRow (cellSummaries t) Scenarios.sampleMaps 2 in
  filter (fun row => r_cellId row =? 2) (flowRows t) = [] /\
  c_cellQoE row = 0%float /\ c_reliability row = 0%float /\
  c_loadBalance row = 0%float.
Proof.
  intros t row.
  assert (Hrows : filter (fun row => r_cellId row =? 2) (flowRows t) = [])
    by (vm_compute; reflexivity).
  split; [exact Hrows|].
  exact (proj2 (proj2 (proj2
           (cell_without_flows_reports_zeros Z Z.sub Samples.nsSeconds 32
              Scenarios.sampleUes Globals_init Scenarios.sampleMaps
              Scenarios.sampleFlows 2 Hrows)))).
Defined.

End CellReportFacts.

(** ** The sequential runner *)

Module RunnerFacts.
Import stdpp.strings.
Import Runner.
#[local] Open Scope Z_scope.

Lemma sh_wrap_small (z : Z) : - 2 ^ 63 <= z < 2 ^ 63 -> sh_wrap z = z.
Proof.
  intros H. unfold sh_wrap.
  assert (E : 2 ^ 64 = 2 * 2 ^ 63) by reflexivity.
  rewrite Z.mod_small by lia. lia.
Qed.

Lemma filter_cons_bool {A} (P : A -> bool) (x : A) (l : list A) :
  filter P (x :: l) = if P x then x :: filter P l else filter P l.
Proof. rewrite filter_cons. destruct (P x); reflexivity. Qed.

Lemma quot_small (a b : Z) : 0 <= a -> 0 < b -> 0 <= Z.quot a b <= a.
Proof.
  intros Ha Hb. rewrite Z.quot_div_nonneg by lia.
  split; [apply Z.div_pos; lia|].
  apply Z.div_le_upper_bound; [lia|]. nia.
Qed.

(** X20: a duration in seconds that is not negative is split into
    hours, minutes and seconds without loss: the three parts recompose
    the duration, and the minutes and seconds are below 60. *)
Theorem duration_splits_into_h_m_s (t : Z) :
  0 <= t < 2 ^ 63 ->
  t = 3600 * hours t + 60 * minutes t + seconds t /\
  0 <= hours t /\ 0 <= minutes t < 60 /\ 0 <= seconds t < 60.
Proof.
  intros Ht. unfold hours, minutes, seconds, sh_div_lit, sh_mod_lit.
  pose proof (quot_small t 3600 ltac:(lia) ltac:(lia)) as Hq.
  rewrite (sh_wrap_small (Z.quot t 3600)) by lia.
  assert (Hr : 0 <= Z.rem t 3600 < 3600).
  { rewrite Z.rem_mod_nonneg by lia. apply Z.mod_pos_bound. lia. }
  pose proof (quot_small (Z.rem t 3600) 60 ltac:(lia) ltac:(lia)) as Hq'.
  rewrite (sh_wrap_small (Z.quot (Z.rem t 3600) 60)) by lia.
  rewrite !Z.quot_div_nonneg, !Z.rem_mod_nonneg by lia.
  rewrite Z.rem_mod_nonneg in Hr by lia.
  pose proof (Z.div_mod t 3600 ltac:(lia)) as E1.
  pose proof (Z.div_mod (t mod 3600) 60 ltac:(lia)) as E2.
  pose proof (Z.div_mod t 60 ltac:(lia)) as E3.
  pose proof (Z.mod_pos_bound (t mod 3600) 60 ltac:(lia)) as B2.
  pose proof (Z.mod_pos_bound t 60 ltac:(lia)) as B3.
  assert (0 <= t / 3600) by (apply Z.div_pos; lia).
  assert (0 <= t mod 3600 / 60 < 60)
    by (split; [apply Z.div_pos; lia | apply Z.div_lt_upper_bound; lia]).
  lia.
Qed.

(** *** The plan *)




(** *** The main loop *)

Section Main.

Variable run_single_simulation : Config -> Z -> Z -> bool.
Variable total : Z.

Abbreviation mainStep := (mainStep run_single_simulation total).
Abbreviation mainLoop := (mainLoop run_single_simulation total).

Abbreviation reportDue :=
  (fun k => (sh_mod_lit k 5 =? 0) || (k =? total)).

Lemma mainLoop_snoc (configs : list Config) (config : Config) :
  mainLoop (configs ++ [config]) = mainStep (mainLoop configs) config.
Proof. unfold Runner.mainLoop. now rewrite fold_left_app. Qed.

Lemma percent_range (k : Z) :
  0 <= k <= total -> 0 < total -> total < 2 ^ 32 ->
  sh_div (sh_mul k 100) total = Some (k * 100 / total) /\
  0 <= k * 100 / total <= 100 /\
  (k = total -> k * 100 / total = 100).
Proof.
  intros Hk Ht H32.
  assert (P32 : 2 ^ 32 = 4294967296) by reflexivity.
  assert (P63 : 2 ^ 63 = 9223372036854775808) by reflexivity.
  unfold sh_div, sh_mul.
  replace (total =? 0) with false by (symmetry; apply Z.eqb_neq; lia).
  rewrite (sh_wrap_small (k * 100)) by lia.
  rewrite Z.quot_div_nonneg by lia.
  assert (Hq : 0 <= k * 100 / total <= 100).
  { split; [apply Z.div_pos; lia|].
    apply Z.div_le_upper_bound; [lia|]. nia. }
  rewrite sh_wrap_small by lia.
  split; [reflexivity | split; [exact Hq|]].
  intros ->. rewrite Z.mul_comm. apply Z.div_mul. lia.
Qed.

(** What holds after the first [n] simulations of the plan. *)
Lemma mainLoop_invariant (configs rest : list Config) :
  total = Z.of_nat (length (configs ++ rest)) -> total < 2 ^ 32 ->
  let st := mainLoop configs in
  let n := Z.of_nat (length configs) in
  sim_number st = n + 1 /\
  (successful_sims st + failed_sims st = n /\
   0 <= successful_sims st /\ 0 <= failed_sims st) /\
  omap runOf (actions st)
  = imap (fun i config => (config, Z.of_nat i + 1)) configs /\
  omap reportOf (actions st) = filter reportDue (seqZ 1 n) /\
  Z.of_nat (length (filter isPause (actions st))) = Z.min n (Z.max 0 (total - 1)) /\
  Forall percentagesDefined (actions st) /\
  (configs <> [] -> rest = [] ->
   exists failed,
     QuickReport total failed ∈ actions st /\
     show_progress_summary total total failed = Some (total - failed, 100, None)).
Proof.
  assert (P32 : 2 ^ 32 = 4294967296) by reflexivity.
  assert (P63 : 2 ^ 63 = 9223372036854775808) by reflexivity.
  revert rest.
  induction configs as [|config configs IH] using rev_ind;
    intros rest Etot H32; cbv zeta.
  - cbn. repeat split; try lia; try constructor. congruence.
  - rewrite <- app_assoc in Etot.
    destruct (IH _ Etot H32)
      as (Hk & (Hsum & Hs0 & Hf0) & Hruns & Hrep & Hpause & Hall & _).
    clear IH.
    rewrite mainLoop_snoc. set (st := mainLoop configs) in *.
    rewrite !length_app in Etot. cbn [length] in Etot.
    rewrite length_app. cbn [length].
    set (n := Z.of_nat (length configs)) in *.
    replace (Z.of_nat (length configs + 1)) with (n + 1) by lia.
    assert (Hn : 0 <= n < total) by lia.
    unfold Runner.mainStep. cbv zeta.
    cbn [sim_number successful_sims failed_sims actions].
    rewrite Hk.
    set (ok := run_single_simulation config (n + 1) total).
    set (failed' := if ok then failed_sims st else sh_add (failed_sims st) 1).
    set (successful' := if ok then sh_add (successful_sims st) 1 else successful_sims st).
    assert (Hcount : successful' + failed' = n + 1 /\ 0 <= successful' /\ 0 <= failed').
    { subst successful' failed'. unfold sh_add.
      destruct ok; rewrite sh_wrap_small by lia; lia. }
    assert (Enext : sh_add (n + 1) 1 = n + 2)
      by (unfold sh_add; rewrite sh_wrap_small by lia; lia).
    rewrite Enext.
    destruct (percent_range (n + 1) ltac:(lia) ltac:(lia) H32) as (Ediv & Hpct & Hfull).
    assert (Hshow : percentagesDefined (ShowProgress (n + 1) total failed')).
    { cbn [percentagesDefined]. unfold show_progress_summary. rewrite Ediv.
      eexists _, _, _. split; [reflexivity|]. split; [|exact Hpct].
      unfold sh_sub. rewrite sh_wrap_small by lia. lia. }
    assert (Hquick : percentagesDefined (QuickReport (n + 1) failed')).
    { cbn [percentagesDefined]. unfold generate_quick_report, sh_div, sh_mul, sh_sub.
      replace (n + 1 =? 0) with false by (symmetry; apply Z.eqb_neq; lia).
      rewrite (sh_wrap_small (n + 1 - failed')) by lia.
      rewrite (sh_wrap_small ((n + 1 - failed') * 100)) by lia.
      rewrite Z.quot_div_nonneg by lia.
      assert (Hq : 0 <= (n + 1 - failed') * 100 / (n + 1) <= 100).
      { split; [apply Z.div_pos; lia|].
        apply Z.div_le_upper_bound; [lia|]. nia. }
      rewrite sh_wrap_small by lia.
      eexists. split; [reflexivity | exact Hq]. }
    split; [lia | split; [exact Hcount|]].
    rewrite !omap_app, !filter_app, !length_app, Hruns, Hrep.
    replace (seqZ 1 (n + 1)) with (seqZ 1 n ++ [1 + n])
      by (subst n; now rewrite <- seqZ_S, Nat2Z.inj_succ, Z.add_1_r).
    rewrite (TraceFacts.filter_snoc reportDue).
    replace (1 + n) with (n + 1) by lia.
    rewrite imap_app. cbn [imap]. rewrite Nat.add_0_r. fold n.
    cbv beta.
    set (due := (sh_mod_lit (n + 1) 5 =? 0) || (n + 1 =? total)).
    split; [|split; [|split; [|split]]].
    + destruct due, (n + 2 <=? total); cbn; rewrite ?app_nil_r; reflexivity.
    + destruct due, (n + 2 <=? total); cbn; rewrite ?app_nil_r; reflexivity.
    + rewrite !Nat2Z.inj_add, Hpause.
      destruct due, (Z.leb_spec (n + 2) total);
        rewrite ?filter_cons_bool, ?filter_nil; cbn [isPause length]; lia.
    + apply Forall_app. split; [exact Hall|].
      apply Forall_cons. split; [exact I|].
      apply Forall_cons. split; [exact Hshow|].
      apply Forall_app. split.
      * destruct due; [|constructor].
        apply Forall_cons. split; [exact Hquick | constructor].
      * destruct (n + 2 <=? total); [|constructor].
        apply Forall_cons. split; [exact I | constructor].
    + intros _ ->. cbn [length] in Etot.
      assert (En : n + 1 = total) by lia.
      exists failed'. split.
      * replace due with true
          by (symmetry; apply orb_true_iff; right; apply Z.eqb_eq; exact En).
        rewrite <- En. apply elem_of_app. right.
        apply list_elem_of_further, list_elem_of_further, list_elem_of_here.
      * rewrite <- En in Ediv, Hfull |- *.
        unfold show_progress_summary. rewrite Ediv, (Hfull eq_refl).
        rewrite Z.ltb_irrefl. unfold sh_sub. rewrite sh_wrap_small by lia.
        reflexivity.
Qed.

End Main.


(** X22: every division of the progress summaries and quick reports of
    the main loop is by a number that is not zero, and every percentage
    printed lies between 0 and 100; after the last simulation the
    progress is 100 % with no remaining time, a quick report is written,
    and the success rate of the final statistics is defined and at most
    100.  With an empty plan the final success rate divides by zero. *)
Theorem main_loop_percentages_defined
  (run_single_simulation : Config -> Z -> Z -> bool)
  (configs : list Config) :
  Z.of_nat (length configs) < 2 ^ 32 ->
  let total := Z.of_nat (length configs) in
  let st := mainLoop run_single_simulation total configs in
  Forall percentagesDefined (actions st) /\
  (configs <> [] ->
   (exists failed,
      QuickReport total failed ∈ actions st /\
      show_progress_summary total total failed = Some (total - failed, 100, None)) /\
   (exists rate,
      final_success_rate (successful_sims st) total = Some rate /\
      0 <= rate <= 100)) /\
  (configs = [] -> final_success_rate (successful_sims st) total = None).
Proof.
  intros H32. cbv zeta.
  destruct (mainLoop_invariant run_single_simulation (Z.of_nat (length configs))
              configs [] ltac:(now rewrite app_nil_r) H32)
    as (_ & (Hsum & Hs0 & Hf0) & _ & _ & _ & Hall & Hlast).
  split; [exact Hall | split].
  - intros Hne. split; [now apply Hlast|].
    assert (Hpos : 0 < Z.of_nat (length configs))
      by (destruct configs; [congruence | cbn [length]; lia]).
    destruct (percent_range (Z.of_nat (length configs))
                (successful_sims (mainLoop run_single_simulation
                                    (Z.of_nat (length configs)) configs))
                ltac:(lia) Hpos H32) as (E & Hr & _).
    eexists. split; [exact E | exact Hr].
  - intros ->. reflexivity.
Qed.

(** *** Closed instances *)

Lemma duration_splits_into_h_m_s_witness :
  0 <= 3725 < 2 ^ 63 /\
  3725 = 3600 * hours 3725 + 60 * minutes 3725 + seconds 3725 /\
  (hours 3725, minutes 3725, seconds 3725) = (1, 2, 5).
Proof.
  assert (Ht : 0 <= 3725 < 2 ^ 63)
    by (change (2 ^ 63) with 9223372036854775808; lia).
  split; [exact Ht|].
  split; [exact (proj1 (duration_splits_into_h_m_s 3725 Ht)) | reflexivity].
Defined.


Lemma main_loop_percentages_defined_witness :
  let configs := plan CELL_NUMBERS SCENARIOS SCENARIO_NAMES SEEDS in
  Z.of_nat (length configs) < 2 ^ 32 /\
  Forall percentagesDefined
         (actions (mainLoop (fun _ _ _ => false) (Z.of_nat (length configs)) configs)).
Proof.
  intros configs.
  assert (H32 : Z.of_nat (length configs) < 2 ^ 32)
    by (change (2 ^ 32) with 4294967296; cbn; lia).
  split; [exact H32|].
  exact (proj1 (main_loop_percentages_defined (fun _ _ _ => false) configs H32)).
Defined.

End RunnerFacts.

(** ** Percentages of integer counters *)

Module RatioFacts.
Import Double DoubleFacts Telemetry Scoring SystemReport.

(** *** The double quotient of two integers *)

(** The quotient of two positive integers below 2^53, before the final
    comparison: a 53-bit mantissa [m2], equal to the integer quotient
    [A * 2^d / T] or its successor, at exponent [-d], or the mantissa
    2^52 at exponent [-d + 1] when rounding carries. *)
Lemma SFdiv_int_shape (A T : Z) :
  0 < A < 2 ^ 53 -> 0 < T < 2 ^ 53 ->
  exists (d : Z) (m2 : positive) (e2 : Z),
    0 <= d <= 106 /\
    2 ^ 52 <= A * 2 ^ d / T < 2 ^ 53 /\
    SF64div (binary_normalize prec emax A 0 false)
            (binary_normalize prec emax T 0 false)
    = S754_finite false m2 e2 /\
    ((A * 2 ^ d / T <= Zpos m2 <= A * 2 ^ d / T + 1 /\
      Zpos m2 < 2 ^ 53 /\ e2 = - d) \/
     (A * 2 ^ d / T + 1 = 2 ^ 53 /\ Zpos m2 = 2 ^ 52 /\ e2 = - d + 1)).
Proof.
  intros HA HT.
  destruct (binary_normalize_exact A ltac:(lia)) as (mA & sA & HsA & EmA & BmA & ->).
  destruct (binary_normalize_exact T ltac:(lia)) as (mT & sT & HsT & EmT & BmT & ->).
  unfold SF64div, SFdiv, SFdiv_core_binary. cbn [xorb].
  assert (DA : Zdigits2 (Zpos mA) = 53)
    by (cbn [Zdigits2]; apply digits2_pos_unique; exact BmA).
  assert (DT : Zdigits2 (Zpos mT) = 53)
    by (cbn [Zdigits2]; apply digits2_pos_unique; exact BmT).
  rewrite DA, DT, fexp_binary64.
  replace (Z.min (Z.max (53 + - sA - (53 + - sT) - 53) (-1074)) (- sA - - sT))
    with (sT - sA - 53) by lia.
  replace (- sA - - sT - (sT - sA - 53)) with 53 by lia.
  cbv beta iota zeta.
  rewrite Z.shiftl_mul_pow2 by lia.
  assert (Ediv : Z.div_eucl (Zpos mA * 2 ^ 53) (Zpos mT)
                 = (Zpos mA * 2 ^ 53 / Zpos mT, (Zpos mA * 2 ^ 53) mod Zpos mT))
    by (unfold Z.div, Z.modulo; destruct (Z.div_eucl _ _); reflexivity).
  rewrite Ediv. clear Ediv.
  set (q := Zpos mA * 2 ^ 53 / Zpos mT).
  set (lz := new_location (Zpos mT) _).
  assert (P52 : 2 ^ 52 * 2 ^ 53 = 2 ^ 53 * 2 ^ 52) by ring.
  assert (P54 : 2 ^ 53 * 2 ^ 53 = 2 ^ 52 * 2 ^ 54)
    by (rewrite <- !Z.pow_add_r by lia; reflexivity).
  assert (Hp53 : 0 < 2 ^ 53) by (apply Z.pow_pos_nonneg; lia).
  assert (Hp52 : 0 < 2 ^ 52) by (apply Z.pow_pos_nonneg; lia).
  assert (Hq : 2 ^ 52 <= q < 2 ^ 54).
  { subst q. clear - BmA BmT P52 P54 Hp53 Hp52. split.
    - apply Z.div_le_lower_bound; [lia|]. nia.
    - apply Z.div_lt_upper_bound; [lia|]. nia. }
  pose proof (Zdigits2_bounds q ltac:(lia)) as [Dlo Dhi].
  assert (Hdq : Zdigits2 q = 53 \/ Zdigits2 q = 54).
  { assert (H1 : 2 ^ (Zdigits2 q - 1) < 2 ^ 54) by lia.
    assert (H2 : 2 ^ 52 < 2 ^ Zdigits2 q) by lia.
    apply Z.pow_lt_mono_r_iff in H1; [|lia|lia].
    apply Z.pow_lt_mono_r_iff in H2; [lia|lia|].
    destruct (Z.le_gt_cases 0 (Zdigits2 q)) as [?|Hneg]; [assumption|].
    rewrite (Z.pow_neg_r 2 (Zdigits2 q)) in H2 by lia. lia. }
  destruct (binary_round_aux_shape false q (sT - sA - 53) lz ltac:(lia))
    as (n & n' & mr & Hn & Hn' & Hmr & ->).
  rewrite fexp_binary64 in Hn.
  assert (En : n = Zdigits2 q - 53) by lia. clear Hn.
  assert (Hn01 : n = 0 \/ n = 1) by lia.
  assert (Hpn : 0 < 2 ^ n) by (apply Z.pow_pos_nonneg; lia).
  assert (Hm1 : 2 ^ 52 <= q / 2 ^ n < 2 ^ 53).
  { destruct Hdq as [E | E]; rewrite E in *.
    - replace n with 0 by lia. change (2 ^ 0) with 1. rewrite Z.div_1_r.
      change (53 - 1) with 52 in Dlo. lia.
    - replace n with 1 by lia. change (2 ^ 1) with 2.
      change (54 - 1) with 53 in Dlo.
      assert (E53 : 2 ^ 53 = 2 * 2 ^ 52) by (rewrite <- Z.pow_succ_r by lia; reflexivity).
      assert (E54 : 2 ^ 54 = 2 * 2 ^ 53) by (rewrite <- Z.pow_succ_r by lia; reflexivity).
      split.
      + apply Z.div_le_lower_bound; lia.
      + apply Z.div_lt_upper_bound; lia. }
  set (m1 := q / 2 ^ n) in *.
  set (d := sA + 53 - sT - n).
  assert (Hd : 0 <= d <= 106) by (subst d; clear - HsA HsT Hn01; lia).
  assert (Em1 : m1 = A * 2 ^ d / T).
  { subst m1 q. rewrite Z.div_div by lia. rewrite EmA, EmT.
    rewrite <- !Z.mul_assoc, <- !Z.pow_add_r by lia.
    replace (sA + 53) with (d + (sT + n)) by (subst d; lia).
    rewrite Z.pow_add_r, Z.mul_assoc by lia.
    apply Z.div_mul_cancel_r; [lia | apply Z.pow_nonzero; lia]. }
  assert (Hmr_b : 2 ^ 52 <= mr <= 2 ^ 53 /\ m1 <= mr <= m1 + 1)
    by (destruct Hmr; subst mr; lia).
  pose proof (Zdigits2_bounds mr ltac:(lia)) as [Mlo Mhi].
  assert (Hdm : Zdigits2 mr = 53 \/ (Zdigits2 mr = 54 /\ mr = 2 ^ 53)).
  { assert (H2 : 2 ^ 52 < 2 ^ Zdigits2 mr) by lia.
    assert (Hnn : 0 <= Zdigits2 mr).
    { destruct (Z.le_gt_cases 0 (Zdigits2 mr)) as [?|Hneg]; [assumption|].
      rewrite (Z.pow_neg_r 2 (Zdigits2 mr)) in H2 by lia. lia. }
    apply Z.pow_lt_mono_r_iff in H2; [|lia|lia].
    destruct (Z.eq_dec (Zdigits2 mr) 53) as [?|Hne]; [now left | right].
    assert (H53 : 2 ^ 53 <= 2 ^ (Zdigits2 mr - 1)) by (apply Z.pow_le_mono_r; lia).
    assert (mr = 2 ^ 53) by lia. split; [|assumption].
    assert (H1 : 2 ^ (Zdigits2 mr - 1) < 2 ^ 54).
    { replace (2 ^ 54) with (2 * 2 ^ 53)
        by (rewrite <- Z.pow_succ_r by lia; reflexivity). lia. }
    apply Z.pow_lt_mono_r_iff in H1; lia. }
  rewrite fexp_binary64 in Hn'.
  replace (sT - sA - 53 + n) with (- d) in * by (subst d; lia).
  assert (E53 : 2 ^ 53 = 2 ^ 52 * 2)
    by (rewrite Z.mul_comm, <- Z.pow_succ_r by lia; reflexivity).
  clearbody d m1.
  clear - Hd Hm1 Hmr_b Hdm Hn' Hp52 E53 Em1.
  destruct Hdm as [E | [E Emr]]; rewrite E in Hn'.
  - assert (En' : n' = 0) by lia. clear Hn'. subst n'.
    change (2 ^ 0) with 1. rewrite Z.div_1_r, Z.add_0_r.
    destruct mr as [|m2|m2]; try lia.
    replace (- d <=? emax - prec) with true
      by (symmetry; apply Z.leb_le; change (emax - prec) with 971; lia).
    exists d, m2, (- d). rewrite <- Em1.
    split; [exact Hd | split; [exact Hm1 | split; [reflexivity|]]].
    left. split; [lia | split; [|reflexivity]].
    pose proof (Zdigits2_bounds (Zpos m2) ltac:(lia)) as [_ Hhi].
    rewrite E in Hhi. exact Hhi.
  - assert (En' : n' = 1) by lia. clear Hn'. subst n'.
    change (2 ^ 1) with 2. subst mr.
    replace (2 ^ 53 / 2) with (Zpos 4503599627370496) by reflexivity. cbv iota.
    replace (- d + 1 <=? emax - prec) with true
      by (symmetry; apply Z.leb_le; change (emax - prec) with 971; lia).
    exists d, 4503599627370496%positive, (- d + 1). rewrite <- Em1.
    split; [exact Hd | split; [exact Hm1 | split; [reflexivity|]]].
    right. split; [lia | split; reflexivity].
Qed.

(** A quotient of integers strictly below 100 rounds to at most 100. *)
Lemma SFdiv_int_below_100 (A T : Z) :
  0 < T < 2 ^ 32 -> 0 < A < 100 * T ->
  SFleb (SF64div (binary_normalize prec emax A 0 false)
                 (binary_normalize prec emax T 0 false))
        (S754_finite false 7036874417766400 (-46)) = true.
Proof.
  intros HT HA.
  assert (P32 : 2 ^ 32 = 4294967296) by reflexivity.
  assert (P53 : 2 ^ 53 = 9007199254740992) by reflexivity.
  assert (P52 : 2 ^ 52 = 4503599627370496) by reflexivity.
  destruct (SFdiv_int_shape A T ltac:(lia) ltac:(lia))
    as (d & m2 & e2 & Hd & Hm1 & -> & Hshape).
  set (m1 := A * 2 ^ d / T) in *.
  assert (Hd46 : 46 <= d).
  { destruct (Z.le_gt_cases 46 d) as [?|Hlt]; [assumption | exfalso].
    assert (H45 : 2 ^ d <= 2 ^ 45) by (apply Z.pow_le_mono_r; lia).
    assert (Hp : 0 < 2 ^ d) by (apply Z.pow_pos_nonneg; lia).
    assert (Hup : m1 < 100 * 2 ^ 45).
    { subst m1. apply Z.div_lt_upper_bound; [lia|].
      change (2 ^ 45) with 35184372088832 in *.
      clear - HA HT H45 Hp. nia. }
    change (2 ^ 45) with 35184372088832 in Hup. lia. }
  assert (H46 : d = 46 -> m1 < 7036874417766400).
  { intros ->. subst m1. apply Z.div_lt_upper_bound; [lia|].
    change (2 ^ 46) with 70368744177664. lia. }
  assert (Hcmp : e2 < -46 \/ (e2 = -46 /\ Zpos m2 <= 7036874417766400)).
  { destruct Hshape as [(Hm2 & _ & ->) | (Hcarry & Em2 & ->)].
    - destruct (Z.eq_dec d 46) as [E|?]; [right | left; lia].
      specialize (H46 E). lia.
    - destruct (Z.eq_dec d 46) as [E|?]; [specialize (H46 E); lia|].
      destruct (Z.eq_dec d 47) as [E|?]; [right; lia | left; lia]. }
  clear - Hcmp.
  unfold SFleb, SFcompare. rewrite compare_cont_Z.
  destruct (Z.compare_spec e2 (-46)) as [Eq46 | Hlt | Hgt]; [|reflexivity|lia].
  destruct Hcmp as [? | [_ Hm2]]; [lia|].
  destruct (Z.compare_spec (Zpos m2) 7036874417766400); [reflexivity | reflexivity | lia].
Qed.

(** The quotient of [100 * T] by [T] is exactly 100. *)
Lemma SFdiv_int_exact_100 (T : Z) :
  0 < T < 2 ^ 32 ->
  SF64div (binary_normalize prec emax (100 * T) 0 false)
          (binary_normalize prec emax T 0 false)
  = S754_finite false 7036874417766400 (-46).
Proof.
  intros HT.
  assert (P32 : 2 ^ 32 = 4294967296) by reflexivity.
  assert (P53 : 2 ^ 53 = 9007199254740992) by reflexivity.
  assert (P52 : 2 ^ 52 = 4503599627370496) by reflexivity.
  destruct (binary_normalize_exact (100 * T) ltac:(lia))
    as (mA & sA & HsA & EmA & BmA & ->).
  destruct (binary_normalize_exact T ltac:(lia)) as (mT & sT & HsT & EmT & BmT & ->).
  assert (HpA : 0 < 2 ^ sA) by (apply Z.pow_pos_nonneg; lia).
  (* the two shifts differ by 6 or 7 places *)
  assert (Hlo : sA + 6 <= sT).
  { destruct (Z.le_gt_cases (sA + 6) sT) as [?|Hlt]; [assumption | exfalso].
    assert (H5 : 2 ^ sT <= 2 ^ (sA + 5)) by (apply Z.pow_le_mono_r; lia).
    rewrite Z.pow_add_r in H5 by lia. change (2 ^ 5) with 32 in H5.
    clear - EmA EmT BmA BmT H5 HpA HT P52 P53. nia. }
  assert (Hhi : sT <= sA + 7).
  { destruct (Z.le_gt_cases sT (sA + 7)) as [?|Hlt]; [assumption | exfalso].
    assert (H8 : 2 ^ (sA + 8) <= 2 ^ sT) by (apply Z.pow_le_mono_r; lia).
    rewrite Z.pow_add_r in H8 by lia. change (2 ^ 8) with 256 in H8.
    clear - EmA EmT BmA BmT H8 HpA HT P52 P53. nia. }
  unfold SF64div, SFdiv, SFdiv_core_binary. cbn [xorb].
  assert (DA : Zdigits2 (Zpos mA) = 53)
    by (cbn [Zdigits2]; apply digits2_pos_unique; exact BmA).
  assert (DT : Zdigits2 (Zpos mT) = 53)
    by (cbn [Zdigits2]; apply digits2_pos_unique; exact BmT).
  rewrite DA, DT, fexp_binary64.
  replace (Z.min (Z.max (53 + - sA - (53 + - sT) - 53) (-1074)) (- sA - - sT))
    with (sT - sA - 53) by lia.
  replace (- sA - - sT - (sT - sA - 53)) with 53 by lia.
  cbv beta iota zeta.
  rewrite Z.shiftl_mul_pow2 by lia.
  assert (Eq : Zpos mA * 2 ^ 53 = Zpos mT * (100 * 2 ^ (53 - (sT - sA)))).
  { rewrite EmA, EmT.
    assert (Hp : 2 ^ sA * 2 ^ 53 = 2 ^ sT * 2 ^ (53 - (sT - sA)))
      by (rewrite <- !Z.pow_add_r by lia; f_equal; lia).
    transitivity (100 * T * (2 ^ sA * 2 ^ 53)); [ring | rewrite Hp; ring]. }
  rewrite Eq, Z_div_eucl_mul by lia.
  assert (Hloc : new_location (Zpos mT) 0 = loc_Exact).
  { unfold new_location, new_location_even, new_location_odd.
    destruct (Z.even (Zpos mT)); reflexivity. }
  rewrite Hloc.
  assert (Hcase : sT - sA = 6 \/ sT - sA = 7) by lia.
  destruct Hcase as [E | E]; rewrite E; vm_compute; reflexivity.
Qed.

(** The percentage of [num] out of [den]. *)
Lemma percentage_range (num den : Z) :
  0 < den < 2 ^ 32 -> 0 <= num <= den ->
  let r := (100 * Z_to_double num / Z_to_double den)%float in
  (0 <=? r)%float = true /\ (r <=? 100)%float = true /\
  (num = 0 -> r = 0%float) /\ (num = den -> r = 100%float).
Proof.
  intros Hden Hnum. cbv zeta.
  assert (P32 : 2 ^ 32 = 4294967296) by reflexivity.
  assert (P53 : 2 ^ 53 = 9007199254740992) by reflexivity.
  assert (P63 : 2 ^ 63 = 9223372036854775808) by reflexivity.
  destruct (Z.eq_dec num 0) as [->|Hne].
  - assert (Hpos : (0 <? Z_to_double den)%float = true).
    { rewrite ltb_spec, Prim2SF_Z_to_double by lia.
      destruct (binary_normalize_exact den ltac:(lia)) as (m & s & _ & _ & _ & ->).
      reflexivity. }
    assert (E : (100 * Z_to_double 0 / Z_to_double den)%float = 0%float).
    { change (100 * Z_to_double 0)%float with 0%float.
      now apply CellReportFacts.zero_div. }
    rewrite E. repeat split; try reflexivity. intros <-. lia.
  - assert (Espec : Prim2SF (100 * Z_to_double num / Z_to_double den)
                    = SF64div (binary_normalize prec emax (100 * num) 0 false)
                              (binary_normalize prec emax den 0 false)).
    { rewrite div_spec, mul_spec, !Prim2SF_Z_to_double by lia.
      rewrite ScoringFacts.Prim2SF_100, SFmul_exact_int by lia. reflexivity. }
    destruct (Z.eq_dec num den) as [->|Hlt].
    + assert (E : (100 * Z_to_double den / Z_to_double den)%float = 100%float).
      { apply Prim2SF_inj. rewrite Espec, SFdiv_int_exact_100 by lia. reflexivity. }
      rewrite E. repeat split; try reflexivity. intros ->. lia.
    + assert (Hle : SFleb (Prim2SF (100 * Z_to_double num / Z_to_double den))
                          (S754_finite false 7036874417766400 (-46)) = true).
      { rewrite Espec. apply SFdiv_int_below_100; lia. }
      split; [|split; [|split; [intros ->; lia | intros ->; lia]]].
      * rewrite leb_spec, Espec.
        destruct (SFdiv_int_shape (100 * num) den ltac:(lia) ltac:(lia))
          as (d & m2 & e2 & _ & _ & -> & _).
        reflexivity.
      * rewrite leb_spec. exact Hle.
Qed.

Section Facts.

Variable Time : Type.
Variable counter_bits : Z.

Abbreviation packetLossRatio := (packetLossRatio Time counter_bits).

(** X23: when no more packets were received than sent, with counters of
    at most 32 bits, the loss ratio of a flow is a percentage: it lies
    between 0 and 100 in double arithmetic, it is exactly 0 when every
    packet sent was received (and when none was sent), and exactly 100
    when packets were sent and none received. *)
Theorem loss_ratio_is_a_percentage (fs : FlowStats Time) :
  let tx := txPackets Time fs in
  let rx := rxPackets Time fs in
  0 <= counter_bits <= 32 -> 0 <= rx <= tx -> tx < 2 ^ counter_bits ->
  (0 <=? packetLossRatio fs)%float = true /\
  (packetLossRatio fs <=? 100)%float = true /\
  (rx = tx -> packetLossRatio fs = 0%float) /\
  (rx = 0 -> 0 < tx -> packetLossRatio fs = 100%float).
Proof.
  cbv zeta. intros Hb Hrx Htx.
  assert (H32 : 2 ^ counter_bits <= 2 ^ 32) by (apply Z.pow_le_mono_r; lia).
  unfold Scoring.packetLossRatio, lostPackets.
  rewrite (PlacementFacts.wrap_small counter_bits) by lia.
  destruct (Z.ltb_spec 0 (txPackets Time fs)) as [Hpos | Hzero].
  - destruct (percentage_range (txPackets Time fs - rxPackets Time fs)
                (txPackets Time fs) ltac:(lia) ltac:(lia)) as (H0 & H100 & Hz & Hf).
    cbv zeta in *.
    split; [exact H0 | split; [exact H100 | split]].
    + intros E. apply Hz. lia.
    + intros E _. rewrite E, Z.sub_0_r in *. now apply Hf.
  - repeat split; try reflexivity. intros _ Hc. lia.
Qed.

End Facts.

(** X24: when the successes recorded do not exceed the handover
    attempts, the handover success rate of the system report lies
    between 0 and 100; it is exactly 100 when every attempt succeeded
    and 0 when there was no attempt. *)
Theorem handover_rate_is_a_percentage (g : Globals) :
  0 <= g_handoverSuccess g <= g_handoverAttempts g ->
  g_handoverAttempts g < 2 ^ 32 ->
  (0 <=? handoverSuccessRate g)%float = true /\
  (handoverSuccessRate g <=? 100)%float = true /\
  (0 < g_handoverAttempts g -> g_handoverSuccess g = g_handoverAttempts g ->
   handoverSuccessRate g = 100%float) /\
  (g_handoverAttempts g = 0 -> handoverSuccessRate g = 0%float).
Proof.
  intros Hs Ha. unfold handoverSuccessRate.
  destruct (Z.ltb_spec 0 (g_handoverAttempts g)) as [Hpos | Hzero].
  - destruct (percentage_range (g_handoverSuccess g) (g_handoverAttempts g)
                ltac:(lia) ltac:(lia)) as (H0 & H100 & _ & Hf).
    cbv zeta in *.
    split; [exact H0 | split; [exact H100 | split]].
    + intros _ E. now apply Hf.
    + intros E. lia.
  - repeat split; try reflexivity. intros Hc. lia.
Qed.

(** *** Closed instances *)

Lemma loss_ratio_is_a_percentage_witness :
  let fs := mkFlowStats unit 1000 990 0 tt tt tt tt in
  (0 <= 32 <= 32 /\ 0 <= rxPackets unit fs <= txPackets unit fs /\
   txPackets unit fs < 2 ^ 32) /\
  (packetLossRatio unit 32 fs <=? 100)%float = true /\
  packetLossRatio unit 32 fs = 1%float.
Proof.
  intros fs.
  assert (Hb : 0 <= 32 <= 32) by lia.
  assert (Hrx : 0 <= rxPackets unit fs <= txPackets unit fs) by (cbn; lia).
  assert (Htx : txPackets unit fs < 2 ^ 32)
    by (change (2 ^ 32) with 4294967296; cbn; lia).
  split; [auto|].
  split; [exact (proj1 (proj2 (loss_ratio_is_a_percentage unit 32 fs Hb Hrx Htx)))|].
  vm_compute. reflexivity.
Defined.

Lemma handover_rate_is_a_percentage_witness :
  let g := mkGlobals ∅ ∅ 3 2 1 in
  (0 <= g_handoverSuccess g <= g_handoverAttempts g /\
   g_handoverAttempts g < 2 ^ 32) /\
  (0 <=? handoverSuccessRate g)%float = true /\
  (handoverSuccessRate g <=? 100)%float = true.
Proof.
  intros g.
  assert (Hs : 0 <= g_handoverSuccess g <= g_handoverAttempts g) by (cbn; lia).
  assert (Ha : g_handoverAttempts g < 2 ^ 32)
    by (change (2 ^ 32) with 4294967296; cbn; lia).
  split; [auto|].
  destruct (handover_rate_is_a_percentage g Hs Ha) as (H0 & H100 & _).
  split; [exact H0 | exact H100].
Defined.

End RatioFacts.

(** ** The names of the run directories *)

Module ConsolidateFacts.
Import Stdlib.Strings.Ascii stdpp.strings.
Import Consolidate.

Lemma append_cons (c : ascii) (a b : string) :
  String c a +:+ b = String c (a +:+ b).
Proof. reflexivity. Qed.

Lemma append_nil_l (b : string) : "" +:+ b = b.
Proof. reflexivity. Qed.

Lemma append_nil_r (a : string) : a +:+ "" = a.
Proof. induction a as [|c a IH]; [reflexivity | now rewrite append_cons, IH]. Qed.

Lemma append_assoc (a b c : string) : (a +:+ b) +:+ c = a +:+ (b +:+ c).
Proof. induction a as [|x a IH]; [reflexivity | now rewrite !append_cons, IH]. Qed.

Lemma all_chars_app (P : ascii -> bool) (a b : string) :
  all_chars P (a +:+ b) = all_chars P a && all_chars P b.
Proof.
  induction a as [|c a IH]; [reflexivity|].
  rewrite append_cons. cbn [all_chars]. now rewrite IH, andb_assoc.
Qed.

Lemma all_chars_impl (P Q : ascii -> bool) (s : string) :
  (forall c, P c = true -> Q c = true) ->
  all_chars P s = true -> all_chars Q s = true.
Proof.
  intros H. induction s as [|c s IH]; cbn [all_chars]; [reflexivity|].
  intros [Hc Hs]%andb_prop. now rewrite (H c Hc), IH.
Qed.

Lemma digit_not_underscore (c : ascii) :
  is_digit c = true -> not_underscore c = true.
Proof. destruct c as [[] [] [] [] [] [] [] []]; vm_compute; congruence. Qed.

Lemma prefix_head (h : ascii) (old : string) (c : ascii) (rest : string) :
  c <> h -> String.prefix (String h old) (String c rest) = false.
Proof. intros Hne. cbn [String.prefix]. destruct (ascii_dec h c); congruence. Qed.

Lemma prefix_nil (s : string) : String.prefix "" s = true.
Proof. now destruct s. Qed.

Lemma prefix_underscore (c : ascii) (rest : string) :
  not_underscore c = true -> String.prefix "_" (String c rest) = false.
Proof.
  unfold not_underscore. intros H. apply prefix_head. intros ->.
  now rewrite Ascii.eqb_refl in H.
Qed.

(** A piece without separator is read into the current piece. *)
Lemma split_from_piece (cur a rest : string) :
  all_chars not_underscore a = true ->
  split_from "_" 0 cur (a +:+ rest) = split_from "_" 0 (cur +:+ a) rest.
Proof.
  revert cur. induction a as [|c a IH]; intros cur.
  - intros _. now rewrite append_nil_l, append_nil_r.
  - cbn [all_chars]. intros [Hc Ha]%andb_prop.
    rewrite append_cons. cbn [split_from]. rewrite prefix_underscore by exact Hc.
    rewrite IH by exact Ha. now rewrite append_assoc.
Qed.

Lemma split_from_sep (cur rest : string) :
  split_from "_" 0 cur (String "_" rest) = cur :: split_from "_" 0 "" rest.
Proof.
  cbn [split_from String.prefix]. destruct (ascii_dec "_" "_"); [|congruence].
  now rewrite prefix_nil.
Qed.

(** Characters that differ from the head of [old] are copied. *)
Lemma replace_from_copy (h : ascii) (old new a rest : string) :
  all_chars (fun c => negb (Ascii.eqb c h)) a = true ->
  replace_from (String h old) new 0 (a +:+ rest)
  = a +:+ replace_from (String h old) new 0 rest.
Proof.
  induction a as [|c a IH]; [reflexivity|].
  cbn [all_chars]. intros [Hc Ha]%andb_prop.
  rewrite !append_cons. cbn [replace_from].
  rewrite prefix_head; [now rewrite IH|].
  intros ->. now rewrite Ascii.eqb_refl in Hc.
Qed.

Lemma digit_not_c (c : ascii) : is_digit c = true -> negb (Ascii.eqb c "c") = true.
Proof. destruct c as [[] [] [] [] [] [] [] []]; vm_compute; congruence. Qed.

Lemma digit_not_s (c : ascii) : is_digit c = true -> negb (Ascii.eqb c "s") = true.
Proof. destruct c as [[] [] [] [] [] [] [] []]; vm_compute; congruence. Qed.

Lemma replace_cell (d : string) :
  all_chars is_digit d = true -> replace "cell" "" (d +:+ "cell") = d.
Proof.
  intros Hd. unfold replace.
  rewrite replace_from_copy by (revert Hd; apply all_chars_impl, digit_not_c).
  change (replace_from "cell" "" 0 "cell") with "". apply append_nil_r.
Qed.

Lemma replace_seed (d : string) :
  all_chars is_digit d = true -> replace "seed" "" ("seed" +:+ d) = d.
Proof.
  intros Hd. unfold replace.
  assert (E : replace_from "seed" "" 0 ("seed" +:+ d) = replace_from "seed" "" 0 d).
  { rewrite !append_cons, append_nil_l. cbn [replace_from].
    assert (Ep : String.prefix "seed" (String "s" (String "e" (String "e" (String "d" d))))
                 = true).
    { cbn [String.prefix].
      repeat match goal with
             | |- context [ascii_dec ?a ?a] => destruct (ascii_dec a a); [|congruence]
             end.
      apply prefix_nil. }
    rewrite Ep. reflexivity. }
  rewrite E. rewrite <- (append_nil_r d) at 1.
  rewrite replace_from_copy by (revert Hd; apply all_chars_impl, digit_not_s).
  apply append_nil_r.
Qed.

Lemma split_dir_name (a b c : string) :
  all_chars not_underscore a = true ->
  all_chars not_underscore b = true ->
  all_chars not_underscore c = true ->
  split "_" (a +:+ "_" +:+ b +:+ "_" +:+ c) = Some [a; b; c].
Proof.
  intros Ha Hb Hc. unfold split. f_equal.
  rewrite split_from_piece by exact Ha. rewrite append_nil_l.
  rewrite append_cons, append_nil_l, split_from_sep.
  rewrite split_from_piece by exact Hb. rewrite append_nil_l.
  rewrite append_cons, append_nil_l, split_from_sep.
  rewrite <- (append_nil_r c) at 1.
  rewrite split_from_piece by exact Hc. now rewrite append_nil_l.
Qed.

Lemma output_dir_name_parts (num_cells scenario_name seed : string) :
  output_dir_name num_cells scenario_name seed
  = (num_cells +:+ "cell") +:+ "_" +:+ scenario_name +:+ "_" +:+ ("seed" +:+ seed).
Proof. unfold output_dir_name. now rewrite append_assoc. Qed.

(** X26: the consolidation script reads back the parameters of a run
    from the name of its directory: for decimal [num_cells] and [seed]
    and a scenario name without underscore, the columns it adds are
    exactly the three values the runner put in the name.  A scenario
    name with an underscore is cut at the first one, and the rest of it
    is taken for the seed. *)
Theorem run_directory_name_reads_back (num_cells scenario_name seed : string) :
  all_chars is_digit num_cells = true ->
  all_chars is_digit seed = true ->
  all_chars not_underscore scenario_name = true ->
  dir_info (output_dir_name num_cells scenario_name seed)
  = Some (Columns num_cells scenario_name seed) /\
  forall more : string,
    all_chars not_underscore more = true ->
    dir_info (output_dir_name num_cells (scenario_name +:+ "_" +:+ more) seed)
    = Some (Columns num_cells scenario_name (replace "seed" "" more)).
Proof.
  intros Hn Hs Hname.
  assert (Hcell : all_chars not_underscore (num_cells +:+ "cell") = true).
  { rewrite all_chars_app, (all_chars_impl _ _ _ digit_not_underscore Hn). reflexivity. }
  assert (Hseed : all_chars not_underscore ("seed" +:+ seed) = true).
  { rewrite all_chars_app, (all_chars_impl _ _ _ digit_not_underscore Hs). reflexivity. }
  split.
  - unfold dir_info. rewrite output_dir_name_parts, split_dir_name by assumption.
    cbn [mbind option_bind]. now rewrite replace_cell, replace_seed.
  - intros more Hmore. unfold dir_info. rewrite output_dir_name_parts.
    unfold split.
    rewrite split_from_piece by exact Hcell. rewrite append_nil_l.
    rewrite append_cons, append_nil_l, split_from_sep.
    rewrite !append_assoc.
    rewrite split_from_piece by exact Hname. rewrite append_nil_l.
    rewrite append_cons, append_nil_l, split_from_sep.
    rewrite split_from_piece by exact Hmore. rewrite append_nil_l.
    rewrite append_cons, append_nil_l, split_from_sep.
    cbn [mbind option_bind]. now rewrite replace_cell.
Qed.

Lemma run_directory_name_reads_back_witness :
  dir_info (output_dir_name "12" "dense" "3") = Some (Columns "12" "dense" "3") /\
  dir_info (output_dir_name "12" "very_dense" "3") = Some (Columns "12" "very" "dense").
Proof.
  destruct (run_directory_name_reads_back "12" "dense" "3"
              ltac:(reflexivity) ltac:(reflexivity) ltac:(reflexivity)) as [H _].
  destruct (run_directory_name_reads_back "12" "very" "3"
              ltac:(reflexivity) ltac:(reflexivity) ltac:(reflexivity)) as [_ H'].
  split; [exact H | exact (H' "dense" ltac:(reflexivity))].
Defined.

End ConsolidateFacts.
